(** * shared-scripts: the issue fetcher and the issue statistics collector

    A shallow embedding of
      - scripts/github-utils/fetch-issue-complete.py
          (retry decorator, attachment extractor, comment pagination,
           attachment downloads), and
      - scripts/workflow-resources/issue-summary-report-reusable/
          collect-issue-stats.py (priority classification),
    followed by the properties established about them.

    Conventions of the embedding.
      - A Python [str] is a [string]; each character is a code point
        below 256.  Character classes ([\w], whitespace, case mapping)
        are given for that range.
      - A Python [int] is a [Z].
      - A [dict] is a [gmap]; [d.get(k)] is [d !! k].
      - An exception is a value of [exception]; code that can raise
        returns [exception + A].  Only instances of Python's [Exception]
        are represented (interpreter signals such as KeyboardInterrupt
        are not).
      - Effects are threaded through a state made of the outside world
        (network, file system) and a trace of observable events.
      - Library code the scripts call (urllib, json, pathlib, the
        tokenizer of html.parser, float formatting) is a parameter of
        the functions that use it.
      - Logger calls are represented for the retry decorator only; the
        informational logging of the other functions is left out. *)

From Stdlib Require Import ZArith Bool Ascii String List Lia.
From stdpp Require Import base option list gmap strings pretty.

Set Warnings "-register-all".
Local Open Scope Z_scope.

(* ===================================================================== *)
(** * Python built-ins used by the scripts                                *)
(* ===================================================================== *)

Module Py.

(** Characters as code points. *)
Definition ord (c : ascii) : Z := Z.of_nat (nat_of_ascii c).

Definition in_range (lo hi : Z) (c : ascii) : bool :=
  (lo <=? ord c) && (ord c <=? hi).

Definition is_char (x : ascii) (c : ascii) : bool :=
  if Ascii.ascii_dec x c then true else false.

Definition chars (s : string) : list ascii := list_ascii_of_string s.
Definition str (l : list ascii) : string := string_of_list_ascii l.

(** [needle in hay] for strings. *)
Fixpoint str_in (needle hay : string) : bool :=
  match hay with
  | EmptyString => String.prefix needle EmptyString
  | String _ rest => String.prefix needle hay || str_in needle rest
  end.

(** [ch.lower()] on code points below 256: A-Z, and the Latin-1 capitals
    0xC0-0xDE except the multiplication sign 0xD7. *)
Definition lower_char (c : ascii) : ascii :=
  if in_range 65 90 c then ascii_of_nat (nat_of_ascii c + 32)
  else if in_range 192 222 c && negb (ord c =? 215)
       then ascii_of_nat (nat_of_ascii c + 32)
  else c.

(** [s.lower()]. *)
Fixpoint lower (s : string) : string :=
  match s with
  | EmptyString => EmptyString
  | String c rest => String (lower_char c) (lower rest)
  end.

(** [s.split('?')[0] if '?' in s else s]: the text before the first
    occurrence of [sep] (all of [s] when there is none). *)
Fixpoint before_first (sep : ascii) (s : string) : string :=
  match s with
  | EmptyString => EmptyString
  | String c rest => if is_char sep c then EmptyString
                     else String c (before_first sep rest)
  end.

(** [s.lstrip(ch)]. *)
Fixpoint lstrip (ch : ascii) (s : string) : string :=
  match s with
  | String c rest => if is_char ch c then lstrip ch rest else s
  | EmptyString => EmptyString
  end.

(** The characters before the first one that satisfies [stop], and the
    characters after it. *)
Fixpoint take_until (stop : ascii -> bool) (l : list ascii) : list ascii :=
  match l with
  | c :: l' => if stop c then [] else c :: take_until stop l'
  | [] => []
  end.

Fixpoint drop_until (stop : ascii -> bool) (l : list ascii) : list ascii :=
  match l with
  | c :: l' => if stop c then l' else drop_until stop l'
  | [] => []
  end.

(** Truthiness of a string: [bool(s)]. *)
Definition truthy (s : string) : bool :=
  match s with EmptyString => false | _ => true end.

End Py.

(* ===================================================================== *)
(** * Exceptions                                                          *)
(* ===================================================================== *)

(** The exception classes the scripts distinguish.  [HTTPError] is a
    subclass of [URLError], which is a subclass of [OSError];
    [TimeoutError] is a subclass of [OSError]; [JSONDecodeError] is a
    subclass of [ValueError].  [RuntimeError msg cause] carries the
    exception it was raised [from]. *)
Inductive exception : Type :=
| HTTPError (code : Z) (reason : string) (body : option string)
| URLError (reason : string)
| TimeoutError (msg : string)
| OSError (msg : string)
| JSONDecodeError (msg : string)
| ValueError (msg : string)
| TypeError (msg : string)
| RuntimeError (msg : string) (cause : option exception)
| OtherException (class_name msg : string).

(** [isinstance(e, URLError)]: what [except URLError] catches. *)
Definition isinstance_URLError (e : exception) : bool :=
  match e with HTTPError _ _ _ | URLError _ => true | _ => false end.

(** [str(e)], as used in f-strings. *)
Definition exception_str (e : exception) : string :=
  match e with
  | HTTPError code reason _ =>
      "HTTP Error " +:+ pretty code +:+ ": " +:+ reason
  | URLError reason => "<urlopen error " +:+ reason +:+ ">"
  | TimeoutError msg | OSError msg | JSONDecodeError msg | ValueError msg
  | TypeError msg | RuntimeError msg _ | OtherException _ msg => msg
  end.

(* ===================================================================== *)
(** * Effects: world, trace, and the monad of the fetcher                 *)
(* ===================================================================== *)

Inductive log_level := Warning | Error.

(** Observable events, in the order they happen.  [Call] marks one
    invocation of a function wrapped by the retry decorator (what a test
    double counts); [Sleep d] is [time.sleep(d)]; [HttpGet url] is one
    [urlopen]; [Log] is a logger call at warning or error level. *)
Inductive event : Type :=
| Call
| Sleep (seconds : Z)
| HttpGet (url : string)
| Log (level : log_level) (msg : string).

Section Effects.
Context {World : Type}.

Record State : Type := mkState { world : World; trace : list event }.

Definition M (A : Type) : Type := State -> (exception + A) * State.

Definition ret {A} (a : A) : M A := fun s => (inr a, s).

Definition raise {A} (e : exception) : M A := fun s => (inl e, s).

Definition bind {A B} (m : M A) (k : A -> M B) : M B :=
  fun s => match m s with
           | (inr a, s') => k a s'
           | (inl e, s') => (inl e, s')
           end.

(** [try: m] with the outcome handed to the caller: the exception, if
    any, is caught. *)
Definition try_ {A} (m : M A) : M (exception + A) :=
  fun s => let '(r, s') := m s in (inr r, s').

Definition emit (ev : event) : M unit :=
  fun s => (inr tt, mkState (world s) (trace s ++ [ev])).

(** An operation of the outside world, run inside [M]. *)
Definition perform {A} (op : World -> (exception + A) * World) : M A :=
  fun s => let '(r, w') := op (world s) in (r, mkState w' (trace s)).

End Effects.

Arguments State World : clear implicits.
Arguments M World A : clear implicits.

Notation "x <- c1 ;; c2" := (bind c1 (fun x => c2))
  (at level 100, c1 at next level, right associativity).
Notation "c1 ;; c2" := (bind c1 (fun _ => c2))
  (at level 100, right associativity).

(** Projections of a trace. *)
Definition sleeps (tr : list event) : list Z :=
  omap (fun ev => match ev with Sleep d => Some d | _ => None end) tr.

Definition calls (tr : list event) : nat :=
  length (omap (fun ev => match ev with Call => Some tt | _ => None end) tr).

Definition requests (tr : list event) : list string :=
  omap (fun ev => match ev with HttpGet u => Some u | _ => None end) tr.

(* ===================================================================== *)
(** * The retry decorator                                                 *)
(* ===================================================================== *)

Module Retry.

Definition MAX_RETRIES : Z := 5.
Definition INITIAL_RETRY_DELAY : Z := 1.
Definition RETRY_BACKOFF_MULTIPLIER : Z := 2.

(** [e.code in (502, 503, 504)]. *)
Definition transient_code (code : Z) : bool :=
  (code =? 502) || (code =? 503) || (code =? 504).

Definition warn_http (code : Z) (reason : string) (attempt delay : Z) : string :=
  "Transient error (" +:+ pretty code +:+ " " +:+ reason +:+ ") on attempt "
  +:+ pretty attempt +:+ "/" +:+ pretty MAX_RETRIES
  +:+ ". Retrying in " +:+ pretty delay +:+ "s...".

Definition giveup_http (code : Z) : string :=
  "Max retries (" +:+ pretty MAX_RETRIES
  +:+ ") reached for transient error " +:+ pretty code +:+ ". Giving up.".

Definition warn_net (reason : string) (attempt delay : Z) : string :=
  "Network error (" +:+ reason +:+ ") on attempt "
  +:+ pretty attempt +:+ "/" +:+ pretty MAX_RETRIES
  +:+ ". Retrying in " +:+ pretty delay +:+ "s...".

Definition giveup_net : string :=
  "Max retries (" +:+ pretty MAX_RETRIES
  +:+ ") reached for network error. Giving up.".

Section Wrapper.
Context {World A : Type}.
Variable func : M World A.

(** The body of [wrapper]: the [for attempt in range(1, MAX_RETRIES + 1)]
    loop over the attempts still to make, with the local variables
    [last_exception] and [retry_delay]; the empty list is the code after
    the loop, [raise last_exception] (raising [None] is a TypeError). *)
Fixpoint wrapper_loop (attempts : list Z) (last_exception : option exception)
         (retry_delay : Z) : M World A :=
  match attempts with
  | [] =>
      match last_exception with
      | Some e => raise e
      | None => raise (TypeError "exceptions must derive from BaseException")
      end
  | attempt :: rest =>
      r <- try_ (emit Call ;; func) ;;
      match r with
      | inr v => ret v
      | inl (HTTPError code reason body as e) =>
          if transient_code code then
            if attempt <? MAX_RETRIES then
              emit (Log Warning (warn_http code reason attempt retry_delay)) ;;
              emit (Sleep retry_delay) ;;
              wrapper_loop rest (Some e) (retry_delay * RETRY_BACKOFF_MULTIPLIER)
            else
              emit (Log Error (giveup_http code)) ;;
              wrapper_loop rest (Some e) retry_delay
          else raise e
      | inl (URLError reason as e) =>
          if attempt <? MAX_RETRIES then
            emit (Log Warning (warn_net reason attempt retry_delay)) ;;
            emit (Sleep retry_delay) ;;
            wrapper_loop rest (Some e) (retry_delay * RETRY_BACKOFF_MULTIPLIER)
          else
            emit (Log Error giveup_net) ;;
            wrapper_loop rest (Some e) retry_delay
      | inl e => raise e
      end
  end.

(** [range(1, MAX_RETRIES + 1)]. *)
Definition attempts_range : list Z := seqZ 1 MAX_RETRIES.

Definition retry_on_transient_errors : M World A :=
  wrapper_loop attempts_range None INITIAL_RETRY_DELAY.

End Wrapper.

End Retry.

(* ===================================================================== *)
(** * Regular expressions ([re.search])                                   *)
(* ===================================================================== *)

Module Re.
Import Py.

(** The fragment of the pattern language that the scripts use. *)
Inductive regex : Type :=
| Lit (c : ascii)                   (* an escaped or plain character   *)
| Plus (cls : ascii -> bool)        (* [...]+ , greedy                 *)
| Eos                               (* $                               *)
| Alt (r1 r2 : regex)               (* r1|r2                           *)
| Seq (r1 r2 : regex)               (* r1 followed by r2               *)
| Group (r : regex).                (* ( r ), capturing group 1        *)

(** [$] without MULTILINE: at the end of the string, or just before a
    newline that ends the string. *)
Definition at_end (s : list ascii) : bool :=
  match s with
  | [] => true
  | [c] => ord c =? 10
  | _ => false
  end.

(** One or more characters of [cls], longest first, giving back one
    character at a time while the continuation fails. *)
Fixpoint plus_loop {X} (cls : ascii -> bool) (k : list ascii -> option X)
    (s : list ascii) : option X :=
  match s with
  | [] => None
  | c :: s' =>
      if cls c then
        match plus_loop cls k s' with
        | Some x => Some x
        | None => k s'
        end
      else None
  end.

(** Backtracking match of [r] at the head of [s]; [g] is the text
    captured so far, [k] the rest of the pattern. *)
Fixpoint run {X} (r : regex) (s : list ascii) (g : option (list ascii))
    (k : list ascii -> option (list ascii) -> option X) : option X :=
  match r with
  | Lit c =>
      match s with
      | c' :: s' => if is_char c c' then k s' g else None
      | [] => None
      end
  | Plus cls => plus_loop cls (fun s' => k s' g) s
  | Eos => if at_end s then k s g else None
  | Alt r1 r2 =>
      match run r1 s g k with
      | Some x => Some x
      | None => run r2 s g k
      end
  | Seq r1 r2 => run r1 s g (fun s' g' => run r2 s' g' k)
  | Group r1 =>
      run r1 s g (fun s' _ => k s' (Some (take (length s - length s') s)))
  end.

(** [re.search(r, s)]: the leftmost match; the result is [group(1)] of
    the match ([None] inside when the group took no part). *)
Fixpoint search_from (r : regex) (s : list ascii) : option (option (list ascii)) :=
  match run r s None (fun _ g => Some g) with
  | Some g => Some g
  | None =>
      match s with
      | [] => None
      | _ :: s' => search_from r s'
      end
  end.

Definition search (r : regex) (s : string) : option (option string) :=
  match search_from r (chars s) with
  | Some g => Some (option_map str g)
  | None => None
  end.

(** Character classes. *)

(** [[a-f0-9-]] *)
Definition hex_or_dash (c : ascii) : bool :=
  in_range 97 102 c || in_range 48 57 c || is_char "-" c.

(** [\w] for str patterns: [ch.isalnum() or ch == '_'], on code points
    below 256. *)
Definition word (c : ascii) : bool :=
  in_range 97 122 c || in_range 65 90 c || in_range 48 57 c || is_char "_" c
  || (ord c =? 170) || (ord c =? 178) || (ord c =? 179) || (ord c =? 181)
  || (ord c =? 185) || (ord c =? 186) || in_range 188 190 c
  || in_range 192 214 c || in_range 216 246 c || in_range 248 255 c.

(** [[^/?]] *)
Definition not_slash_or_query (c : ascii) : bool :=
  negb (is_char "/" c) && negb (is_char "?" c).

End Re.

(* ===================================================================== *)
(** * [int(s)] on a string                                                *)
(* ===================================================================== *)

Module PyInt.
Import Py.

(** The whitespace [int] ignores around the number, on code points below
    256: tab to carriage return, space, NEL and no-break space. *)
Definition is_space (c : ascii) : bool :=
  in_range 9 13 c || (ord c =? 32) || (ord c =? 133) || (ord c =? 160).

Fixpoint lstrip_space (l : list ascii) : list ascii :=
  match l with
  | c :: l' => if is_space c then lstrip_space l' else l
  | [] => []
  end.

Definition strip_space (l : list ascii) : list ascii :=
  rev (lstrip_space (rev (lstrip_space l))).

Definition digit_value (c : ascii) : option Z :=
  if in_range 48 57 c then Some (ord c - 48) else None.

(** Decimal digits, single underscores allowed between two digits.
    [after_digit] tells whether the previous character was a digit. *)
Fixpoint digits (acc : Z) (after_digit : bool) (l : list ascii) : option Z :=
  match l with
  | [] => if after_digit then Some acc else None
  | c :: l' =>
      match digit_value c with
      | Some d => digits (acc * 10 + d) true l'
      | None =>
          if is_char "_" c && after_digit then digits acc false l' else None
      end
  end.

(** [int(s)]: [None] stands for ValueError.  Surrounding whitespace is
    ignored, then an optional sign, then the digits.  (The interpreter's
    optional limit on the number of digits is not represented; it also
    raises ValueError.) *)
Definition int (s : string) : option Z :=
  match strip_space (chars s) with
  | c :: l' =>
      if is_char "+" c then digits 0 false l'
      else if is_char "-" c then Z.opp <$> digits 0 false l'
      else digits 0 false (c :: l')
  | [] => None
  end.

End PyInt.

(* ===================================================================== *)
(** * The attachment extractor                                            *)
(* ===================================================================== *)

Module AttachmentExtractor.
Import Py.

(** The dict built for each attachment. *)
Record Attachment : Type := mkAttachment {
  url : string;
  filename : string;
  file_type : string;
  dimensions : option (gmap string Z);
  tag_type : string
}.

(** [attrs] as HTMLParser hands them over: name and value, the value
    [None] for an attribute written without one. *)
Definition attr_list : Type := list (string * option string).

(** [dict(attrs)]: a later pair replaces an earlier one with the same
    name. *)
Definition dict (attrs : attr_list) : gmap string (option string) :=
  foldl (fun d kv => <[kv.1 := kv.2]> d) ∅ attrs.

Definition attachment_domains : list string :=
  [ "user-attachments.githubusercontent.com";
    "private-user-images.githubusercontent.com";
    "github-production-user-asset" ].

Definition _is_attachment_url (url : string) : bool :=
  if negb (truthy url) then false
  else existsb (fun domain => str_in domain url) attachment_domains.

(** [/([a-f0-9-]+\.[\w]+)(?:\?|$)] *)
Definition UUID_FILENAME : Re.regex :=
  Re.Seq (Re.Lit "/")
    (Re.Seq (Re.Group (Re.Seq (Re.Plus Re.hex_or_dash)
                         (Re.Seq (Re.Lit ".") (Re.Plus Re.word))))
            (Re.Alt (Re.Lit "?") Re.Eos)).

(** [/([^/?]+)(?:\?|$)] *)
Definition LAST_SEGMENT : Re.regex :=
  Re.Seq (Re.Lit "/")
    (Re.Seq (Re.Group (Re.Plus Re.not_slash_or_query))
            (Re.Alt (Re.Lit "?") Re.Eos)).

(** [\.(\w+)$] *)
Definition EXTENSION : Re.regex :=
  Re.Seq (Re.Lit ".") (Re.Seq (Re.Group (Re.Plus Re.word)) Re.Eos).

Definition _extract_filename (url : string) : string :=
  match Re.search UUID_FILENAME url with
  | Some (Some g) => g
  | _ =>
      match Re.search LAST_SEGMENT url with
      | Some (Some g) => g
      | _ => "unknown_file"
      end
  end.

Definition _extract_file_type (url : string) : string :=
  let filename := _extract_filename url in
  match Re.search EXTENSION filename with
  | Some (Some ext) => lower ext
  | _ => "unknown"
  end.

(** [attrs.get(k)] as an Optional[str]: [None] when the attribute is
    missing or has no value. *)
Definition attr_get (attrs : gmap string (option string)) (k : string)
  : option string := attrs !! k ≫= id.

(** Truthiness of an Optional[str]. *)
Definition given (v : option string) : bool :=
  match v with Some s => truthy s | None => false end.

(** [dimensions[k] = int(v)] inside [try ... except ValueError: pass],
    guarded by [if v:]. *)
Definition set_int (k : string) (v : option string) (dimensions : gmap string Z)
  : gmap string Z :=
  match v with
  | Some s =>
      if truthy s then
        match PyInt.int s with
        | Some n => <[k := n]> dimensions
        | None => dimensions
        end
      else dimensions
  | None => dimensions
  end.

Definition _extract_dimensions (attrs : gmap string (option string))
  : option (gmap string Z) :=
  let width := attr_get attrs "width" in
  let height := attr_get attrs "height" in
  if given width || given height then
    let dimensions := set_int "height" height (set_int "width" width ∅) in
    if decide (dimensions = ∅) then None else Some dimensions
  else None.

(** [handle_starttag(tag, attrs)], acting on [self.attachments].
    [attrs_dict.get('src', '')] is [None] for a valueless attribute, and
    [_is_attachment_url(None)] is false. *)
Definition handle_starttag (tag : string) (attrs : attr_list)
    (attachments : list Attachment) : list Attachment :=
  let attrs_dict := dict attrs in
  if String.eqb tag "img" then
    match default (Some EmptyString) (attrs_dict !! "src") with
    | Some src =>
        if _is_attachment_url src then
          attachments ++
            [ {| url := src;
                 filename := _extract_filename src;
                 file_type := _extract_file_type src;
                 dimensions := _extract_dimensions attrs_dict;
                 tag_type := "img" |} ]
        else attachments
    | None => attachments
    end
  else if String.eqb tag "a" then
    match default (Some EmptyString) (attrs_dict !! "href") with
    | Some href =>
        if _is_attachment_url href then
          attachments ++
            [ {| url := href;
                 filename := _extract_filename href;
                 file_type := _extract_file_type href;
                 dimensions := None;
                 tag_type := "a" |} ]
        else attachments
    | None => attachments
    end
  else attachments.

Section Feed.
(** The tokenizer of [html.parser.HTMLParser]: the start tags (also the
    self-closing ones), in document order, for which [feed] calls
    [handle_starttag]; [None] when [feed] raises. *)
Variable start_tags : string -> option (list (string * attr_list)).

Definition feed (events : list (string * attr_list)) : list Attachment :=
  foldl (fun atts ev => handle_starttag ev.1 ev.2 atts) [] events.

(** [extract_attachments_from_html]; the warning logged when parsing
    fails is left out. *)
Definition extract_attachments_from_html (html_content : string)
  : list Attachment :=
  if negb (truthy html_content) then []
  else
    match start_tags html_content with
    | Some events => feed events
    | None => []
    end.
End Feed.

End AttachmentExtractor.

(* ===================================================================== *)
(** * The statistics collector: priority of an open issue                 *)
(* ===================================================================== *)

Module Stats.
Import Py.

Record Label : Type := mkLabel { name : string }.

(** The loop [for label in issue.get('labels', [])] with the local
    variable [priority]. *)
Fixpoint priority_loop (labels : list Label) (priority : string) : string :=
  match labels with
  | [] => priority
  | label :: rest =>
      let label_name := lower (name label) in
      if str_in "critical" label_name then "critical"
      else if str_in "high" label_name then priority_loop rest "high"
      else if str_in "medium" label_name && String.eqb priority "unprioritized"
           then priority_loop rest "medium"
      else if str_in "low" label_name && String.eqb priority "unprioritized"
           then priority_loop rest "low"
      else priority_loop rest priority
  end.

Definition issue_priority (labels : list Label) : string :=
  priority_loop labels "unprioritized".

(** The test the loop applies to a label: [w in label['name'].lower()]. *)
Definition has_word (w : string) (l : Label) : bool :=
  str_in w (lower (name l)).

End Stats.

(* ===================================================================== *)
(** * The issue data fetcher                                              *)
(* ===================================================================== *)

Module IssueDataFetcher.
Import Py.

Record Request : Type := mkRequest {
  req_url : string;
  req_headers : list (string * string)
}.

(** A comment object of the comments-list API, as far as the script
    reads it: [user] is the login, [None] for a deleted account. *)
Record RawComment : Type := mkRawComment {
  id : Z;
  user : option string;
  raw_created_at : string;
  raw_body : string;
  raw_body_html : string
}.

(** The dict [comment_info] built for each comment. *)
Record Comment : Type := mkComment {
  comment_id : Z;
  author : string;
  created_at : string;
  body : string;
  body_html : string;
  _attachments : list AttachmentExtractor.Attachment
}.

(** The dict returned by [download_attachment]. *)
Record DownloadRecord : Type := mkDownloadRecord {
  source_url : string;
  file_type : string;
  file_size : string;
  file_size_bytes : Z;
  file_location : string;
  filename : string;
  success : bool;
  error : option string
}.

(** An entry of [download_metadata]:
    [{'source': ..., 'source_id': ..., **metadata}]. *)
Record Metadata : Type := mkMetadata {
  source : string;
  source_id : Z;
  metadata : DownloadRecord
}.

(** The dict returned by [download_attachments]. *)
Record DownloadStats : Type := mkDownloadStats {
  stats_total_attachments : Z;
  stats_downloaded : Z;
  stats_failed : Z;
  stats_total_size : string;
  stats_total_size_bytes : Z
}.

(** The local variables of [download_attachments]. *)
Record Counters : Type := mkCounters {
  total_attachments : Z;
  downloaded_count : Z;
  failed_count : Z;
  total_size_bytes : Z;
  download_metadata : list Metadata
}.

(** The text [rel="next"] looked for in the Link header. *)
Definition REL_NEXT : string :=
  "rel=" +:+ String "034" ("next" +:+ String "034" EmptyString).

Definition per_page : Z := 100.

Definition api_headers (github_token : string) : list (string * string) :=
  [ ("Accept", "application/vnd.github.full+json");
    ("Authorization", "token " +:+ github_token);
    ("User-Agent", "github-issue-fetcher") ].

Definition issue_url (repo : string) (issue_number : Z) : string :=
  "https://api.github.com/repos/" +:+ repo +:+ "/issues/" +:+ pretty issue_number.

Definition comments_url (repo : string) (issue_number page : Z) : string :=
  ("https://api.github.com/repos/" +:+ repo +:+ "/issues/"
     +:+ pretty issue_number +:+ "/comments")
  +:+ ("?per_page=" +:+ pretty per_page +:+ "&page=" +:+ pretty page).

Section Fetcher.
Context {World Issue Path : Type}.

(** ** The outside world

    Each network operation stands for [urlopen(..., timeout=30)]
    together with reading (and, for the API, decoding) the response;
    it raises whatever any of these steps raises. *)

(** GET of the issue: the decoded JSON object. *)
Variable http_get_issue :
  Request -> World -> (exception + Issue) * World.
(** GET of a page of comments: the decoded JSON array and the Link
    response header (empty when absent). *)
Variable http_get_comments :
  Request -> World -> (exception + (list RawComment * string)) * World.
(** GET of an attachment: the bytes read. *)
Variable http_get_bytes :
  string -> World -> (exception + list Byte.byte) * World.

(** [path.mkdir(parents=True, exist_ok=True)] *)
Variable mkdir_parents : Path -> World -> (exception + unit) * World.
(** [open(path, 'wb')] and [f.write(data)] *)
Variable write_file :
  Path -> list Byte.byte -> World -> (exception + unit) * World.

(** pathlib: [p / name], [p.name], [p.suffix], [p.parent],
    [str(p.absolute())]. *)
Variable path_div : Path -> string -> Path.
Variable path_name : Path -> string.
Variable path_suffix : Path -> string.
Variable path_parent : Path -> Path.
Variable path_absolute : Path -> string.

(** [f"{a / b:.1f}"]: float division and one-decimal formatting. *)
Variable format_1f : Z -> Z -> string.

(** HTMLParser's tokenizer, see [AttachmentExtractor.feed]. *)
Variable start_tags :
  string -> option (list (string * AttachmentExtractor.attr_list)).

(** Attributes of [self]. *)
Variable self_issue_number : Z.
Variable self_output_dir : Path.

Definition attachments_dir : Path := path_div self_output_dir "attachments".
Definition issue_attachments_dir : Path := path_div attachments_dir "issue".
Definition comments_attachments_dir : Path := path_div attachments_dir "comments".

(** ** [fetch_issue_html] *)

(** The function as written, before decoration: its own try/except
    turns every exception of the request into a RuntimeError. *)
Definition fetch_issue_html_wrapped (repo : string) (issue_number : Z)
    (github_token : string) : M World Issue :=
  let url := issue_url repo issue_number in
  r <- try_ (emit (HttpGet url) ;;
             perform (http_get_issue (mkRequest url (api_headers github_token)))) ;;
  match r with
  | inr issue_data => ret issue_data
  | inl (HTTPError code reason fp as e) =>
      let error_body := default "No error details" fp in
      if code =? 401 then
        raise (RuntimeError
          ("Authentication failed (401): Invalid GitHub token. "
             +:+ "Please check your token has valid credentials.") (Some e))
      else if code =? 403 then
        raise (RuntimeError
          ("Forbidden (403): Access denied. Your token may lack required permissions "
             +:+ "or you may have hit rate limits. Details: " +:+ error_body) (Some e))
      else if code =? 404 then
        raise (RuntimeError
          ("Not found (404): Issue #" +:+ pretty issue_number
             +:+ " does not exist in " +:+ repo +:+ ", "
             +:+ "or you don't have access to this repository.") (Some e))
      else
        raise (RuntimeError
          ("HTTP error " +:+ pretty code +:+ ": " +:+ reason
             +:+ ". Details: " +:+ error_body) (Some e))
  | inl (URLError reason as e) =>
      raise (RuntimeError
        ("Network error: Failed to connect to GitHub API. "
           +:+ "Please check your internet connection. Details: " +:+ reason)
        (Some e))
  | inl (JSONDecodeError _ as e) =>
      raise (RuntimeError
        ("Invalid JSON response from GitHub API: " +:+ exception_str e) (Some e))
  | inl e =>
      raise (RuntimeError
        ("Unexpected error fetching issue data: " +:+ exception_str e) (Some e))
  end.

(** [@retry_on_transient_errors def fetch_issue_html] *)
Definition fetch_issue_html (repo : string) (issue_number : Z)
    (github_token : string) : M World Issue :=
  Retry.retry_on_transient_errors
    (fetch_issue_html_wrapped repo issue_number github_token).

(** ** Comments *)

Definition _fetch_comments_page_wrapped (api_url github_token : string)
  : M World (list RawComment * bool) :=
  emit (HttpGet api_url) ;;
  r <- perform (http_get_comments (mkRequest api_url (api_headers github_token))) ;;
  let '(comments_data, link_header) := r in
  let has_next_page := str_in REL_NEXT link_header in
  ret (comments_data, has_next_page).

(** [@retry_on_transient_errors def _fetch_comments_page] *)
Definition _fetch_comments_page (api_url github_token : string)
  : M World (list RawComment * bool) :=
  Retry.retry_on_transient_errors
    (_fetch_comments_page_wrapped api_url github_token).

Definition comment_info (comment : RawComment) : Comment :=
  let body_html := raw_body_html comment in
  let attachments :=
    AttachmentExtractor.extract_attachments_from_html start_tags body_html in
  {| comment_id := id comment;
     author := default "ghost" (user comment);
     created_at := raw_created_at comment;
     body := raw_body comment;
     body_html := body_html;
     _attachments := attachments |}.

(** The except clauses around the body of the [while] loop. *)
Definition comments_failure (e : exception) : exception :=
  match e with
  | HTTPError code reason _ =>
      RuntimeError ("Failed to fetch comments: HTTP " +:+ pretty code
                      +:+ " - " +:+ reason) (Some e)
  | URLError reason =>
      RuntimeError ("Failed to fetch comments: " +:+ reason) (Some e)
  | JSONDecodeError _ =>
      RuntimeError "Invalid JSON response from GitHub API" (Some e)
  | _ => e
  end.

(** The [while True] loop of [fetch_comments_html] with its local
    variables [page] and [all_comments].  [fuel] bounds the number of
    iterations; [None] means the bound was reached before the loop
    ended. *)
Fixpoint comments_loop (fuel : nat) (repo : string) (issue_number : Z)
    (github_token : string) (page : Z) (all_comments : list Comment)
    (s : State World) : option ((exception + list Comment) * State World) :=
  match fuel with
  | O => None
  | S fuel' =>
      let api_url := comments_url repo issue_number page in
      match _fetch_comments_page api_url github_token s with
      | (inr (comments_data, has_next_page), s') =>
          match comments_data with
          | [] => Some (inr all_comments, s')
          | _ :: _ =>
              let all_comments' := all_comments ++ map comment_info comments_data in
              if negb has_next_page then Some (inr all_comments', s')
              else comments_loop fuel' repo issue_number github_token
                     (page + 1) all_comments' s'
          end
      | (inl e, s') => Some (inl (comments_failure e), s')
      end
  end.

Definition fetch_comments_html (fuel : nat) (repo : string) (issue_number : Z)
    (github_token : string) (s : State World)
  : option ((exception + list Comment) * State World) :=
  comments_loop fuel repo issue_number github_token 1 [] s.

(** ** Downloads *)

Definition format_file_size (size_bytes : Z) : string :=
  if size_bytes <? 1024 then pretty size_bytes +:+ " B"
  else if size_bytes <? 1024 * 1024 then format_1f size_bytes 1024 +:+ " KB"
  else if size_bytes <? 1024 * 1024 * 1024
       then format_1f size_bytes (1024 * 1024) +:+ " MB"
  else format_1f size_bytes (1024 * 1024 * 1024) +:+ " GB".

(** [@retry_on_transient_errors def _download_file] *)
Definition _download_file (url : string) : M World (list Byte.byte) :=
  Retry.retry_on_transient_errors
    (emit (HttpGet url) ;; perform (http_get_bytes url)).

(** [url.split('?')[0] if '?' in url else url] *)
Definition strip_query (url : string) : string := before_first "?" url.

(** The try block of [download_attachment]. *)
Definition download_attachment_try (url : string) (output_path : Path)
  : M World DownloadRecord :=
  perform (mkdir_parents (path_parent output_path)) ;;
  file_data <- _download_file url ;;
  perform (write_file output_path file_data) ;;
  let file_size_bytes := Z.of_nat (length file_data) in
  let file_size_human := format_file_size file_size_bytes in
  let file_type :=
    if truthy (path_suffix output_path)
    then lower (lstrip "." (path_suffix output_path))
    else "unknown" in
  let source_url_short := strip_query url in
  ret {| source_url := source_url_short;
         file_type := file_type;
         file_size := file_size_human;
         file_size_bytes := file_size_bytes;
         file_location := path_absolute output_path;
         filename := path_name output_path;
         success := true;
         error := None |}.

(** The dict returned by each except clause. *)
Definition failed_download (url : string) (output_path : Path)
    (error_msg : string) : DownloadRecord :=
  {| source_url := strip_query url;
     file_type := "unknown";
     file_size := "0 B";
     file_size_bytes := 0;
     file_location := path_absolute output_path;
     filename := path_name output_path;
     success := false;
     error := Some error_msg |}.

(** [error_msg], by except clause: HTTPError, URLError, TimeoutError,
    OSError, Exception. *)
Definition download_error_msg (e : exception) : string :=
  match e with
  | HTTPError code reason _ => "HTTP " +:+ pretty code +:+ ": " +:+ reason
  | URLError reason => "Network error: " +:+ reason
  | TimeoutError _ => "Download timed out (30 seconds)"
  | OSError _ => "Filesystem error: " +:+ exception_str e
  | _ => "Unexpected error: " +:+ exception_str e
  end.

Definition download_attachment (url : string) (output_path : Path)
  : M World DownloadRecord :=
  r <- try_ (download_attachment_try url output_path) ;;
  match r with
  | inr record => ret record
  | inl e => ret (failed_download url output_path (download_error_msg e))
  end.

(** The bookkeeping after one download. *)
Definition count_download (src : string) (src_id : Z) (m : DownloadRecord)
    (c : Counters) : Counters :=
  {| download_metadata := download_metadata c ++ [mkMetadata src src_id m];
     downloaded_count :=
       if success m then downloaded_count c + 1 else downloaded_count c;
     total_size_bytes :=
       if success m then total_size_bytes c + file_size_bytes m
       else total_size_bytes c;
     failed_count := if success m then failed_count c else failed_count c + 1;
     total_attachments := total_attachments c + 1 |}.

(** [for idx, attachment in enumerate(attachments, 1)]: the loop over
    the attachments of the issue body, and of one comment. *)
Fixpoint download_each (src : string) (src_id : Z) (dir : Path)
    (attachments : list AttachmentExtractor.Attachment) (c : Counters)
  : M World Counters :=
  match attachments with
  | [] => ret c
  | attachment :: rest =>
      let url := AttachmentExtractor.url attachment in
      let filename := AttachmentExtractor.filename attachment in
      let output_path := path_div dir filename in
      m <- download_attachment url output_path ;;
      download_each src src_id dir rest (count_download src src_id m c)
  end.

(** [for comment_idx, comment in enumerate(comments, 1)] *)
Fixpoint download_comments (comments : list Comment) (c : Counters)
  : M World Counters :=
  match comments with
  | [] => ret c
  | comment :: rest =>
      match _attachments comment with
      | [] => download_comments rest c
      | comment_attachments =>
          let comment_dir :=
            path_div comments_attachments_dir (pretty (comment_id comment)) in
          c' <- download_each "comment" (comment_id comment) comment_dir
                  comment_attachments c ;;
          download_comments rest c'
      end
  end.

(** [download_attachments(issue_data)]: [issue_attachments] and
    [comments] are [issue_data.get('_attachments', [])] and
    [issue_data.get('_comments', [])]; the second component of the
    result is what is stored under [issue_data['_download_metadata']]. *)
Definition download_attachments
    (issue_attachments : list AttachmentExtractor.Attachment)
    (comments : list Comment) : M World (DownloadStats * list Metadata) :=
  c1 <- download_each "issue" self_issue_number issue_attachments_dir
          issue_attachments (mkCounters 0 0 0 0 []) ;;
  c2 <- download_comments comments c1 ;;
  ret ({| stats_total_attachments := total_attachments c2;
          stats_downloaded := downloaded_count c2;
          stats_failed := failed_count c2;
          stats_total_size := format_file_size (total_size_bytes c2);
          stats_total_size_bytes := total_size_bytes c2 |},
       download_metadata c2).

End Fetcher.

End IssueDataFetcher.

(* ===================================================================== *)
(** * Notions of the specification, for comparison with the code          *)
(* ===================================================================== *)

Module Spec.
Import Py.

(** The host of a URL: what follows the first [//] up to the next [/],
    [?] or [#], without user information and port, in lower case. *)
Fixpoint after_slashes (l : list ascii) : list ascii :=
  match l with
  | c1 :: l' =>
      match l' with
      | c2 :: rest =>
          if is_char "/" c1 && is_char "/" c2 then rest else after_slashes l'
      | [] => []
      end
  | [] => []
  end.

(** What follows the last [@], all of [l] when there is none. *)
Definition after_last_at (l : list ascii) : list ascii :=
  rev (take_until (is_char "@") (rev l)).

Definition url_host (url : string) : string :=
  let authority :=
    take_until (fun c => is_char "/" c || is_char "?" c || is_char "#" c)
      (after_slashes (chars url)) in
  lower (str (take_until (is_char ":") (after_last_at authority))).

(** "Its host matches one of the allow-listed domains." *)
Definition host_allow_listed (url : string) : bool :=
  existsb (fun domain => str_in domain (url_host url))
    AttachmentExtractor.attachment_domains.

(** "critical > high > medium > low > unprioritized": the highest level
    named by some label. *)
Definition precedence_priority (labels : list Stats.Label) : string :=
  if existsb (Stats.has_word "critical") labels then "critical"
  else if existsb (Stats.has_word "high") labels then "high"
  else if existsb (Stats.has_word "medium") labels then "medium"
  else if existsb (Stats.has_word "low") labels then "low"
  else "unprioritized".

End Spec.

(* ===================================================================== *)
(** * Test doubles                                                        *)
(* ===================================================================== *)

(** A scripted operation: the world is the list of outcomes still to be
    served, one per call; once the script is used up every further call
    gives [final]. *)
Definition scripted {A} (final : exception + A)
    (w : list (exception + A)) : (exception + A) * list (exception + A) :=
  match w with
  | [] => (final, [])
  | r :: w' => (r, w')
  end.

(** An operation with the same outcome at every call. *)
Definition constantly {A} (r : exception + A) (w : unit)
  : (exception + A) * unit := (r, w).

Definition start {World} (w : World) : State World := mkState w [].

(** A comments backend that holds [pages]: the request for the page
    numbered [page], [page + 1], ... is answered with the corresponding
    list, and with a Link header naming the next page unless the list is
    the last one; the request for any other address is answered with an
    empty array. *)
Definition link_to_next (repo : string) (issue_number page : Z) : string :=
  "<" +:+ IssueDataFetcher.comments_url repo issue_number (page + 1) +:+ ">; "
  +:+ IssueDataFetcher.REL_NEXT.

Fixpoint serve_pages (repo : string) (issue_number : Z)
    (pages : list (list IssueDataFetcher.RawComment)) (page : Z) (url : string)
  : list IssueDataFetcher.RawComment * string :=
  match pages with
  | [] => ([], EmptyString)
  | items :: rest =>
      if String.eqb url (IssueDataFetcher.comments_url repo issue_number page)
      then (items,
            match rest with
            | [] => EmptyString
            | _ :: _ => link_to_next repo issue_number page
            end)
      else serve_pages repo issue_number rest (page + 1) url
  end.

Definition paged_backend (repo : string) (issue_number : Z)
    (pages : list (list IssueDataFetcher.RawComment))
    (req : IssueDataFetcher.Request) (w : unit)
  : (exception + (list IssueDataFetcher.RawComment * string)) * unit :=
  (inr (serve_pages repo issue_number pages 1 (IssueDataFetcher.req_url req)), w).

(** A world for downloads: paths are strings, the file system accepts
    everything, and the server refuses (403) the addresses in which the
    word [forbidden] occurs and sends three bytes for the others. *)
Definition sample_get_bytes (url : string) (w : unit)
  : (exception + list Byte.byte) * unit :=
  if Py.str_in "forbidden" url then (inl (HTTPError 403 "Forbidden" None), w)
  else (inr [Byte.x01; Byte.x02; Byte.x03], w).

Definition sample_mkdir (p : string) (w : unit) : (exception + unit) * unit :=
  (inr tt, w).

Definition sample_write (p : string) (data : list Byte.byte) (w : unit)
  : (exception + unit) * unit := (inr tt, w).

Definition sample_div (p name : string) : string := p +:+ "/" +:+ name.

(** The text after the last [/], and the text before it. *)
Definition sample_name (p : string) : string :=
  Py.str (rev (Py.take_until (Py.is_char "/") (rev (Py.chars p)))).

Definition sample_parent (p : string) : string :=
  Py.str (rev (Py.drop_until (Py.is_char "/") (rev (Py.chars p)))).

(** The extension of the name with its dot, empty when the name has no
    dot after its first character. *)
Definition sample_suffix (p : string) : string :=
  let name := rev (Py.chars (sample_name p)) in
  if existsb (Py.is_char ".") name then
    match Py.drop_until (Py.is_char ".") name with
    | [] => EmptyString
    | _ :: _ => Py.str ("."%char :: rev (Py.take_until (Py.is_char ".") name))
    end
  else EmptyString.

Definition sample_absolute (p : string) : string := "/work/" +:+ p.

Definition sample_attachment (url : string) : AttachmentExtractor.Attachment :=
  AttachmentExtractor.mkAttachment url
    (AttachmentExtractor._extract_filename url)
    (AttachmentExtractor._extract_file_type url) None "a".

(** Sample comments numbered [first], [first + 1], ... *)
Definition sample_comments (first : Z) (n : nat) : list IssueDataFetcher.RawComment :=
  map (fun i => IssueDataFetcher.mkRawComment i (Some "octocat")
                  "2024-01-01T00:00:00Z" "text" "<p>text</p>")
      (seqZ first (Z.of_nat n)).

(* ===================================================================== *)
(** * Notions used to state the properties                                *)
(* ===================================================================== *)

Import Retry.

(** The failures the decorator retries. *)
Definition transient (e : exception) : bool :=
  match e with
  | HTTPError code _ _ => transient_code code
  | URLError _ => true
  | _ => false
  end.

(** What is logged before a retry, and on giving up. *)
Definition retry_warning (e : exception) (attempt delay : Z) : string :=
  match e with
  | HTTPError code reason _ => warn_http code reason attempt delay
  | URLError reason => warn_net reason attempt delay
  | _ => EmptyString
  end.

Definition giveup_error (e : exception) : string :=
  match e with
  | HTTPError code _ _ => giveup_http code
  | _ => giveup_net
  end.

(** The world after [n] calls of [op]. *)
Fixpoint world_after {World A} (op : World -> (exception + A) * World)
    (n : nat) (w : World) : World :=
  match n with
  | O => w
  | S n' => world_after op n' (op w).2
  end.

(** A page ends the pagination when it is empty or when its Link header
    has no [rel="next"]. *)
Definition last_page (served : Z -> list IssueDataFetcher.RawComment * string)
    (page : Z) : bool :=
  match (served page).1 with
  | [] => true
  | _ :: _ => negb (Py.str_in IssueDataFetcher.REL_NEXT (served page).2)
  end.

Section DownloadPlan.
Context {World Path : Type}.
Variable http_get_bytes :
  string -> World -> (exception + list Byte.byte) * World.
Variable mkdir_parents : Path -> World -> (exception + unit) * World.
Variable write_file :
  Path -> list Byte.byte -> World -> (exception + unit) * World.
Variable path_div : Path -> string -> Path.
Variable path_name : Path -> string.
Variable path_suffix : Path -> string.
Variable path_parent : Path -> Path.
Variable path_absolute : Path -> string.
Variable format_1f : Z -> Z -> string.
Variable self_issue_number : Z.
Variable self_output_dir : Path.

(** One download to make: where the attachment was found, its address
    and its destination. *)
Record Planned : Type := mkPlanned {
  plan_source : string;
  plan_source_id : Z;
  plan_url : string;
  plan_path : Path
}.

Definition plan_issue (a : AttachmentExtractor.Attachment) : Planned :=
  mkPlanned "issue" self_issue_number (AttachmentExtractor.url a)
    (path_div (IssueDataFetcher.issue_attachments_dir path_div self_output_dir)
              (AttachmentExtractor.filename a)).

Definition plan_comment (c : IssueDataFetcher.Comment)
    (a : AttachmentExtractor.Attachment) : Planned :=
  mkPlanned "comment" (IssueDataFetcher.comment_id c) (AttachmentExtractor.url a)
    (path_div
       (path_div (IssueDataFetcher.comments_attachments_dir path_div self_output_dir)
                 (pretty (IssueDataFetcher.comment_id c)))
       (AttachmentExtractor.filename a)).

(** The discovered attachments in discovery order: those of the issue
    body, then those of each comment in turn. *)
Definition discovered (issue_attachments : list AttachmentExtractor.Attachment)
    (comments : list IssueDataFetcher.Comment) : list Planned :=
  map plan_issue issue_attachments
  ++ flat_map (fun c => map (plan_comment c) (IssueDataFetcher._attachments c))
       comments.

(** Every planned download attempted, one after the other. *)
Fixpoint download_in_turn (plan : list Planned)
  : M World (list IssueDataFetcher.Metadata) :=
  match plan with
  | [] => ret []
  | d :: rest =>
      m <- IssueDataFetcher.download_attachment http_get_bytes mkdir_parents
             write_file path_name path_suffix path_parent path_absolute
             format_1f (plan_url d) (plan_path d) ;;
      ms <- download_in_turn rest ;;
      ret (IssueDataFetcher.mkMetadata (plan_source d) (plan_source_id d) m :: ms)
  end.

(** The record of [d]'s download names [d]. *)
Definition record_of (d : Planned) (m : IssueDataFetcher.Metadata) : Prop :=
  IssueDataFetcher.source m = plan_source d
  /\ IssueDataFetcher.source_id m = plan_source_id d
  /\ IssueDataFetcher.source_url (IssueDataFetcher.metadata m)
     = IssueDataFetcher.strip_query (plan_url d)
  /\ IssueDataFetcher.filename (IssueDataFetcher.metadata m)
     = path_name (plan_path d)
  /\ IssueDataFetcher.file_location (IssueDataFetcher.metadata m)
     = path_absolute (plan_path d).

(** A record of a failed download has zero and placeholder sizes and
    an error text. *)
Definition failure_filled (r : IssueDataFetcher.DownloadRecord) : Prop :=
  IssueDataFetcher.success r = false ->
  IssueDataFetcher.file_size_bytes r = 0
  /\ IssueDataFetcher.file_size r = "0 B"
  /\ IssueDataFetcher.file_type r = "unknown"
  /\ exists msg, IssueDataFetcher.error r = Some msg /\ msg <> EmptyString.

(** The bookkeeping of [download_attachments] over a list of records. *)
Definition count_all (ms : list IssueDataFetcher.Metadata)
    (c : IssueDataFetcher.Counters) : IssueDataFetcher.Counters :=
  foldl (fun c m => IssueDataFetcher.count_download (IssueDataFetcher.source m)
                      (IssueDataFetcher.source_id m)
                      (IssueDataFetcher.metadata m) c) c ms.
End DownloadPlan.

(** [c in s] for one character. *)
Definition has_char (c : ascii) (s : list ascii) : bool :=
  existsb (Py.is_char c) s.

(** Patterns that cannot step over a question mark. *)
Fixpoint avoids_query (r : Re.regex) : bool :=
  match r with
  | Re.Lit c => negb (Py.is_char c "?")
  | Re.Plus cls => negb (cls "?"%char)
  | Re.Eos => true
  | Re.Alt r1 r2 | Re.Seq r1 r2 => avoids_query r1 && avoids_query r2
  | Re.Group r1 => avoids_query r1
  end.

(** The shape shared by the two file name patterns:
    [/(body)(?:\?|$)]. *)
Definition segment_pattern (body : Re.regex) : Re.regex :=
  Re.Seq (Re.Lit "/") (Re.Seq (Re.Group body) (Re.Alt (Re.Lit "?") Re.Eos)).

(** The dimensions dict for a parsed width and a parsed height, [None]
    where the attribute is missing, empty or not an integer. *)
Definition dims_of (w h : option Z) : option (gmap string Z) :=
  match w, h with
  | None, None => None
  | Some w, None => Some (<["width" := w]> ∅)
  | None, Some h => Some (<["height" := h]> ∅)
  | Some w, Some h => Some (<["height" := h]> (<["width" := w]> ∅))
  end.


(* ===================================================================== *)
(** * Further notions used to state properties                            *)
(* ===================================================================== *)

(** The address for which a start tag yields an attachment, if any: the
    src of an img tag or the href of an a tag, when it passes
    [_is_attachment_url]. *)
Definition qualifying_url (ev : string * AttachmentExtractor.attr_list)
  : option string :=
  let attrs_dict := AttachmentExtractor.dict ev.2 in
  let addressed (k : string) :=
    match attrs_dict !! k with
    | Some (Some u) =>
        if AttachmentExtractor._is_attachment_url u then Some u else None
    | _ => None
    end in
  if String.eqb ev.1 "img" then addressed "src"
  else if String.eqb ev.1 "a" then addressed "href"
  else None.

(** Every character, by code point. *)
Definition all_ascii : list ascii := map ascii_of_nat (seq 0 256).

(** Patterns whose every consumed character satisfies [P]. *)
Fixpoint consumes_only (P : ascii -> bool) (r : Re.regex) : bool :=
  match r with
  | Re.Lit c => P c
  | Re.Plus cls => forallb (fun c => implb (cls c) (P c)) all_ascii
  | Re.Eos => true
  | Re.Alt r1 r2 | Re.Seq r1 r2 => consumes_only P r1 && consumes_only P r2
  | Re.Group r1 => consumes_only P r1
  end.

(** Patterns without a capturing group. *)
Fixpoint group_free (r : Re.regex) : bool :=
  match r with
  | Re.Lit _ | Re.Plus _ | Re.Eos => true
  | Re.Alt r1 r2 | Re.Seq r1 r2 => group_free r1 && group_free r2
  | Re.Group _ => false
  end.

(** Patterns that consume at least one character in every match. *)
Fixpoint never_empty (r : Re.regex) : bool :=
  match r with
  | Re.Lit _ | Re.Plus _ => true
  | Re.Eos => false
  | Re.Alt r1 r2 => never_empty r1 && never_empty r2
  | Re.Seq r1 r2 => never_empty r1 || never_empty r2
  | Re.Group r1 => never_empty r1
  end.

(* ===================================================================== *)
(** * More Python built-ins                                               *)
(* ===================================================================== *)

Module PyText.
Import Py.

(** [ch.isspace()] on code points below 256. *)
Definition isspace (c : ascii) : bool :=
  in_range 9 13 c || in_range 28 32 c || (ord c =? 133) || (ord c =? 160).

Fixpoint lstrip_ws (l : list ascii) : list ascii :=
  match l with
  | c :: l' => if isspace c then lstrip_ws l' else l
  | [] => []
  end.

(** [s.strip()] *)
Definition strip (s : string) : string :=
  str (rev (lstrip_ws (rev (lstrip_ws (chars s))))).

(** [len(s)] *)
Definition len (s : string) : Z := Z.of_nat (String.length s).

(** [s.split(sep)] for a one-character separator: the pieces between
    the separators, empty pieces included. *)
Fixpoint split_chars (sep : ascii) (l : list ascii) : list (list ascii) :=
  match l with
  | [] => [[]]
  | c :: l' =>
      if is_char sep c then [] :: split_chars sep l'
      else match split_chars sep l' with
           | piece :: pieces => (c :: piece) :: pieces
           | [] => [[c]]
           end
  end.

Definition split (sep : ascii) (s : string) : list string :=
  map str (split_chars sep (chars s)).

(** [sep.join(l)] *)
Fixpoint join (sep : string) (l : list string) : string :=
  match l with
  | [] => EmptyString
  | [x] => x
  | x :: rest => x +:+ sep +:+ join sep rest
  end.

(** [s.replace(old, new)] for a non-empty [old]: the occurrences are
    found from left to right and do not overlap.  [skip] counts the
    characters of an occurrence still to pass over. *)
Fixpoint replace_go (old new : string) (skip : nat) (s : string) : string :=
  match s with
  | EmptyString => EmptyString
  | String c rest =>
      match skip with
      | S n => replace_go old new n rest
      | O =>
          if String.prefix old s
          then new +:+ replace_go old new (String.length old - 1) rest
          else String c (replace_go old new 0 rest)
      end
  end.

Definition replace (old new s : string) : string := replace_go old new 0 s.

(** [(k1, v1) <= (k2, v2)] on tuples of a string and an integer. *)
Definition item_le (x y : string * Z) : bool :=
  match String.compare x.1 y.1 with
  | Lt => true
  | Eq => x.2 <=? y.2
  | Gt => false
  end.

Fixpoint insert_item (x : string * Z) (l : list (string * Z)) : list (string * Z) :=
  match l with
  | [] => [x]
  | y :: l' => if item_le x y then x :: l else y :: insert_item x l'
  end.

(** [sorted(d.items())] for a dict from strings to integers. *)
Definition sorted_items (d : gmap string Z) : list (string * Z) :=
  foldr insert_item [] (map_to_list d).

End PyText.

(* ===================================================================== *)
(** * The issue data fetcher: validation, report and orchestration        *)
(* ===================================================================== *)

Module Pipeline.
Import Py PyText.

(** What [d.get(key)] can find for a key of a decoded JSON object: no
    such key, JSON null, or a value. *)
Inductive field (A : Type) : Type :=
| Missing
| Null
| Value (a : A).
Arguments Missing {A}.
Arguments Null {A}.
Arguments Value {A} a.

(** The issue object of the API as far as the script reads it.  [user]
    holds the [login] field of the user object; a label is given by its
    [name] field ([None] when the label has none); [labels] is empty
    when the key is absent. *)
Record IssueJson : Type := mkIssueJson {
  title : field string;
  state : field string;
  created_at : field string;
  updated_at : field string;
  user : field (field string);
  labels : list (option string);
  body : field string;
  body_html : field string
}.

(** The dict [issue_data] as the script extends it: the keys
    [_attachments], [_comments] and [_download_metadata] are [None]
    until they are set. *)
Record IssueData : Type := mkIssueData {
  json : IssueJson;
  _attachments : option (list AttachmentExtractor.Attachment);
  _comments : option (list IssueDataFetcher.Comment);
  _download_metadata : option (list IssueDataFetcher.Metadata)
}.

(** [f"{d.get(key, default)}"]: null prints as [None]. *)
Definition fstr_get (f : field string) (default : string) : string :=
  match f with
  | Missing => default
  | Null => "None"
  | Value s => s
  end.

(** The attributes of [self]. *)
Record Self (Path : Type) : Type := mkSelf {
  repo : string;
  issue_number : Z;
  output_dir : Path;
  github_token : string;
  owner : string;
  repo_name : string
}.
Arguments mkSelf {Path}.
Arguments repo {Path}.
Arguments issue_number {Path}.
Arguments output_dir {Path}.
Arguments github_token {Path}.
Arguments owner {Path}.
Arguments repo_name {Path}.

(** [format_dimensions]: an empty dict counts as no dimensions. *)
Definition format_dimensions (dimensions : option (gmap string Z)) : string :=
  match dimensions with
  | None => "N/A"
  | Some d =>
      if decide (d = ∅) then "N/A"
      else
        let width := match d !! "width" with Some w => pretty w | None => "?" end in
        let height := match d !! "height" with Some h => pretty h | None => "?" end in
        width +:+ "x" +:+ height
  end.

(** Truthiness of [att.get('dimensions')]. *)
Definition has_dimensions (dimensions : option (gmap string Z)) : bool :=
  match dimensions with
  | None => false
  | Some d => if decide (d = ∅) then false else true
  end.

(** The loop [for att in ...] that finds the dimensions shown for the
    file [filename], with its local variable [dimensions]. *)
Fixpoint lookup_dimensions (filename : string)
    (atts : list AttachmentExtractor.Attachment) (dimensions : string) : string :=
  match atts with
  | [] => dimensions
  | att :: rest =>
      if String.eqb (AttachmentExtractor.filename att) filename then
        let att_dims := AttachmentExtractor.dimensions att in
        if has_dimensions att_dims then format_dimensions att_dims
        else if String.eqb dimensions "N/A"
             then lookup_dimensions filename rest (format_dimensions att_dims)
        else lookup_dimensions filename rest dimensions
      else lookup_dimensions filename rest dimensions
  end.

(** [file_types[t] = file_types.get(t, 0) + 1] over the successful
    downloads. *)
Definition count_file_types (download_metadata : list IssueDataFetcher.Metadata)
  : gmap string Z :=
  foldl (fun file_types meta =>
           let m := IssueDataFetcher.metadata meta in
           if IssueDataFetcher.success m then
             <[IssueDataFetcher.file_type m :=
                 default 0 (file_types !! IssueDataFetcher.file_type m) + 1]> file_types
           else file_types)
        ∅ download_metadata.

Definition successful (download_metadata : list IssueDataFetcher.Metadata)
  : list IssueDataFetcher.Metadata :=
  List.filter (fun m => IssueDataFetcher.success (IssueDataFetcher.metadata m))
    download_metadata.

Definition unsuccessful (download_metadata : list IssueDataFetcher.Metadata)
  : list IssueDataFetcher.Metadata :=
  List.filter (fun m => negb (IssueDataFetcher.success (IssueDataFetcher.metadata m)))
    download_metadata.

(** [sum(meta.get('file_size_bytes', 0) for meta in download_metadata
    if meta.get('success', False))] *)
Definition successful_bytes (download_metadata : list IssueDataFetcher.Metadata) : Z :=
  foldr Z.add 0
    (map (fun m => IssueDataFetcher.file_size_bytes (IssueDataFetcher.metadata m))
         (successful download_metadata)).

Section Methods.
Context {World Path : Type}.

(** ** The outside world, as in [IssueDataFetcher] *)
Variable http_get_issue :
  IssueDataFetcher.Request -> World -> (exception + IssueJson) * World.
Variable http_get_comments :
  IssueDataFetcher.Request -> World
  -> (exception + (list IssueDataFetcher.RawComment * string)) * World.
Variable http_get_bytes :
  string -> World -> (exception + list Byte.byte) * World.
Variable mkdir_parents : Path -> World -> (exception + unit) * World.
(** [path.mkdir(exist_ok=True)] *)
Variable mkdir : Path -> World -> (exception + unit) * World.
Variable write_file :
  Path -> list Byte.byte -> World -> (exception + unit) * World.
(** [open(path, 'w', encoding='utf-8')] and [f.write(text)] *)
Variable write_text : Path -> string -> World -> (exception + unit) * World.
(** [open(path, 'w', encoding='utf-8')] and
    [json.dump(issue_data, f, indent=2, ensure_ascii=False)] *)
Variable dump_json : Path -> IssueData -> World -> (exception + unit) * World.
Variable path_div : Path -> string -> Path.
Variable path_name : Path -> string.
Variable path_suffix : Path -> string.
Variable path_parent : Path -> Path.
Variable path_absolute : Path -> string.
(** [Path(s)] *)
Variable path_of : string -> Path.
Variable format_1f : Z -> Z -> string.
Variable start_tags :
  string -> option (list (string * AttachmentExtractor.attr_list)).
(** [datetime.fromisoformat(s).strftime("%B %d, %Y at %I:%M %p UTC")],
    [None] when it raises. *)
Variable strftime_iso : string -> option string.

(** ** [__init__] and [validate_inputs] *)

Definition init (repo : string) (issue_number : Z) (output_dir : string)
    (github_token : string) : exception + Self Path :=
  match split "/" repo with
  | [owner; repo_name] =>
      inr (mkSelf repo issue_number (path_of output_dir) (strip github_token)
             owner repo_name)
  | _ =>
      inl (ValueError ("Invalid repository format: " +:+ repo
                         +:+ ". Expected OWNER/REPO"))
  end.

Definition validate_inputs (self : Self Path) : exception + unit :=
  if negb (truthy (owner self)) || negb (truthy (repo_name self)) then
    inl (ValueError ("Invalid repository format: " +:+ repo self))
  else if issue_number self <=? 0 then
    inl (ValueError ("Issue number must be positive: "
                       +:+ pretty (issue_number self)))
  else if negb (truthy (github_token self))
          || (len (strip (github_token self)) <? 10) then
    inl (ValueError "GitHub token is required and must be valid")
  else inr tt.

(** ** [create_output_directories] *)

Definition create_output_directories (self : Self Path) : M World unit :=
  perform (mkdir_parents (output_dir self)) ;;
  perform (mkdir (IssueDataFetcher.attachments_dir path_div (output_dir self))) ;;
  perform (mkdir (IssueDataFetcher.issue_attachments_dir path_div (output_dir self))) ;;
  perform (mkdir (IssueDataFetcher.comments_attachments_dir path_div (output_dir self))).

(** ** [fetch_issue_data]

    Of the logging only what can raise is kept:
    [issue_data.get('user', {}).get('login', 'N/A')] raises
    AttributeError when [user] is null. *)
Definition fetch_issue_data (self : Self Path) : M World IssueData :=
  r <- try_
         (issue_data <- IssueDataFetcher.fetch_issue_html http_get_issue
                          (repo self) (issue_number self) (github_token self) ;;
          match user issue_data with
          | Null =>
              raise (OtherException "AttributeError"
                       "'NoneType' object has no attribute 'get'")
          | _ => ret tt
          end ;;
          match body_html issue_data with
          | Missing => ret (mkIssueData issue_data None None None)
          | Null => ret (mkIssueData issue_data (Some []) None None)
          | Value html =>
              ret (mkIssueData issue_data
                     (Some (AttachmentExtractor.extract_attachments_from_html
                              start_tags html))
                     None None)
          end) ;;
  match r with
  | inr issue_data => ret issue_data
  | inl (RuntimeError _ _ as e) => raise e
  | inl e =>
      raise (RuntimeError ("Failed to fetch issue data: " +:+ exception_str e)
               (Some e))
  end.

(** ** [format_datetime] and [generate_manifest] *)

(** [format_datetime(s)] for a string. *)
Definition format_datetime (iso_timestamp : string) : string :=
  match strftime_iso (replace "Z" "+00:00" iso_timestamp) with
  | Some text => text
  | None => iso_timestamp
  end.

(** [f"{self.format_datetime(d.get(key, ''))}"]: for null the call
    raises inside its try block and returns its argument, [None]. *)
Definition format_datetime_get (f : field string) : string :=
  match f with
  | Missing => format_datetime EmptyString
  | Null => "None"
  | Value s => format_datetime s
  end.

Definition manifest_author (issue_data : IssueData) : string :=
  match user (json issue_data) with
  | Value login => fstr_get login "N/A"
  | _ => "N/A"
  end.

Definition header_lines (self : Self Path) (issue_data : IssueData) : list string :=
  [ "# Issue #" +:+ pretty (issue_number self) +:+ ": "
      +:+ fstr_get (title (json issue_data)) "N/A";
    EmptyString;
    "## Issue Metadata";
    EmptyString;
    "- **Repository:** " +:+ repo self;
    "- **Issue Number:** #" +:+ pretty (issue_number self);
    "- **State:** " +:+ fstr_get (state (json issue_data)) "N/A";
    "- **Created:** " +:+ format_datetime_get (created_at (json issue_data));
    "- **Updated:** " +:+ format_datetime_get (updated_at (json issue_data));
    "- **Author:** @" +:+ manifest_author issue_data;
    match labels (json issue_data) with
    | [] => "- **Labels:** None"
    | ls => "- **Labels:** " +:+ join ", " (map (default EmptyString) ls)
    end;
    EmptyString ].

Definition body_lines (issue_data : IssueData) : list string :=
  [ "## Issue Body";
    EmptyString;
    match body (json issue_data) with
    | Value b => if truthy b then b else "*No description provided*"
    | _ => "*No description provided*"
    end;
    EmptyString ].

Definition issue_row (issue_data : IssueData) (author : string)
    (meta : IssueDataFetcher.Metadata) : string :=
  let m := IssueDataFetcher.metadata meta in
  let filename := IssueDataFetcher.filename m in
  let dimensions :=
    lookup_dimensions filename (default [] (_attachments issue_data)) "N/A" in
  "| " +:+ filename +:+ " | " +:+ IssueDataFetcher.file_type m
  +:+ " | " +:+ IssueDataFetcher.file_size m +:+ " | " +:+ dimensions
  +:+ " | @" +:+ author +:+ " | `" +:+ IssueDataFetcher.file_location m +:+ "` |".

Definition issue_attachment_lines (issue_data : IssueData) : list string :=
  let download_metadata := default [] (_download_metadata issue_data) in
  let issue_attachments :=
    List.filter (fun meta => String.eqb (IssueDataFetcher.source meta) "issue")
      download_metadata in
  match issue_attachments with
  | [] => []
  | _ :: _ =>
      [ "## Issue Attachments";
        EmptyString;
        "| File | Type | Size | Dimensions | Uploaded By | Location |";
        "|------|------|------|------------|-------------|----------|" ]
      ++ map (issue_row issue_data (manifest_author issue_data)) issue_attachments
      ++ [EmptyString]
  end.

Definition comment_row (comment : IssueDataFetcher.Comment)
    (meta : IssueDataFetcher.Metadata) : string :=
  let m := IssueDataFetcher.metadata meta in
  let filename := IssueDataFetcher.filename m in
  let dimensions :=
    lookup_dimensions filename (IssueDataFetcher._attachments comment) "N/A" in
  "| " +:+ filename +:+ " | " +:+ IssueDataFetcher.file_type m
  +:+ " | " +:+ IssueDataFetcher.file_size m +:+ " | " +:+ dimensions
  +:+ " | `" +:+ IssueDataFetcher.file_location m +:+ "` |".

Definition comment_lines (download_metadata : list IssueDataFetcher.Metadata)
    (idx : Z) (comment : IssueDataFetcher.Comment) : list string :=
  let comment_id := IssueDataFetcher.comment_id comment in
  let comment_body := IssueDataFetcher.body comment in
  let comment_attachments :=
    List.filter (fun meta => String.eqb (IssueDataFetcher.source meta) "comment"
                             && (IssueDataFetcher.source_id meta =? comment_id))
      download_metadata in
  [ "### Comment #" +:+ pretty idx;
    EmptyString;
    "- **Author:** @" +:+ IssueDataFetcher.author comment;
    "- **Posted:** " +:+ format_datetime (IssueDataFetcher.created_at comment);
    "- **Comment ID:** " +:+ pretty comment_id;
    EmptyString;
    "**Content:**";
    EmptyString;
    (if truthy comment_body then comment_body else "*No content*");
    EmptyString ]
  ++ match comment_attachments with
     | [] => []
     | _ :: _ =>
         [ "**Attachments:**";
           EmptyString;
           "| File | Type | Size | Dimensions | Location |";
           "|------|------|------|------------|----------|" ]
         ++ map (comment_row comment) comment_attachments
         ++ [EmptyString]
     end
  ++ [ "---"; EmptyString ].

(** [for idx, comment in enumerate(comments, 1)] *)
Fixpoint comments_from (download_metadata : list IssueDataFetcher.Metadata)
    (idx : Z) (comments : list IssueDataFetcher.Comment) : list string :=
  match comments with
  | [] => []
  | comment :: rest =>
      comment_lines download_metadata idx comment
      ++ comments_from download_metadata (idx + 1) rest
  end.

Definition comments_section (issue_data : IssueData) : list string :=
  let download_metadata := default [] (_download_metadata issue_data) in
  match default [] (_comments issue_data) with
  | [] => []
  | comments =>
      [ "## Comments (" +:+ pretty (Z.of_nat (length comments)) +:+ ")";
        EmptyString ]
      ++ comments_from download_metadata 1 comments
  end.

Definition summary_lines (issue_data : IssueData) : list string :=
  let download_metadata := default [] (_download_metadata issue_data) in
  let comments := default [] (_comments issue_data) in
  let total_attachments := Z.of_nat (length download_metadata) in
  let successful_downloads := Z.of_nat (length (successful download_metadata)) in
  let failed_downloads := Z.of_nat (length (unsuccessful download_metadata)) in
  let file_types := count_file_types download_metadata in
  let total_size_bytes := successful_bytes download_metadata in
  let total_size_human :=
    IssueDataFetcher.format_file_size format_1f total_size_bytes in
  [ "## Summary";
    EmptyString;
    "- **Total Comments:** " +:+ pretty (Z.of_nat (length comments));
    "- **Total Attachments:** " +:+ pretty total_attachments;
    "- **Successfully Downloaded:** " +:+ pretty successful_downloads ]
  ++ (if failed_downloads >? 0
      then ["- **Failed Downloads:** " +:+ pretty failed_downloads] else [])
  ++ (if decide (file_types = ∅) then []
      else [ "- **File Types:** "
               +:+ join ", " (map (fun item => pretty item.2 +:+ " " +:+ item.1)
                                  (sorted_items file_types)) ])
  ++ [ "- **Total Size:** " +:+ total_size_human;
       EmptyString ].

Definition footer_lines (issue_data : IssueData) : list string :=
  [ "---";
    EmptyString;
    "*Generated by fetch-issue-complete.py on "
      +:+ format_datetime_get (updated_at (json issue_data)) +:+ "*" ].

(** [generate_manifest]: the lines appended one section after the
    other, joined by newlines. *)
Definition manifest_lines (self : Self Path) (issue_data : IssueData) : list string :=
  header_lines self issue_data
  ++ body_lines issue_data
  ++ issue_attachment_lines issue_data
  ++ comments_section issue_data
  ++ summary_lines issue_data
  ++ footer_lines issue_data.

Definition generate_manifest (self : Self Path) (issue_data : IssueData) : string :=
  join (String "010" EmptyString) (manifest_lines self issue_data).

(** ** [save_manifest], [save_issue_data] *)

Definition save_manifest (self : Self Path) (issue_data : IssueData) : M World unit :=
  perform (write_text (path_div (output_dir self) "manifest.md")
             (generate_manifest self issue_data)).

Definition save_issue_data (self : Self Path) (issue_data : IssueData) : M World unit :=
  perform (dump_json (path_div (output_dir self) "issue.json") issue_data).

(** ** [run] and [main] *)

Definition no_downloads : IssueDataFetcher.DownloadStats :=
  IssueDataFetcher.mkDownloadStats 0 0 0 "0 B" 0.

(** The steps of [run] after the comments are fetched. *)
Definition after_comments (self : Self Path) (issue_data : IssueData)
    (comments : list IssueDataFetcher.Comment) : M World unit :=
  let issue_data :=
    match comments with
    | [] => issue_data
    | _ :: _ => mkIssueData (json issue_data) (_attachments issue_data)
                  (Some comments) (_download_metadata issue_data)
    end in
  let issue_attachments :=
    Z.of_nat (length (default [] (_attachments issue_data))) in
  let comment_attachments :=
    foldr Z.add 0
      (map (fun c => Z.of_nat (length (IssueDataFetcher._attachments c))) comments) in
  let total_attachments := issue_attachments + comment_attachments in
  issue_data <-
    (if total_attachments >? 0 then
       r <- IssueDataFetcher.download_attachments http_get_bytes mkdir_parents
              write_file path_div path_name path_suffix path_parent path_absolute
              format_1f (issue_number self) (output_dir self)
              (default [] (_attachments issue_data))
              (default [] (_comments issue_data)) ;;
       ret (mkIssueData (json issue_data) (_attachments issue_data)
              (_comments issue_data) (Some r.2))
     else ret issue_data) ;;
  save_issue_data self issue_data ;;
  save_manifest self issue_data.

(** [run]; [fuel] bounds the iterations of the comment loop, and [None]
    means that the bound was reached. *)
Definition run (fuel : nat) (self : Self Path) (s : State World)
  : option ((exception + unit) * State World) :=
  match validate_inputs self with
  | inl e => Some (inl e, s)
  | inr _ =>
      match (create_output_directories self ;; fetch_issue_data self) s with
      | (inl e, s1) => Some (inl e, s1)
      | (inr issue_data, s1) =>
          match IssueDataFetcher.fetch_comments_html http_get_comments start_tags
                  fuel (repo self) (issue_number self) (github_token self) s1 with
          | None => None
          | Some (inl e, s2) => Some (inl e, s2)
          | Some (inr comments, s2) =>
              Some (after_comments self issue_data comments s2)
          end
      end
  end.

(** [isinstance(e, ValueError)] *)
Definition isinstance_ValueError (e : exception) : bool :=
  match e with JSONDecodeError _ | ValueError _ => true | _ => false end.

(** [isinstance(e, OSError)] *)
Definition isinstance_OSError (e : exception) : bool :=
  match e with
  | HTTPError _ _ _ | URLError _ | TimeoutError _ | OSError _ => true
  | _ => false
  end.

(** The except clauses of [main]: ValueError, OSError, Exception. *)
Definition exit_code (e : exception) : Z :=
  if isinstance_ValueError e then 1
  else if isinstance_OSError e then 3
  else 1.

(** The parsed command line. *)
Record Args : Type := mkArgs {
  args_repo : string;
  args_issue : Z;
  args_output_dir : string;
  args_github_token : string
}.

(** [main], from the parsed arguments on: the exit code. *)
Definition main (fuel : nat) (args : Args) (s : State World)
  : option (Z * State World) :=
  match init (args_repo args) (args_issue args) (args_output_dir args)
          (args_github_token args) with
  | inl e => Some (exit_code e, s)
  | inr fetcher =>
      match run fuel fetcher s with
      | None => None
      | Some (inl e, s') => Some (exit_code e, s')
      | Some (inr _, s') => Some (0, s')
      end
  end.

End Methods.

End Pipeline.

(* ===================================================================== *)
(** * The statistics collector: gh commands and the open issues           *)
(* ===================================================================== *)

Module StatsCollector.
Import Py PyText.

(** What [run_gh_command] does to the outside, in order: a call of
    [subprocess.run] (whatever comes of it), a line printed to stderr,
    a sleep that was slept. *)
Inductive gh_event : Type :=
| Ran (command : string)
| Printed (text : string)
| Slept (seconds : Z).

Definition runs (log : list gh_event) : nat :=
  length (omap (fun ev => match ev with Ran _ => Some tt | _ => None end) log).

Definition waits (log : list gh_event) : list Z :=
  omap (fun ev => match ev with Slept d => Some d | _ => None end) log.

(** [result = subprocess.run(command, shell=True, capture_output=True,
    text=True, env=os.environ)] *)
Record CompletedProcess : Type := mkCompletedProcess {
  returncode : Z;
  stdout : string;
  stderr : string
}.

Section GhCommand.
Context {World J : Type}.
(** [subprocess.run(...)]: the completed process, or the exception
    raised instead (ValueError for a command that holds a null byte,
    UnicodeDecodeError for output that is not text, OSError when the
    shell cannot be started). *)
Variable subprocess_run :
  string -> World -> (exception + CompletedProcess) * World.
(** [json.loads(text)]: the decoded value, Python's [None] for JSON
    null, or the exception raised. *)
Variable json_loads : string -> exception + option J.
(** [time.sleep(seconds)]: the exception with which a length is
    refused (ValueError for a negative one, OverflowError for one too
    large for the platform), [None] when the sleep is slept. *)
Variable sleep_refuses : Z -> option exception.
(** [str(n)] inside an f-string: the exception with which an integer is
    refused (ValueError for one with more digits than the limit of the
    interpreter on conversions, 4300 by default since Python 3.11),
    [None] when it is converted. *)
Variable str_refuses : Z -> option exception.

(** The first refusal among the integers of an f-string, in the order
    in which they are converted. *)
Fixpoint first_refusal (numbers : list Z) : option exception :=
  match numbers with
  | [] => None
  | n :: rest =>
      match str_refuses n with
      | Some e => Some e
      | None => first_refusal rest
      end
  end.

(** [try: return json.loads(result.stdout)
     except json.JSONDecodeError: return None] *)
Definition decoded (text : string) : exception + option J :=
  match json_loads text with
  | inr value => inr value
  | inl (JSONDecodeError _) => inr None
  | inl e => inl e
  end.

(** The loop [for attempt in range(1, max_attempts + 1)]. *)
Fixpoint run_gh_loop (command : string) (max_attempts backoff_base : Z)
    (attempts : list Z) (w : World) (log : list gh_event)
  : (exception + option J) * World * list gh_event :=
  match attempts with
  | [] => (inr None, w, log)
  | attempt :: rest =>
      let log := log ++ [Ran command] in
      match subprocess_run command w with
      | (inl e, w') => (inl e, w', log)
      | (inr result, w') =>
          if returncode result =? 0 then (decoded (stdout result), w', log)
          else if attempt =? max_attempts then
            (inr None, w',
             log ++ [Printed ("Error running: " +:+ command);
                     Printed ("Error: " +:+ stderr result)])
          else
            let wait_time := backoff_base ^ attempt in
            match first_refusal [attempt; max_attempts; returncode result;
                                 wait_time] with
            | Some e => (inl e, w', log)
            | None =>
                let log :=
                  log ++ [Printed ("Attempt " +:+ pretty attempt +:+ "/"
                                     +:+ pretty max_attempts
                                     +:+ " failed (exit "
                                     +:+ pretty (returncode result)
                                     +:+ "), retrying in "
                                     +:+ pretty wait_time +:+ "s...")] in
                match sleep_refuses wait_time with
                | Some e => (inl e, w', log)
                | None =>
                    run_gh_loop command max_attempts backoff_base rest w'
                      (log ++ [Slept wait_time])
                end
            end
      end
  end.

Definition run_gh_command (command : string) (max_attempts backoff_base : Z)
    (w : World) : (exception + option J) * World * list gh_event :=
  run_gh_loop command max_attempts backoff_base (seqZ 1 max_attempts) w [].

End GhCommand.

(** An open issue as the script reads it; [labels] is
    [issue.get('labels', [])]. *)
Record OpenIssue : Type := mkOpenIssue {
  number : Z;
  title : string;
  html_url : string;
  created_at : string;
  labels : list Stats.Label
}.

(** An entry of [stats["issues"]["open"]]. *)
Record OpenEntry : Type := mkOpenEntry {
  entry_number : Z;
  entry_title : string;
  entry_url : string;
  entry_created_at : string;
  entry_age_days : Z;
  entry_priority : string;
  entry_labels : list string
}.

(** The part of [stats] that the loop over the open issues updates. *)
Record OpenStats : Type := mkOpenStats {
  by_priority : gmap string Z;
  by_age : gmap string Z;
  by_area : gmap string Z;
  with_bug_label : Z;
  with_enhancement_label : Z;
  issues_open : list OpenEntry
}.

Definition initial_stats : OpenStats :=
  {| by_priority :=
       <["unprioritized" := 0]> (<["low" := 0]> (<["medium" := 0]>
         (<["high" := 0]> (<["critical" := 0]> ∅))));
     by_age :=
       <["ancient" := 0]> (<["stale" := 0]> (<["active" := 0]>
         (<["recent" := 0]> (<["new" := 0]> ∅))));
     by_area := ∅;
     with_bug_label := 0;
     with_enhancement_label := 0;
     issues_open := [] |}.

(** [d[k] += 1]: KeyError ([None]) when [k] is not a key. *)
Definition increment (k : string) (d : gmap string Z) : option (gmap string Z) :=
  match d !! k with
  | Some n => Some (<[k := n + 1]> d)
  | None => None
  end.

(** The if/elif chain on [age_days]. *)
Definition age_bucket (age_days : Z) : string :=
  if age_days <? 1 then "new"
  else if age_days <=? 7 then "recent"
  else if age_days <=? 30 then "active"
  else if age_days <=? 90 then "stale"
  else "ancient".

(** The second loop over the labels of an issue: areas and types. *)
Fixpoint count_labels (labels : list Stats.Label) (st : OpenStats) : OpenStats :=
  match labels with
  | [] => st
  | label :: rest =>
      let label_name := lower (Stats.name label) in
      let st1 :=
        if String.prefix "area:" label_name then
          let area := strip (replace "area:" EmptyString label_name) in
          mkOpenStats (by_priority st) (by_age st)
            (<[area := default 0 (by_area st !! area) + 1]> (by_area st))
            (with_bug_label st) (with_enhancement_label st) (issues_open st)
        else st in
      let st2 :=
        if String.eqb label_name "bug" then
          mkOpenStats (by_priority st1) (by_age st1) (by_area st1)
            (with_bug_label st1 + 1) (with_enhancement_label st1) (issues_open st1)
        else st1 in
      let st3 :=
        if String.eqb label_name "enhancement" then
          mkOpenStats (by_priority st2) (by_age st2) (by_area st2)
            (with_bug_label st2) (with_enhancement_label st2 + 1) (issues_open st2)
        else st2 in
      count_labels rest st3
  end.

Section OpenIssues.
(** [(now - created).days] for the [created_at] text of an issue (a
    text that [datetime.fromisoformat] refuses raises ValueError and
    ends the script; such texts are not represented). *)
Variable age_days_of : string -> Z.

(** The body of [for issue in open_issues]; [None] stands for the
    KeyError of a missing counter. *)
Definition process_issue (st : OpenStats) (issue : OpenIssue) : option OpenStats :=
  let age_days := age_days_of (created_at issue) in
  let priority := Stats.issue_priority (labels issue) in
  match increment priority (by_priority st) with
  | None => None
  | Some by_priority' =>
      match increment (age_bucket age_days) (by_age st) with
      | None => None
      | Some by_age' =>
          let st1 := count_labels (labels issue)
                       (mkOpenStats by_priority' by_age' (by_area st)
                          (with_bug_label st) (with_enhancement_label st)
                          (issues_open st)) in
          Some (mkOpenStats (by_priority st1) (by_age st1) (by_area st1)
                  (with_bug_label st1) (with_enhancement_label st1)
                  (issues_open st1
                     ++ [ mkOpenEntry (number issue) (title issue) (html_url issue)
                            (created_at issue) age_days priority
                            (map Stats.name (labels issue)) ]))
      end
  end.

Fixpoint process_open_issues (st : OpenStats) (open_issues : list OpenIssue)
  : option OpenStats :=
  match open_issues with
  | [] => Some st
  | issue :: rest =>
      match process_issue st issue with
      | Some st' => process_open_issues st' rest
      | None => None
      end
  end.

End OpenIssues.

End StatsCollector.

(* ===================================================================== *)
(** * The batch fetcher: one run of the issue fetcher per listed issue    *)
(* ===================================================================== *)

Module Matching.
Import Py PyText.

(** An issue of [gh issue list --json number,title,state,labels,
    createdAt,updatedAt]; [labels] holds the names of the labels. *)
Record ListedIssue : Type := mkListedIssue {
  number : Z;
  title : string;
  state : string;
  labels : list string;
  createdAt : option string;
  updatedAt : option string
}.

(** An entry of [manifest["issues"]]. *)
Record ManifestEntry : Type := mkManifestEntry {
  entry_number : Z;
  entry_title : string;
  entry_state : string;
  entry_labels : list string;
  created_at : option string;
  updated_at : option string;
  data_dir : string
}.

Record Manifest : Type := mkManifest {
  total_issues : Z;
  issues : list ManifestEntry
}.

Definition script_paths : list string :=
  [ ".ai-tools-resources/scripts/github-utils/fetch-issue-complete.py";
    "scripts/github-utils/fetch-issue-complete.py";
    "/tmp/fetch-issue-complete.py" ].

(** The dict [manifest] that [create_manifest] builds. *)
Definition manifest_of (listed : list ListedIssue) : Manifest :=
  {| total_issues := Z.of_nat (length listed);
     issues :=
       map (fun issue =>
              mkManifestEntry (number issue) (title issue) (state issue)
                (labels issue) (createdAt issue) (updatedAt issue)
                (pretty (number issue)))
           listed |}.

(** [0 if fail_count == 0 else 1] *)
Definition exit_status (fail_count : Z) : Z :=
  if fail_count =? 0 then 0 else 1.

Section Batch.
Context {World Path : Type}.
(** [os.path.exists(path)] *)
Variable path_exists : string -> World -> bool.
(** [path.mkdir(parents=True, exist_ok=True)] *)
Variable mkdir_parents : Path -> World -> (exception + unit) * World.
(** [subprocess.run(cmd, shell=True, capture_output=False, text=True)]:
    the return code. *)
Variable run_command : string -> World -> Z * World.
(** [open(path, "w")] and [json.dump(manifest, f, indent=2)] *)
Variable dump_manifest : Path -> Manifest -> World -> (exception + unit) * World.
(** [Path(s)], [p / name], [str(p)] *)
Variable path_of : string -> Path.
Variable path_div : Path -> string -> Path.
Variable path_str : Path -> string.

(** The loop [for path in script_paths] with its [break]. *)
Definition find_script (w : World) : option string :=
  List.find (fun path => path_exists path w) script_paths.

(** The directory and the command line for one issue. *)
Definition issue_dir_of (output_dir : string) (issue_number : Z) : Path :=
  path_div (path_of output_dir) (pretty issue_number).

Definition command_for (script repo : string) (issue_number : Z)
    (issue_dir : Path) : string :=
  "python3 " +:+ script +:+ " " +:+ repo +:+ " " +:+ pretty issue_number
  +:+ " " +:+ path_str issue_dir.

(** [fetch_issue_complete]; the third component lists the commands run
    so far. *)
Definition fetch_issue_complete (repo : string) (issue_number : Z)
    (output_dir : string) (w : World) (commands : list string)
  : (exception + bool) * World * list string :=
  match find_script w with
  | None => (inr false, w, commands)
  | Some script =>
      let issue_dir := issue_dir_of output_dir issue_number in
      match mkdir_parents issue_dir w with
      | (inl e, w1) => (inl e, w1, commands)
      | (inr _, w1) =>
          let cmd := command_for script repo issue_number issue_dir in
          let '(returncode, w2) := run_command cmd w1 in
          (inr (returncode =? 0), w2, commands ++ [cmd])
      end
  end.

(** [create_manifest(issues, output_dir)] *)
Definition create_manifest (listed : list ListedIssue) (output_dir : string)
    (w : World) : (exception + unit) * World :=
  dump_manifest (path_div (path_of output_dir) "manifest.json")
    (manifest_of listed) w.

(** The loop [for issue in issues] of [main] with its counters. *)
Fixpoint fetch_each (repo output_dir : string) (listed : list ListedIssue)
    (success_count fail_count : Z) (w : World) (commands : list string)
  : (exception + Z * Z) * World * list string :=
  match listed with
  | [] => (inr (success_count, fail_count), w, commands)
  | issue :: rest =>
      match fetch_issue_complete repo (number issue) output_dir w commands with
      | (inl e, w1, commands1) => (inl e, w1, commands1)
      | (inr true, w1, commands1) =>
          fetch_each repo output_dir rest (success_count + 1) fail_count
            w1 commands1
      | (inr false, w1, commands1) =>
          fetch_each repo output_dir rest success_count (fail_count + 1)
            w1 commands1
      end
  end.

(** [main] from the issues found on: the exit status, or the exception
    that ends the program. *)
Definition main_from_issues (repo output_dir : string)
    (listed : list ListedIssue) (w : World)
  : (exception + Z) * World * list string :=
  match mkdir_parents (path_of output_dir) w with
  | (inl e, w1) => (inl e, w1, [])
  | (inr _, w1) =>
      match listed with
      | [] =>
          match create_manifest [] output_dir w1 with
          | (inl e, w2) => (inl e, w2, [])
          | (inr _, w2) => (inr 0, w2, [])
          end
      | _ :: _ =>
          match fetch_each repo output_dir listed 0 0 w1 [] with
          | (inl e, w2, commands) => (inl e, w2, commands)
          | (inr (success_count, fail_count), w2, commands) =>
              match create_manifest listed output_dir w2 with
              | (inl e, w3) => (inl e, w3, commands)
              | (inr _, w3) => (inr (exit_status fail_count), w3, commands)
              end
          end
      end
  end.

End Batch.

End Matching.

(* ===================================================================== *)
(** * Test doubles for whole runs                                         *)
(* ===================================================================== *)

(** An issue object; [user] and [body_html] are left to choose. *)
Definition sample_issue (user : Pipeline.field (Pipeline.field string))
    (body_html : string) : Pipeline.IssueJson :=
  Pipeline.mkIssueJson (Pipeline.Value "Crash on start") (Pipeline.Value "open")
    (Pipeline.Value "2024-01-01T00:00:00Z") (Pipeline.Value "2024-01-02T00:00:00Z")
    user [Some "bug"] (Pipeline.Value "It crashes.") (Pipeline.Value body_html).

(** A tokenizer that reports one image, served from an address that
    [sample_get_bytes] refuses, for a text that holds an img tag. *)
Definition sample_start_tags (html : string)
  : option (list (string * AttachmentExtractor.attr_list)) :=
  if Py.str_in "<img" html then
    Some [("img",
           [("src",
             Some "https://user-attachments.githubusercontent.com/forbidden/a1b2.png")])]
  else Some [].

(** [main] in the world of [sample_get_bytes]: every file can be
    written; the requests for the issue and for the comments and the
    creation of directories with their parents are left to choose. *)
Definition sample_main
    (get_issue : IssueDataFetcher.Request -> unit
                 -> (exception + Pipeline.IssueJson) * unit)
    (get_comments : IssueDataFetcher.Request -> unit
                    -> (exception + (list IssueDataFetcher.RawComment * string)) * unit)
    (mkdir_parents : string -> unit -> (exception + unit) * unit)
  : nat -> Pipeline.Args -> State unit -> option (Z * State unit) :=
  Pipeline.main get_issue get_comments sample_get_bytes mkdir_parents
    sample_mkdir sample_write (fun _ _ w => (inr tt, w)) (fun _ _ w => (inr tt, w))
    sample_div sample_name sample_suffix sample_parent sample_absolute
    (fun s => s) (fun _ _ => "0.0") sample_start_tags (fun _ => None).

Definition sample_args : Pipeline.Args :=
  Pipeline.mkArgs "octo/repo" 7 "out" " ghp_0123456789 ".

(** A scripted [subprocess.run]: the world is the list of results still
    to come; once it is used up every run exits with 1. *)
Definition scripted_process (command : string)
    (w : list StatsCollector.CompletedProcess)
  : (exception + StatsCollector.CompletedProcess)
    * list StatsCollector.CompletedProcess :=
  match w with
  | [] => (inr (StatsCollector.mkCompletedProcess 1 EmptyString "no more results"),
           [])
  | result :: w' => (inr result, w')
  end.

(** A [json.loads] that knows the empty array only. *)
Definition sample_json_loads (text : string) : exception + option (list Z) :=
  if String.eqb text "[]" then inr (Some [])
  else inl (JSONDecodeError "Expecting value: line 1 column 1 (char 0)").

(** A [time.sleep] that refuses negative lengths and those of more than
    a day. *)
Definition sample_sleep_refuses (seconds : Z) : option exception :=
  if seconds <? 0 then Some (ValueError "sleep length must be non-negative")
  else if 86400 <? seconds
       then Some (OtherException "OverflowError" "timestamp too large")
  else None.

(** A conversion that refuses the integers of more than 4300 digits. *)
Definition sample_str_refuses (n : Z) : option exception :=
  if 10 ^ 4300 <=? Z.abs n
  then Some (ValueError "Exceeds the limit (4300 digits) for integer string conversion")
  else None.


Definition sample_returns (cmd : string) : Z :=
  if Py.str_in " 8 " cmd then 2 else 0.

Definition sample_run_command (cmd : string) (w : unit) : Z * unit :=
  (sample_returns cmd, w).

Definition sample_listed (number : Z) : Matching.ListedIssue :=
  Matching.mkListedIssue number "Crash on start" "open" ["bug"]
    (Some "2024-01-01T00:00:00Z") None.


(* ===================================================================== *)
(** * Properties of the retry decorator                                   *)
(* ===================================================================== *)

Ltac run_monad := unfold bind, try_, emit, perform, ret, raise; simpl.

(** Case analysis on the outcome of the next step of a computation. *)
Ltac case_run :=
  match goal with
  | |- context [match ?x with pair _ _ => _ end] =>
      lazymatch x with
      | context [match _ with pair _ _ => _ end] => fail
      | _ => destruct x as [[?e | ?r] ?s]
      end
  end.

Section WrapperSteps.
Context {World A : Type}.
Variable op : World -> (exception + A) * World.

Lemma wrapper_loop_success attempt rest last delay w tr v w' :
  op w = (inr v, w') ->
  wrapper_loop (perform op) (attempt :: rest) last delay (mkState w tr)
  = (inr v, mkState w' (tr ++ [Call])).
Proof. intros Hop. simpl. run_monad. now rewrite Hop. Qed.

Lemma wrapper_loop_fatal attempt rest last delay w tr e w' :
  op w = (inl e, w') -> transient e = false ->
  wrapper_loop (perform op) (attempt :: rest) last delay (mkState w tr)
  = (inl e, mkState w' (tr ++ [Call])).
Proof.
  intros Hop Hnt. simpl. run_monad. rewrite Hop.
  destruct e; simpl in *; try reflexivity; try discriminate.
  now rewrite Hnt.
Qed.

Lemma wrapper_loop_retry attempt rest last delay w tr e w' :
  op w = (inl e, w') -> transient e = true -> attempt < MAX_RETRIES ->
  wrapper_loop (perform op) (attempt :: rest) last delay (mkState w tr)
  = wrapper_loop (perform op) rest (Some e)
      (delay * RETRY_BACKOFF_MULTIPLIER)
      (mkState w' (tr ++ [Call; Log Warning (retry_warning e attempt delay);
                          Sleep delay])).
Proof.
  intros Hop Ht Hlt. apply Z.ltb_lt in Hlt.
  simpl. run_monad. rewrite Hop.
  destruct e; simpl in *; try discriminate;
    rewrite ?Ht, Hlt; simpl; rewrite <- !app_assoc; reflexivity.
Qed.

Lemma wrapper_loop_giveup attempt rest last delay w tr e w' :
  op w = (inl e, w') -> transient e = true -> MAX_RETRIES <= attempt ->
  wrapper_loop (perform op) (attempt :: rest) last delay (mkState w tr)
  = wrapper_loop (perform op) rest (Some e) delay
      (mkState w' (tr ++ [Call; Log Error (giveup_error e)])).
Proof.
  intros Hop Ht Hge. apply Z.ltb_ge in Hge.
  simpl. run_monad. rewrite Hop.
  destruct e; simpl in *; try discriminate;
    rewrite ?Ht, Hge; simpl; rewrite <- !app_assoc; reflexivity.
Qed.

Lemma wrapper_loop_done last delay (s : State World) e :
  last = Some e ->
  wrapper_loop (perform op) [] last delay s = (inl e, s).
Proof. now intros ->. Qed.

Lemma attempts_range_eq : attempts_range = [1; 2; 3; 4; 5].
Proof. reflexivity. Qed.

End WrapperSteps.

Lemma transient_is_URLError e : transient e = true -> isinstance_URLError e = true.
Proof. destruct e; simpl; congruence. Qed.

Lemma pair_eta {X Y} (p : X * Y) : p = (p.1, p.2).
Proof. now destruct p. Qed.

Lemma outcome_eq {World A} (op : World -> (exception + A) * World) w r :
  (op w).1 = r -> op w = (r, (op w).2).
Proof. intros <-. apply pair_eta. Qed.

(** C3.  When every call fails with a transient error, the decorated
    function calls the operation exactly five times and raises the
    failure of the fifth call; it sleeps four times, for 1, 2, 4 and 8
    seconds.  No 16 second wait happens. *)
Theorem retry_exhaustion_five_calls_four_sleeps {World A}
    (op : World -> (exception + A) * World) :
  (forall w, exists e, (op w).1 = inl e /\ transient e = true) ->
  forall w,
    let out := retry_on_transient_errors (perform op) (start w) in
    out.1 = (op (world_after op 4 w)).1
    /\ (exists e, out.1 = inl e /\ transient e = true)
    /\ world out.2 = world_after op 5 w
    /\ calls (trace out.2) = 5%nat
    /\ sleeps (trace out.2) = [1; 2; 4; 8].
Proof.
  intros Hall w out. subst out.
  unfold retry_on_transient_errors, start. rewrite attempts_range_eq.
  destruct (Hall w) as (e1 & H1 & T1). apply outcome_eq in H1.
  rewrite (wrapper_loop_retry op _ _ _ _ _ _ _ _ H1 T1) by reflexivity.
  set (w1 := (op w).2) in *.
  destruct (Hall w1) as (e2 & H2 & T2). apply outcome_eq in H2.
  rewrite (wrapper_loop_retry op _ _ _ _ _ _ _ _ H2 T2) by reflexivity.
  set (w2 := (op w1).2) in *.
  destruct (Hall w2) as (e3 & H3 & T3). apply outcome_eq in H3.
  rewrite (wrapper_loop_retry op _ _ _ _ _ _ _ _ H3 T3) by reflexivity.
  set (w3 := (op w2).2) in *.
  destruct (Hall w3) as (e4 & H4 & T4). apply outcome_eq in H4.
  rewrite (wrapper_loop_retry op _ _ _ _ _ _ _ _ H4 T4) by reflexivity.
  set (w4 := (op w3).2) in *.
  destruct (Hall w4) as (e5 & H5 & T5). apply outcome_eq in H5.
  rewrite (wrapper_loop_giveup op _ _ _ _ _ _ _ _ H5 T5) by (unfold MAX_RETRIES; lia).
  rewrite (wrapper_loop_done op _ _ _ e5 eq_refl).
  change (world_after op 4 w) with w4.
  change (world_after op 5 w) with (op w4).2.
  rewrite H5. simpl.
  repeat split; try reflexivity.
  now exists e5.
Qed.

Lemma retry_exhaustion_five_calls_four_sleeps_witness :
  let op := constantly (A := Z) (inl (HTTPError 503 "Service Unavailable" None)) in
  let out := retry_on_transient_errors (perform op) (start tt) in
  out.1 = (op (world_after op 4 tt)).1
  /\ (exists e, out.1 = inl e /\ transient e = true)
  /\ world out.2 = world_after op 5 tt
  /\ calls (trace out.2) = 5%nat
  /\ sleeps (trace out.2) = [1; 2; 4; 8].
Proof.
  apply (retry_exhaustion_five_calls_four_sleeps
           (constantly (A := Z) (inl (HTTPError 503 "Service Unavailable" None)))).
  intros w. exists (HTTPError 503 "Service Unavailable" None).
  split; reflexivity.
Defined.

(** C4.  An operation that fails with HTTP 503 twice and then succeeds
    is called three times (retried twice), the success value is
    returned, and the waits are 1 and 2 seconds, 3 seconds in all.  An
    operation that fails with an HTTP status other than 502, 503 and 504
    (404, 401, 403, ...) is called once and its error is raised at once,
    without any wait. *)
Theorem retry_503_twice_then_success_and_404_once {World A}
    (op : World -> (exception + A) * World) :
  (forall w0 w1 w2 w3 r1 b1 r2 b2 v,
      op w0 = (inl (HTTPError 503 r1 b1), w1) ->
      op w1 = (inl (HTTPError 503 r2 b2), w2) ->
      op w2 = (inr v, w3) ->
      let out := retry_on_transient_errors (perform op) (start w0) in
      out.1 = inr v
      /\ world out.2 = w3
      /\ calls (trace out.2) = 3%nat
      /\ sleeps (trace out.2) = [1; 2]
      /\ 3 <= foldr Z.add 0 (sleeps (trace out.2)))
  /\
  (forall w code reason fp w',
      op w = (inl (HTTPError code reason fp), w') ->
      code <> 502 -> code <> 503 -> code <> 504 ->
      let out := retry_on_transient_errors (perform op) (start w) in
      out.1 = inl (HTTPError code reason fp)
      /\ world out.2 = w'
      /\ calls (trace out.2) = 1%nat
      /\ sleeps (trace out.2) = []).
Proof.
  split.
  - intros w0 w1 w2 w3 r1 b1 r2 b2 v H1 H2 H3 out. subst out.
    unfold retry_on_transient_errors, start. rewrite attempts_range_eq.
    rewrite (wrapper_loop_retry op _ _ _ _ _ _ _ _ H1 eq_refl) by reflexivity.
    rewrite (wrapper_loop_retry op _ _ _ _ _ _ _ _ H2 eq_refl) by reflexivity.
    rewrite (wrapper_loop_success op _ _ _ _ _ _ _ _ H3).
    simpl. repeat split; reflexivity.
  - intros w code reason fp w' H Hn2 Hn3 Hn4 out. subst out.
    unfold retry_on_transient_errors, start. rewrite attempts_range_eq.
    rewrite (wrapper_loop_fatal op _ _ _ _ _ _ _ _ H).
    + simpl. repeat split; reflexivity.
    + simpl. unfold transient_code.
      apply Z.eqb_neq in Hn2, Hn3, Hn4. now rewrite Hn2, Hn3, Hn4.
Qed.

Lemma retry_503_twice_then_success_and_404_once_witness :
  (let e := HTTPError 503 "Service Unavailable" None in
   let out := retry_on_transient_errors
                (perform (scripted (A := Z) (inl (OSError "script used up"))))
                (start [inl e; inl e; inr 42]) in
   out.1 = inr 42
   /\ world out.2 = []
   /\ calls (trace out.2) = 3%nat
   /\ sleeps (trace out.2) = [1; 2]
   /\ 3 <= foldr Z.add 0 (sleeps (trace out.2)))
  /\
  (let e := HTTPError 404 "Not Found" None in
   let out := retry_on_transient_errors
                (perform (scripted (A := Z) (inl (OSError "script used up"))))
                (start [inl e; inr 42]) in
   out.1 = inl e
   /\ world out.2 = [inr 42]
   /\ calls (trace out.2) = 1%nat
   /\ sleeps (trace out.2) = []).
Proof.
  pose proof (retry_503_twice_then_success_and_404_once
                (scripted (A := Z) (inl (OSError "script used up")))) as [Ha Hb].
  split.
  - set (e := HTTPError 503 "Service Unavailable" None).
    apply (Ha [inl e; inl e; inr 42] [inl e; inr 42] [inr 42] []
              "Service Unavailable" None "Service Unavailable" None 42);
      reflexivity.
  - set (e := HTTPError 404 "Not Found" None).
    apply (Hb [inl e; inr 42] 404 "Not Found" None [inr 42]);
      [reflexivity | lia | lia | lia].
Defined.

(** C10.  An exception that is not an instance of URLError (hence not of
    HTTPError either) goes through the decorator unchanged after a single
    call, without sleep; and whenever the decorator sleeps or calls the
    operation again, the first call raised an instance of URLError. *)
Theorem retry_only_for_URLError_instances {World A}
    (op : World -> (exception + A) * World) :
  (forall w e w',
      op w = (inl e, w') -> isinstance_URLError e = false ->
      let out := retry_on_transient_errors (perform op) (start w) in
      out.1 = inl e
      /\ world out.2 = w'
      /\ calls (trace out.2) = 1%nat
      /\ sleeps (trace out.2) = [])
  /\
  (forall w,
      let out := retry_on_transient_errors (perform op) (start w) in
      (1 < calls (trace out.2))%nat \/ sleeps (trace out.2) <> [] ->
      exists e, (op w).1 = inl e /\ isinstance_URLError e = true).
Proof.
  split.
  - intros w e w' H Hcls out. subst out.
    unfold retry_on_transient_errors, start. rewrite attempts_range_eq.
    rewrite (wrapper_loop_fatal op _ _ _ _ _ _ _ _ H).
    + simpl. repeat split; reflexivity.
    + destruct e; simpl in *; congruence.
  - intros w out Hretry. subst out.
    unfold retry_on_transient_errors, start in Hretry.
    rewrite attempts_range_eq in Hretry.
    destruct (op w) as [[e | v] w'] eqn:Hop.
    + destruct (transient e) eqn:Ht.
      * exists e. split; [reflexivity | now apply transient_is_URLError].
      * rewrite (wrapper_loop_fatal op _ _ _ _ _ _ _ _ Hop Ht) in Hretry.
        unfold calls, sleeps in Hretry. simpl in Hretry.
        destruct Hretry as [Hc | Hs]; [lia | congruence].
    + rewrite (wrapper_loop_success op _ _ _ _ _ _ _ _ Hop) in Hretry.
      unfold calls, sleeps in Hretry. simpl in Hretry.
      destruct Hretry as [Hc | Hs]; [lia | congruence].
Qed.

Lemma retry_only_for_URLError_instances_witness :
  (let e := RuntimeError "boom" None in
   let out := retry_on_transient_errors
                (perform (scripted (A := Z) (inr 0))) (start [inl e; inr 1]) in
   out.1 = inl e
   /\ world out.2 = [inr 1]
   /\ calls (trace out.2) = 1%nat
   /\ sleeps (trace out.2) = [])
  /\
  (exists e, (scripted (A := Z) (inr 0) [inl (URLError "refused"); inr 1]).1 = inl e
             /\ isinstance_URLError e = true).
Proof.
  pose proof (retry_only_for_URLError_instances (scripted (A := Z) (inr 0)))
    as [Ha Hb].
  split.
  - apply (Ha [inl (RuntimeError "boom" None); inr 1]
              (RuntimeError "boom" None) [inr 1]); reflexivity.
  - apply (Hb [inl (URLError "refused"); inr 1]).
    left. vm_compute. lia.
Defined.

(* ===================================================================== *)
(** * Properties of the issue fetch                                       *)
(* ===================================================================== *)

Import IssueDataFetcher.

(** C1.  Whatever exception the request for the issue raises, a 502, 503
    or 504 response and a connection error included, [fetch_issue_html]
    makes that one request only, does not sleep, and raises a
    RuntimeError whose cause is that exception: the function's own
    except clauses replace the exception before the decorator sees it,
    so the issue fetch is never retried. *)
Theorem fetch_issue_html_single_attempt {World Issue : Type}
    (http_get_issue : Request -> World -> (exception + Issue) * World)
    (repo : string) (issue_number : Z) (github_token : string)
    (w w' : World) (e : exception) :
  http_get_issue
    (mkRequest (issue_url repo issue_number) (api_headers github_token)) w
  = (inl e, w') ->
  let out := fetch_issue_html http_get_issue repo issue_number github_token
               (start w) in
  (exists msg, out.1 = inl (RuntimeError msg (Some e)))
  /\ world out.2 = w'
  /\ calls (trace out.2) = 1%nat
  /\ requests (trace out.2) = [issue_url repo issue_number]
  /\ sleeps (trace out.2) = [].
Proof.
  intros Hget out. subst out.
  unfold fetch_issue_html, retry_on_transient_errors, start.
  rewrite attempts_range_eq.
  unfold fetch_issue_html_wrapped. simpl. run_monad. rewrite Hget.
  destruct e as [code reason fp| | | | | | | |]; simpl;
    try (repeat split; try reflexivity; eexists; reflexivity).
  destruct (code =? 401); [|destruct (code =? 403); [|destruct (code =? 404)]];
    simpl; repeat split; try reflexivity; eexists; reflexivity.
Qed.

Lemma fetch_issue_html_single_attempt_witness :
  let e := HTTPError 503 "Service Unavailable" None in
  let backend := fun _ : Request =>
                   scripted (A := string) (inl (OSError "script used up")) in
  let out := fetch_issue_html backend "octo/repo" 7 "ghp_0123456789"
               (start [inl e; inr "the issue"]) in
  (exists msg, out.1 = inl (RuntimeError msg (Some e)))
  /\ world out.2 = [inr "the issue"]
  /\ calls (trace out.2) = 1%nat
  /\ requests (trace out.2) = [issue_url "octo/repo" 7]
  /\ sleeps (trace out.2) = [].
Proof.
  apply (fetch_issue_html_single_attempt
           (fun _ : Request =>
              scripted (A := string) (inl (OSError "script used up")))).
  reflexivity.
Defined.

(** By contrast the page fetch, whose body has no except clause of its
    own, is retried: a 503 followed by a page costs two requests and a
    one second wait, and the page is returned. *)
Example comments_page_retried_after_503 :
  let backend := fun _ : Request =>
                   scripted (A := list RawComment * string)
                     (inl (OSError "script used up")) in
  let out := _fetch_comments_page backend (comments_url "octo/repo" 7 1)
               "ghp_0123456789"
               (start [inl (HTTPError 503 "Service Unavailable" None);
                       inr (sample_comments 1 2, EmptyString)]) in
  out.1 = inr (sample_comments 1 2, false)
  /\ calls (trace out.2) = 2%nat
  /\ sleeps (trace out.2) = [1]
  /\ requests (trace out.2)
     = [comments_url "octo/repo" 7 1; comments_url "octo/repo" 7 1].
Proof. vm_compute. repeat split. Qed.

(* ===================================================================== *)
(** * Properties of the comment pagination                                *)
(* ===================================================================== *)

Lemma wrapper_loop_returns {World A} (func : M World A) attempt rest last delay
    w tr v s' :
  func (mkState w (tr ++ [Call])) = (inr v, s') ->
  wrapper_loop func (attempt :: rest) last delay (mkState w tr) = (inr v, s').
Proof. intros Hf. simpl. run_monad. now rewrite Hf. Qed.

Lemma prefix_refl s : String.prefix s s = true.
Proof. induction s as [|c s IH]; simpl; [reflexivity|]. now destruct (ascii_dec c c). Qed.

Lemma str_in_self s : Py.str_in s s = true.
Proof. destruct s; simpl; [reflexivity|]. rewrite prefix_refl. now destruct (ascii_dec a a). Qed.

Lemma comments_url_inj repo n p q :
  comments_url repo n p = comments_url repo n q -> p = q.
Proof.
  unfold comments_url. intros H.
  apply String.app_inj in H. apply String.app_inj in H.
  apply String.app_inj in H. apply String.app_inj in H.
  now apply pretty_Z_inj in H.
Qed.

Section Pagination.
Context {World : Type}.
Variable http_get_comments :
  Request -> World -> (exception + (list RawComment * string)) * World.
Variable start_tags :
  string -> option (list (string * AttachmentExtractor.attr_list)).
Variables (repo : string) (issue_number : Z) (github_token : string).

(** What the backend holds for each page number. *)
Variable served : Z -> list RawComment * string.
Hypothesis backend_serves : forall page w, exists w',
  http_get_comments
    (mkRequest (comments_url repo issue_number page) (api_headers github_token)) w
  = (inr (served page), w').

Let info := comment_info start_tags.
Let url := comments_url repo issue_number.
Let loop := comments_loop http_get_comments start_tags.

Lemma fetch_page_ok page w tr : exists w',
  _fetch_comments_page http_get_comments (url page) github_token (mkState w tr)
  = (inr ((served page).1, Py.str_in REL_NEXT (served page).2),
     mkState w' (tr ++ [Call; HttpGet (url page)])).
Proof.
  destruct (backend_serves page w) as [w' Hw]. exists w'.
  unfold _fetch_comments_page, retry_on_transient_errors.
  rewrite attempts_range_eq.
  apply wrapper_loop_returns.
  unfold _fetch_comments_page_wrapped. run_monad. unfold url. rewrite Hw.
  destruct (served page) as [items link]. simpl.
  now rewrite <- app_assoc.
Qed.

Lemma loop_next fuel page acc w tr :
  last_page served page = false ->
  exists w',
    loop (S fuel) repo issue_number github_token page acc (mkState w tr)
    = loop fuel repo issue_number github_token (page + 1)
        (acc ++ map info (served page).1)
        (mkState w' (tr ++ [Call; HttpGet (url page)])).
Proof.
  intros Hlast. destruct (fetch_page_ok page w tr) as [w' Hw]. exists w'.
  unfold loop. simpl. fold url. rewrite Hw.
  unfold last_page in Hlast.
  destruct (served page).1 as [|c items]; [discriminate|].
  apply negb_false_iff in Hlast. now rewrite Hlast.
Qed.

Lemma loop_last fuel page acc w tr :
  last_page served page = true ->
  exists w',
    loop (S fuel) repo issue_number github_token page acc (mkState w tr)
    = Some (inr (acc ++ map info (served page).1),
            mkState w' (tr ++ [Call; HttpGet (url page)])).
Proof.
  intros Hlast. destruct (fetch_page_ok page w tr) as [w' Hw]. exists w'.
  unfold loop. simpl. fold url. rewrite Hw.
  unfold last_page in Hlast.
  destruct (served page).1 as [|c items]; simpl.
  - now rewrite app_nil_r.
  - now rewrite Hlast.
Qed.

(** From [page] on, [k] pages that continue and then one that ends. *)
Lemma loop_pages k : forall page acc w tr fuel,
  (forall i, (i < k)%nat -> last_page served (page + Z.of_nat i) = false) ->
  last_page served (page + Z.of_nat k) = true ->
  (k < fuel)%nat ->
  exists w',
    loop fuel repo issue_number github_token page acc (mkState w tr)
    = Some (inr (acc ++ flat_map (fun p => map info (served p).1)
                          (seqZ page (Z.of_nat (S k)))),
            mkState w'
              (tr ++ flat_map (fun p => [Call; HttpGet (url p)])
                       (seqZ page (Z.of_nat (S k))))).
Proof.
  induction k as [|k IH]; intros page acc w tr fuel Hcont Hlast Hfuel.
  - destruct fuel as [|fuel]; [lia|].
    rewrite Z.add_0_r in Hlast.
    destruct (loop_last fuel page acc w tr Hlast) as [w' Hw].
    exists w'. rewrite Hw. simpl. now rewrite !app_nil_r.
  - destruct fuel as [|fuel]; [lia|].
    assert (H0 : last_page served page = false).
    { specialize (Hcont 0%nat). rewrite Z.add_0_r in Hcont. apply Hcont. lia. }
    destruct (loop_next fuel page acc w tr H0) as [w1 Hw1].
    rewrite Hw1.
    destruct (IH (page + 1) (acc ++ map info (served page).1) w1
                (tr ++ [Call; HttpGet (url page)]) fuel) as [w' Hw'].
    + intros i Hi. replace (page + 1 + Z.of_nat i) with (page + Z.of_nat (S i)) by lia.
      apply Hcont. lia.
    + replace (page + 1 + Z.of_nat k) with (page + Z.of_nat (S k)) by lia.
      exact Hlast.
    + lia.
    + exists w'. rewrite Hw'.
      rewrite (seqZ_cons page (Z.of_nat (S (S k)))) by lia.
      replace (Z.succ page) with (page + 1) by lia.
      replace (Z.pred (Z.of_nat (S (S k)))) with (Z.of_nat (S k)) by lia.
      simpl. now rewrite <- !app_assoc.
Qed.

(** As long as no page ends the pagination the loop goes on. *)
Lemma loop_running fuel : forall page acc w tr,
  (forall i, (i < fuel)%nat -> last_page served (page + Z.of_nat i) = false) ->
  loop fuel repo issue_number github_token page acc (mkState w tr) = None.
Proof.
  induction fuel as [|fuel IH]; intros page acc w tr Hcont; [reflexivity|].
  assert (H0 : last_page served page = false).
  { specialize (Hcont 0%nat). rewrite Z.add_0_r in Hcont. apply Hcont. lia. }
  destruct (loop_next fuel page acc w tr H0) as [w1 Hw1].
  rewrite Hw1. apply IH.
  intros i Hi. replace (page + 1 + Z.of_nat i) with (page + Z.of_nat (S i)) by lia.
  apply Hcont. lia.
Qed.

End Pagination.

Lemma str_in_append needle a b :
  Py.str_in needle b = true -> Py.str_in needle (a +:+ b) = true.
Proof.
  intros Hb. induction a as [|c a IH]; simpl; [exact Hb|].
  rewrite IH. apply orb_true_r.
Qed.

Lemma link_to_next_has_rel_next repo n p :
  Py.str_in REL_NEXT (link_to_next repo n p) = true.
Proof.
  unfold link_to_next. do 3 apply str_in_append. apply str_in_self.
Qed.

Lemma comments_url_eqb repo n p q :
  p <> q -> String.eqb (comments_url repo n p) (comments_url repo n q) = false.
Proof.
  intros Hpq. apply String.eqb_neq. intros H. now apply comments_url_inj in H.
Qed.

Lemma serve_three_pages repo n (p1 p2 p3 : list RawComment) :
  let served := fun page => serve_pages repo n [p1; p2; p3] 1 (comments_url repo n page) in
  served 1 = (p1, link_to_next repo n 1)
  /\ served 2 = (p2, link_to_next repo n 2)
  /\ served 3 = (p3, EmptyString).
Proof.
  cbn [serve_pages]. change (1 + 1) with 2. change (2 + 1) with 3.
  rewrite !String.eqb_refl.
  rewrite !comments_url_eqb by lia. auto.
Qed.

(** C5.  Against a backend that holds three pages of 100, 100 and 37
    comments, with a [rel="next"] marker on the first two, the fetcher
    requests pages 1, 2 and 3 (at page size 100) and nothing else, and
    returns the 237 comments in the order served.  In general, against a
    backend that answers every page request, the fetcher requests pages
    1, 2, ... up to and including the first page that is empty or has no
    [rel="next"] marker, returns the comments of these pages in order,
    and does not stop earlier. *)
Theorem fetch_comments_follows_pages :
  (forall start_tags repo issue_number github_token
          (p1 p2 p3 : list RawComment) (fuel : nat),
      length p1 = 100%nat -> length p2 = 100%nat -> length p3 = 37%nat ->
      (3 <= fuel)%nat ->
      exists s',
        fetch_comments_html (paged_backend repo issue_number [p1; p2; p3])
          start_tags fuel repo issue_number github_token (start tt)
        = Some (inr (map (comment_info start_tags) (p1 ++ p2 ++ p3)), s')
        /\ length (map (comment_info start_tags) (p1 ++ p2 ++ p3)) = 237%nat
        /\ map comment_id (map (comment_info start_tags) (p1 ++ p2 ++ p3))
           = map id (p1 ++ p2 ++ p3)
        /\ requests (trace s')
           = [comments_url repo issue_number 1; comments_url repo issue_number 2;
              comments_url repo issue_number 3]
        /\ calls (trace s') = 3%nat
        /\ (forall page,
              comments_url repo issue_number page
              = ("https://api.github.com/repos/" +:+ repo +:+ "/issues/"
                   +:+ pretty issue_number +:+ "/comments")
                +:+ "?per_page=100&page=" +:+ pretty page))
  /\
  (forall (World : Type)
          (http_get_comments :
             Request -> World -> (exception + (list RawComment * string)) * World)
          start_tags repo issue_number github_token
          (served : Z -> list RawComment * string),
      (forall page w, exists w',
          http_get_comments
            (mkRequest (comments_url repo issue_number page)
                       (api_headers github_token)) w
          = (inr (served page), w')) ->
      forall (k : nat) (w : World),
        (forall i, (i < k)%nat -> last_page served (1 + Z.of_nat i) = false) ->
        last_page served (1 + Z.of_nat k) = true ->
        forall fuel : nat,
          ((fuel <= k)%nat ->
           fetch_comments_html http_get_comments start_tags fuel repo
             issue_number github_token (start w) = None)
          /\
          ((k < fuel)%nat ->
           exists s',
             fetch_comments_html http_get_comments start_tags fuel repo
               issue_number github_token (start w)
             = Some (inr (flat_map
                            (fun p => map (comment_info start_tags) (served p).1)
                            (seqZ 1 (Z.of_nat (S k)))), s')
             /\ requests (trace s')
                = map (comments_url repo issue_number) (seqZ 1 (Z.of_nat (S k))))).
Proof.
  assert (General : forall (World : Type)
          (http_get_comments :
             Request -> World -> (exception + (list RawComment * string)) * World)
          start_tags repo issue_number github_token
          (served : Z -> list RawComment * string),
      (forall page w, exists w',
          http_get_comments
            (mkRequest (comments_url repo issue_number page)
                       (api_headers github_token)) w
          = (inr (served page), w')) ->
      forall (k : nat) (w : World),
        (forall i, (i < k)%nat -> last_page served (1 + Z.of_nat i) = false) ->
        last_page served (1 + Z.of_nat k) = true ->
        forall fuel : nat, (k < fuel)%nat ->
           exists s',
             fetch_comments_html http_get_comments start_tags fuel repo
               issue_number github_token (start w)
             = Some (inr (flat_map
                            (fun p => map (comment_info start_tags) (served p).1)
                            (seqZ 1 (Z.of_nat (S k)))), s')
             /\ trace s' = flat_map (fun p => [Call; HttpGet (comments_url repo issue_number p)])
                             (seqZ 1 (Z.of_nat (S k)))).
  { intros World get tags repo n tok served Hserve k w Hcont Hlast fuel Hfuel.
    destruct (loop_pages get tags repo n tok served Hserve k 1 [] w [] fuel
                Hcont Hlast Hfuel) as [w' Hw'].
    eexists. split; [exact Hw'|reflexivity]. }
  split.
  - intros tags repo n tok p1 p2 p3 fuel L1 L2 L3 Hfuel.
    destruct (serve_three_pages repo n p1 p2 p3) as (S1 & S2 & S3).
    set (served := fun page => serve_pages repo n [p1; p2; p3] 1 (comments_url repo n page)) in *.
    destruct (General unit (paged_backend repo n [p1; p2; p3]) tags repo n tok served)
      with (k := 2%nat) (w := tt) (fuel := fuel) as (s' & Hrun & Htr).
    + intros page w. exists w. reflexivity.
    + intros i Hi. unfold last_page.
      assert (i = 0 \/ i = 1)%nat as [-> | ->] by lia.
      * change (1 + Z.of_nat 0) with 1. unfold served. rewrite S1. cbn [fst snd].
        destruct p1; [discriminate|].
        now rewrite link_to_next_has_rel_next.
      * change (1 + Z.of_nat 1) with 2. unfold served. rewrite S2. cbn [fst snd].
        destruct p2; [discriminate|].
        now rewrite link_to_next_has_rel_next.
    + unfold last_page. change (1 + Z.of_nat 2) with 3. unfold served. rewrite S3.
      cbn [fst snd]. now destruct p3.
    + lia.
    + exists s'. change (seqZ 1 (Z.of_nat 3)) with [1; 2; 3] in *.
      cbn [flat_map] in Hrun. unfold served in Hrun.
      rewrite S1, S2, S3 in Hrun. cbn [fst snd] in Hrun.
      rewrite app_nil_r in Hrun. rewrite !map_app.
      split; [exact Hrun|]. rewrite Htr.
      repeat split.
      * rewrite !length_app, !length_map. lia.
      * rewrite <- !map_app, map_map. reflexivity.
  - intros World get tags repo n tok served Hserve k w Hcont Hlast fuel. split.
    + intros Hfuel.
      apply (loop_running get tags repo n tok served Hserve fuel 1 [] w []).
      intros i Hi. apply Hcont. lia.
    + intros Hfuel.
      destruct (General World get tags repo n tok served Hserve k w Hcont Hlast
                  fuel Hfuel) as (s' & Hrun & Htr).
      exists s'. split; [exact Hrun|]. rewrite Htr.
      generalize (seqZ 1 (Z.of_nat (S k))). intros l.
      induction l as [|p l IH]; simpl; [reflexivity|].
      unfold requests in *. simpl. now rewrite IH.
Qed.

Lemma fetch_comments_follows_pages_witness :
  (let p1 := sample_comments 1 100 in
   let p2 := sample_comments 101 100 in
   let p3 := sample_comments 201 37 in
   let tags := fun _ : string => Some [] in
   exists s',
     fetch_comments_html (paged_backend "octo/repo" 7 [p1; p2; p3])
       tags 3 "octo/repo" 7 "ghp_0123456789" (start tt)
     = Some (inr (map (comment_info tags) (p1 ++ p2 ++ p3)), s')
     /\ length (map (comment_info tags) (p1 ++ p2 ++ p3)) = 237%nat
     /\ map comment_id (map (comment_info tags) (p1 ++ p2 ++ p3))
        = map id (p1 ++ p2 ++ p3)
     /\ requests (trace s')
        = [ "https://api.github.com/repos/octo/repo/issues/7/comments?per_page=100&page=1";
            "https://api.github.com/repos/octo/repo/issues/7/comments?per_page=100&page=2";
            "https://api.github.com/repos/octo/repo/issues/7/comments?per_page=100&page=3" ]
     /\ calls (trace s') = 3%nat
     /\ (forall page,
           comments_url "octo/repo" 7 page
           = "https://api.github.com/repos/octo/repo/issues/7/comments?per_page=100&page="
             +:+ pretty page))
  /\
  (let pages := [sample_comments 1 2; sample_comments 3 1] in
   let tags := fun _ : string => Some [] in
   let served := fun page =>
                   serve_pages "octo/repo" 7 pages 1 (comments_url "octo/repo" 7 page) in
   fetch_comments_html (paged_backend "octo/repo" 7 pages) tags 1
     "octo/repo" 7 "ghp_0123456789" (start tt) = None
   /\
   exists s',
     fetch_comments_html (paged_backend "octo/repo" 7 pages) tags 2
       "octo/repo" 7 "ghp_0123456789" (start tt)
     = Some (inr (flat_map (fun p => map (comment_info tags) (served p).1)
                    (seqZ 1 (Z.of_nat 2))), s')
     /\ requests (trace s')
        = map (comments_url "octo/repo" 7) (seqZ 1 (Z.of_nat 2))).
Proof.
  pose proof fetch_comments_follows_pages as [Ha Hb].
  split.
  - apply Ha; [reflexivity | reflexivity | reflexivity | lia].
  - set (pages := [sample_comments 1 2; sample_comments 3 1]).
    set (served := fun page =>
           serve_pages "octo/repo" 7 pages 1 (comments_url "octo/repo" 7 page)).
    assert (Hserve : forall page w, exists w',
               paged_backend "octo/repo" 7 pages
                 (mkRequest (comments_url "octo/repo" 7 page)
                            (api_headers "ghp_0123456789")) w
               = (inr (served page), w')).
    { intros page w. exists w. reflexivity. }
    assert (Hcont : forall i, (i < 1)%nat -> last_page served (1 + Z.of_nat i) = false).
    { intros i Hi. assert (i = 0%nat) as -> by lia. reflexivity. }
    assert (Hlast : last_page served (1 + Z.of_nat 1) = true) by reflexivity.
    split.
    + apply (proj1 (Hb unit _ (fun _ => Some []) "octo/repo" 7 "ghp_0123456789"
                       served Hserve 1%nat tt Hcont Hlast 1%nat)). lia.
    + apply (proj2 (Hb unit _ (fun _ => Some []) "octo/repo" 7 "ghp_0123456789"
                       served Hserve 1%nat tt Hcont Hlast 2%nat)). lia.
Defined.

(* ===================================================================== *)
(** * Properties of the download phase                                    *)
(* ===================================================================== *)

Section Downloads.
Context {World Path : Type}.
Variable http_get_bytes :
  string -> World -> (exception + list Byte.byte) * World.
Variable mkdir_parents : Path -> World -> (exception + unit) * World.
Variable write_file :
  Path -> list Byte.byte -> World -> (exception + unit) * World.
Variable path_div : Path -> string -> Path.
Variable path_name : Path -> string.
Variable path_suffix : Path -> string.
Variable path_parent : Path -> Path.
Variable path_absolute : Path -> string.
Variable format_1f : Z -> Z -> string.
Variable self_issue_number : Z.
Variable self_output_dir : Path.

Let attempt_body :=
  download_attachment_try http_get_bytes mkdir_parents write_file
    path_name path_suffix path_parent path_absolute format_1f.
Let download :=
  download_attachment http_get_bytes mkdir_parents write_file
    path_name path_suffix path_parent path_absolute format_1f.
Let each :=
  download_each http_get_bytes mkdir_parents write_file path_div
    path_name path_suffix path_parent path_absolute format_1f.
Let in_turn :=
  download_in_turn http_get_bytes mkdir_parents write_file
    path_name path_suffix path_parent path_absolute format_1f.
Let failed := failed_download (Path := Path) path_name path_absolute.
Let issue_dir := issue_attachments_dir path_div self_output_dir.

Lemma download_error_msg_nonempty e : download_error_msg e <> EmptyString.
Proof. destruct e; simpl; discriminate. Qed.

(** A successful try block returns a record marked successful that
    names the attachment. *)
Lemma download_try_record url path s r s' :
  attempt_body url path s = (inr r, s') ->
  success r = true
  /\ source_url r = strip_query url
  /\ filename r = path_name path
  /\ file_location r = path_absolute path.
Proof.
  unfold attempt_body, download_attachment_try. run_monad.
  destruct (mkdir_parents (path_parent path) (world s)) as [[e1 | []] w1];
    [discriminate|].
  match goal with
  | |- context [_download_file ?g ?u ?st] =>
      destruct (_download_file g u st) as [[e2 | data] s2]
  end; [discriminate|].
  destruct (write_file path data (world s2)) as [[e3 | []] w3];
    [discriminate|].
  intros H. injection H as <- <-. simpl. auto.
Qed.

(** [download_attachment] always returns a record: the one of the try
    block, or the failure record of the exception raised there. *)
Lemma download_attachment_returns url path s :
  match attempt_body url path s with
  | (inr r, s') => download url path s = (inr r, s')
  | (inl e, s') =>
      download url path s = (inr (failed url path (download_error_msg e)), s')
  end.
Proof.
  unfold download, download_attachment. fold attempt_body. run_monad.
  destruct (attempt_body url path s) as [[e | r] s']; reflexivity.
Qed.

Lemma download_attachment_record url path s :
  exists r s',
    download url path s = (inr r, s')
    /\ source_url r = strip_query url
    /\ filename r = path_name path
    /\ file_location r = path_absolute path
    /\ failure_filled r.
Proof.
  pose proof (download_attachment_returns url path s) as H.
  destruct (attempt_body url path s) as [[e | r] s'] eqn:Hbody.
  - exists (failed url path (download_error_msg e)), s'.
    split; [exact H|]. simpl. repeat split.
    exists (download_error_msg e). split; [reflexivity|].
    apply download_error_msg_nonempty.
  - exists r, s'. split; [exact H|].
    destruct (download_try_record _ _ _ _ _ Hbody) as (Hs & Hu & Hn & Hl).
    repeat split; try assumption.
    all: rewrite Hs in *; discriminate.
Qed.

(** Every planned download is attempted and recorded, whatever the
    outcome of the ones before it. *)
Lemma download_in_turn_records plan : forall s,
  exists ms s',
    in_turn plan s = (inr ms, s')
    /\ Forall2 (record_of path_name path_absolute) plan ms
    /\ Forall (fun m => failure_filled (metadata m)) ms.
Proof.
  induction plan as [|d plan IH]; intros s.
  - exists [], s. repeat split; constructor.
  - destruct (download_attachment_record (plan_url d) (plan_path d) s)
      as (r & s1 & Hr & Hu & Hn & Hl & Hf).
    destruct (IH s1) as (ms & s' & Hms & Hall & Hfs).
    exists (mkMetadata (plan_source d) (plan_source_id d) r :: ms), s'.
    split.
    + unfold in_turn in *. simpl. unfold download in Hr.
      unfold bind at 1. rewrite Hr. unfold bind at 1. rewrite Hms. reflexivity.
    + split; constructor; try assumption. repeat split; assumption.
Qed.

Lemma in_turn_app plan1 plan2 s :
  in_turn (plan1 ++ plan2) s
  = match in_turn plan1 s with
    | (inr ms1, s1) =>
        match in_turn plan2 s1 with
        | (inr ms2, s2) => (inr (ms1 ++ ms2), s2)
        | (inl e, s2) => (inl e, s2)
        end
    | (inl e, s1) => (inl e, s1)
    end.
Proof.
  revert s. induction plan1 as [|d plan1 IH]; intros s.
  - simpl. unfold ret. now case_run.
  - unfold in_turn in *. simpl. unfold bind, ret.
    case_run; [reflexivity|]. rewrite IH.
    case_run; [reflexivity|]. now case_run.
Qed.

(** The loop over one list of attachments is the downloads in turn,
    followed by the bookkeeping. *)
Lemma download_each_in_turn src src_id dir atts : forall c s,
  each src src_id dir atts c s
  = match in_turn
            (map (fun a => mkPlanned src src_id (AttachmentExtractor.url a)
                             (path_div dir (AttachmentExtractor.filename a)))
                 atts) s with
    | (inr ms, s') => (inr (count_all ms c), s')
    | (inl e, s') => (inl e, s')
    end.
Proof.
  induction atts as [|a atts IH]; intros c s; [reflexivity|].
  unfold each, in_turn in *. simpl. unfold bind, ret.
  case_run; [reflexivity|]. rewrite IH. now case_run.
Qed.

Lemma count_all_app ms1 ms2 c :
  count_all (ms1 ++ ms2) c = count_all ms2 (count_all ms1 c).
Proof. unfold count_all. apply foldl_app. Qed.

Lemma download_comments_in_turn comments : forall c s,
  download_comments http_get_bytes mkdir_parents write_file path_div
    path_name path_suffix path_parent path_absolute format_1f
    self_output_dir comments c s
  = match in_turn
            (flat_map (fun cm => map (plan_comment path_div self_output_dir cm)
                                    (_attachments cm)) comments) s with
    | (inr ms, s') => (inr (count_all ms c), s')
    | (inl e, s') => (inl e, s')
    end.
Proof.
  induction comments as [|cm comments IH]; intros c s; [reflexivity|].
  cbn [download_comments flat_map].
  destruct (_attachments cm) as [|a atts] eqn:Hatts.
  - rewrite IH. reflexivity.
  - rewrite in_turn_app. unfold bind.
    fold each. rewrite download_each_in_turn.
    unfold plan_comment at 1.
    case_run; [reflexivity|]. rewrite IH.
    case_run; [reflexivity|]. now rewrite count_all_app.
Qed.

Lemma count_all_metadata ms : forall c,
  download_metadata (count_all ms c) = download_metadata c ++ ms
  /\ total_attachments (count_all ms c)
     = total_attachments c + Z.of_nat (length ms)
  /\ (downloaded_count c + failed_count c = total_attachments c ->
      downloaded_count (count_all ms c) + failed_count (count_all ms c)
      = total_attachments (count_all ms c)).
Proof.
  induction ms as [|m ms IH]; intros c.
  - simpl. rewrite app_nil_r. repeat split; [lia | auto].
  - change (count_all (m :: ms) c)
      with (count_all ms (count_download (source m) (source_id m) (metadata m) c)).
    destruct (IH (count_download (source m) (source_id m) (metadata m) c))
      as (Hm & Ht & Hc).
    split; [|split].
    + rewrite Hm. destruct m as [src sid r]. simpl.
      now rewrite <- app_assoc.
    + rewrite Ht. cbn [count_download total_attachments length]. lia.
    + intros Hinv. apply Hc. simpl. destruct (success (metadata m)); lia.
Qed.

(** ** What is asked of the server *)

Lemma requests_app tr1 tr2 :
  requests (tr1 ++ tr2) = requests tr1 ++ requests tr2.
Proof. unfold requests. apply omap_app. Qed.

(** A wrapped function that makes one request and has the same outcome
    at every call: one call when the outcome is a value or a failure
    that is not transient, as many calls as there are attempts when it
    is a transient failure. *)
Lemma wrapper_loop_constant {A} (func : M World A) (u : string)
    (r : exception + A) :
  (forall s, exists w', func s = (r, mkState w' (trace s ++ [HttpGet u]))) ->
  forall attempts last delay s,
    attempts <> []
    \/ (exists e, r = inl e /\ transient e = true /\ last = Some e) ->
    exists s',
      wrapper_loop func attempts last delay s = (r, s')
      /\ requests (trace s')
         = requests (trace s)
           ++ replicate (match r with
                         | inl e => if transient e then length attempts else 1%nat
                         | inr _ => 1%nat
                         end) u.
Proof.
  intros Hfunc. induction attempts as [|attempt rest IH]; intros last delay s Hcase.
  - destruct Hcase as [Hne | (e & -> & Ht & ->)]; [congruence|].
    exists s. rewrite Ht. cbn. now rewrite app_nil_r.
  - clear Hcase. cbn [wrapper_loop]. unfold bind at 1. unfold try_. unfold bind at 1.
    unfold emit at 1.
    destruct (Hfunc (mkState (world s) (trace s ++ [Call]))) as (w' & ->).
    cbn [trace].
    assert (Hreq : forall evs,
              requests (((trace s ++ [Call]) ++ [HttpGet u]) ++ evs)
              = requests (trace s) ++ [u] ++ requests evs).
    { intros evs. rewrite !requests_app. cbn. now rewrite app_nil_r, <- app_assoc. }
    assert (Hone : requests (trace (mkState w' ((trace s ++ [Call]) ++ [HttpGet u])))
                   = requests (trace s) ++ replicate 1 u).
    { cbn [trace]. rewrite <- (app_nil_r (_ ++ [HttpGet u])), Hreq. reflexivity. }
    assert (Hmore : forall e (delay' : Z) evs,
              r = inl e -> transient e = true -> requests evs = [] ->
              exists s',
                wrapper_loop func rest (Some e) delay'
                  (mkState w' (((trace s ++ [Call]) ++ [HttpGet u]) ++ evs))
                = (r, s')
                /\ requests (trace s')
                   = requests (trace s) ++ replicate (S (length rest)) u).
    { intros e delay' evs Hr Ht Hevs.
      destruct (IH (Some e) delay'
                  (mkState w' (((trace s ++ [Call]) ++ [HttpGet u]) ++ evs)))
        as (s' & Hrun & Hk).
      { right. eauto. }
      exists s'. split; [exact Hrun|]. rewrite Hk. cbn [trace].
      rewrite Hreq, Hevs, Hr, Ht. cbn. now rewrite <- app_assoc. }
    destruct r as [e | v]; [|eexists; split; [reflexivity | exact Hone]].
    destruct e as [code reason body | reason | | | | | | |];
      try (eexists; split; [reflexivity | exact Hone]).
    + cbn [transient]. destruct (transient_code code) eqn:Hc;
        [|eexists; split; [reflexivity | exact Hone]].
      cbn [length].
      destruct (attempt <? MAX_RETRIES).
      * unfold bind, emit. cbn [world trace].
        rewrite <- (app_assoc _ [Log _ _] [Sleep _]).
        apply Hmore; [reflexivity | exact Hc | reflexivity].
      * unfold bind, emit. cbn [world trace].
        apply Hmore; [reflexivity | exact Hc | reflexivity].
    + cbn [transient length].
      destruct (attempt <? MAX_RETRIES).
      * unfold bind, emit. cbn [world trace].
        rewrite <- (app_assoc _ [Log _ _] [Sleep _]).
        apply Hmore; reflexivity.
      * unfold bind, emit. cbn [world trace].
        apply Hmore; reflexivity.
Qed.

Section StatelessServer.
Variable served : string -> exception + list Byte.byte.
Hypothesis mkdir_succeeds :
  forall p w, exists w', mkdir_parents p w = (inr tt, w').
Hypothesis write_succeeds :
  forall p data w, exists w', write_file p data w = (inr tt, w').
Hypothesis server_serves :
  forall url w, exists w', http_get_bytes url w = (served url, w').

Let calls_for (r : exception + list Byte.byte) : nat :=
  match r with
  | inl e => if transient e then 5%nat else 1%nat
  | inr _ => 1%nat
  end.
Let outcome_of (r : exception + list Byte.byte) (m : DownloadRecord) : Prop :=
  match r with
  | inr data =>
      success m = true /\ file_size_bytes m = Z.of_nat (length data)
      /\ error m = None
  | inl e => success m = false /\ error m = Some (download_error_msg e)
  end.

Lemma download_file_served url s :
  exists s',
    _download_file http_get_bytes url s = (served url, s')
    /\ requests (trace s')
       = requests (trace s) ++ replicate (calls_for (served url)) url.
Proof.
  unfold _download_file, retry_on_transient_errors. rewrite attempts_range_eq.
  destruct (wrapper_loop_constant
              (emit (HttpGet url) ;; perform (http_get_bytes url)) url (served url))
    with (attempts := [1; 2; 3; 4; 5]) (last := @None exception)
         (delay := INITIAL_RETRY_DELAY) (s := s) as (s' & Hrun & Hreq).
  - intros s0. run_monad.
    destruct (server_serves url (world s0)) as [w' ->]. eauto.
  - left. discriminate.
  - exists s'. split; [exact Hrun|]. rewrite Hreq. unfold calls_for.
    destruct (served url) as [e|]; [|reflexivity]. now destruct (transient e).
Qed.

Lemma download_served url path s :
  exists r s',
    download url path s = (inr r, s')
    /\ requests (trace s')
       = requests (trace s) ++ replicate (calls_for (served url)) url
    /\ outcome_of (served url) r.
Proof.
  pose proof (download_attachment_returns url path s) as Hret.
  fold attempt_body download in Hret.
  assert (Hbody : exists res s',
            attempt_body url path s = (res, s')
            /\ requests (trace s')
               = requests (trace s) ++ replicate (calls_for (served url)) url
            /\ match served url, res with
               | inl e, inl e' => e' = e
               | inr data, inr r =>
                   success r = true
                   /\ file_size_bytes r = Z.of_nat (length data)
                   /\ error r = None
               | _, _ => False
               end).
  { unfold attempt_body, download_attachment_try.
    unfold bind at 1. unfold perform at 1.
    destruct (mkdir_succeeds (path_parent path) (world s)) as [w1 ->].
    unfold bind at 1.
    destruct (download_file_served url (mkState w1 (trace s)))
      as (s2 & -> & Hreq). cbn [trace] in Hreq.
    destruct (served url) as [e | data].
    - exists (inl e), s2. auto.
    - unfold bind at 1. unfold perform at 1.
      destruct (write_succeeds path data (world s2)) as [w3 ->].
      unfold ret. eexists _, _. split; [reflexivity|].
      split; [exact Hreq|]. cbn. auto. }
  destruct Hbody as (res & s' & Hbody & Hreq & Hres).
  rewrite Hbody in Hret.
  destruct (served url) as [e | data], res as [e' | r]; try contradiction.
  - subst e'. eexists _, s'. split; [exact Hret|].
    split; [exact Hreq|]. cbn. auto.
  - exists r, s'. split; [exact Hret|]. split; [exact Hreq|]. exact Hres.
Qed.

Lemma in_turn_served plan : forall s,
  exists ms s',
    in_turn plan s = (inr ms, s')
    /\ requests (trace s')
       = requests (trace s)
         ++ flat_map (fun d => replicate (calls_for (served (plan_url d)))
                                 (plan_url d)) plan
    /\ Forall2 (fun d m => outcome_of (served (plan_url d)) (metadata m)) plan ms.
Proof.
  induction plan as [|d plan IH]; intros s.
  - exists [], s. cbn. rewrite app_nil_r. repeat split. constructor.
  - destruct (download_served (plan_url d) (plan_path d) s)
      as (r & s1 & Hr & Hreq & Hout).
    destruct (IH s1) as (ms & s' & Hms & Hreqs & Hall).
    exists (mkMetadata (plan_source d) (plan_source_id d) r :: ms), s'.
    split; [|split].
    + unfold in_turn in *. cbn [download_in_turn]. unfold download in Hr.
      unfold bind at 1. rewrite Hr. unfold bind at 1. rewrite Hms. reflexivity.
    + rewrite Hreqs, Hreq. cbn [flat_map]. now rewrite <- app_assoc.
    + constructor; [exact Hout | exact Hall].
Qed.

End StatelessServer.

(** The first request of a download decides it when it is answered
    with the bytes or refused with a failure that is not transient. *)
Lemma download_first_request url path w tr w1 :
  mkdir_parents (path_parent path) w = (inr tt, w1) ->
  match http_get_bytes url w1 with
  | (inl e, w2) =>
      transient e = false ->
      download url path (mkState w tr)
      = (inr (failed url path (download_error_msg e)),
         mkState w2 (tr ++ [Call; HttpGet url]))
  | (inr data, w2) =>
      exists r,
        download url path (mkState w tr)
        = (inr r, mkState (write_file path data w2).2 (tr ++ [Call; HttpGet url]))
        /\ (success r = true <-> (write_file path data w2).1 = inr tt)
        /\ (success r = true -> file_size_bytes r = Z.of_nat (length data))
  end.
Proof.
  intros Hmk.
  pose proof (download_attachment_returns url path (mkState w tr)) as Hret.
  fold attempt_body download in Hret.
  unfold attempt_body, download_attachment_try in Hret.
  unfold bind at 1 in Hret. unfold perform at 1 in Hret.
  cbn [world trace] in Hret. rewrite Hmk in Hret.
  unfold bind at 1 in Hret.
  unfold _download_file, retry_on_transient_errors in Hret.
  rewrite attempts_range_eq in Hret. cbn [wrapper_loop] in Hret.
  unfold bind at 1 in Hret. unfold try_ in Hret. unfold bind at 1 in Hret.
  unfold emit at 1 in Hret. unfold bind at 1 in Hret. unfold emit at 1 in Hret.
  unfold perform at 1 in Hret. cbn [world trace] in Hret.
  rewrite <- app_assoc in Hret. cbn [app] in Hret.
  destruct (http_get_bytes url w1) as [[e | data] w2].
  - intros Ht.
    destruct e; cbn [transient] in Ht; try rewrite Ht in Hret; try discriminate;
      exact Hret.
  - unfold ret at 1 in Hret. unfold bind at 1 in Hret. unfold perform at 1 in Hret.
    cbn [world trace] in Hret.
    destruct (write_file path data w2) as [[e | []] w3]; cbn [fst snd].
    + eexists. split; [exact Hret|]. cbn. split; [split; discriminate | discriminate].
    + unfold ret in Hret. eexists. split; [exact Hret|]. cbn. tauto.
Qed.

(** C6.  The download phase never raises and produces exactly one
    record per discovered attachment, in discovery order (issue body
    first, then comment by comment): its records are those of the
    downloads attempted one after the other, each naming its
    attachment.  A download whose try block raises any exception
    yields a record with [success = false], size 0, size text [0 B],
    the destination as [file_location] and a non-empty [error], and
    the downloads after it are still made.  What a download asks of the
    server is part of the statement.  Once the destination directory is
    made the request is sent: a request refused with a failure that is
    not transient (a 403, a timeout) ends that download after this one
    request with the failure record of that exception, and bytes
    received give a record of their length, a success exactly when the
    write succeeds.  When directories and writes succeed and the answer
    of the server depends on the address only, the requests of the whole
    phase are those of the plan in its order, one per attachment and
    five for an address answered with a transient failure, and every
    record reports the answer to its own address: a failure with the
    message of that exception, or a success with the length of the
    bytes. *)
Theorem download_phase_one_record_each
    (issue_attachments : list AttachmentExtractor.Attachment)
    (comments : list Comment) (s : State World) :
  let plan := discovered path_div self_issue_number self_output_dir
                issue_attachments comments in
  exists stats records s',
    download_attachments http_get_bytes mkdir_parents write_file path_div
      path_name path_suffix path_parent path_absolute format_1f
      self_issue_number self_output_dir issue_attachments comments s
    = (inr (stats, records), s')
    /\ in_turn plan s = (inr records, s')
    /\ length records = length plan
    /\ Forall2 (record_of path_name path_absolute) plan records
    /\ Forall (fun m => failure_filled (metadata m)) records
    /\ stats_total_attachments stats = Z.of_nat (length plan)
    /\ stats_downloaded stats + stats_failed stats
       = stats_total_attachments stats
    /\ (forall url path s0,
          match attempt_body url path s0 with
          | (inl e, s1) =>
              exists r,
                download url path s0 = (inr r, s1)
                /\ success r = false
                /\ file_size_bytes r = 0
                /\ file_size r = "0 B"
                /\ file_location r = path_absolute path
                /\ error r = Some (download_error_msg e)
                /\ download_error_msg e <> EmptyString
          | (inr r, s1) =>
              download url path s0 = (inr r, s1) /\ success r = true
          end)
    /\ (forall url path w tr w1,
          mkdir_parents (path_parent path) w = (inr tt, w1) ->
          match http_get_bytes url w1 with
          | (inl e, w2) =>
              transient e = false ->
              download url path (mkState w tr)
              = (inr (failed url path (download_error_msg e)),
                 mkState w2 (tr ++ [Call; HttpGet url]))
          | (inr data, w2) =>
              exists r,
                download url path (mkState w tr)
                = (inr r, mkState (write_file path data w2).2
                            (tr ++ [Call; HttpGet url]))
                /\ (success r = true <-> (write_file path data w2).1 = inr tt)
                /\ (success r = true ->
                    file_size_bytes r = Z.of_nat (length data))
          end)
    /\ (forall served : string -> exception + list Byte.byte,
          (forall p w, exists w', mkdir_parents p w = (inr tt, w')) ->
          (forall p data w, exists w', write_file p data w = (inr tt, w')) ->
          (forall url w, exists w', http_get_bytes url w = (served url, w')) ->
          requests (trace s')
          = requests (trace s)
            ++ flat_map (fun d =>
                           replicate
                             (match served (plan_url d) with
                              | inl e => if transient e then 5%nat else 1%nat
                              | inr _ => 1%nat
                              end) (plan_url d)) plan
          /\ Forall2 (fun d m =>
                        match served (plan_url d) with
                        | inr data =>
                            success (metadata m) = true
                            /\ file_size_bytes (metadata m)
                               = Z.of_nat (length data)
                            /\ error (metadata m) = None
                        | inl e =>
                            success (metadata m) = false
                            /\ error (metadata m)
                               = Some (download_error_msg e)
                        end) plan records).
Proof.
  intros plan.
  destruct (download_in_turn_records plan s) as (ms & s' & Hrun & Hall & Hfill).
  pose proof (count_all_metadata ms (mkCounters 0 0 0 0 [])) as (Hmeta & Htot & Hsum).
  exists {| stats_total_attachments := total_attachments (count_all ms (mkCounters 0 0 0 0 []));
            stats_downloaded := downloaded_count (count_all ms (mkCounters 0 0 0 0 []));
            stats_failed := failed_count (count_all ms (mkCounters 0 0 0 0 []));
            stats_total_size :=
              format_file_size format_1f
                (total_size_bytes (count_all ms (mkCounters 0 0 0 0 [])));
            stats_total_size_bytes :=
              total_size_bytes (count_all ms (mkCounters 0 0 0 0 [])) |}, ms, s'.
  assert (Hlen : length ms = length plan)
    by (symmetry; eapply Forall2_length; eassumption).
  split; [|split; [exact Hrun|split; [exact Hlen|split; [exact Hall|split;
            [exact Hfill|split; [|split; [|split; [|split]]]]]]]].
  - unfold download_attachments. unfold bind at 1.
    fold each. rewrite download_each_in_turn.
    unfold plan, discovered in Hrun. rewrite in_turn_app in Hrun.
    unfold plan_issue in Hrun. fold issue_dir in Hrun.
    destruct (in_turn (map _ issue_attachments) s) as [[e1 | ms1] s1];
      [discriminate|].
    unfold bind at 1. rewrite download_comments_in_turn.
    destruct (in_turn (flat_map _ comments) s1) as [[e2 | ms2] s2];
      [discriminate|].
    injection Hrun as <- <-. unfold ret.
    rewrite <- count_all_app. simpl in Hmeta.
    now rewrite Hmeta.
  - simpl. rewrite Htot, Hlen. simpl. lia.
  - simpl. apply Hsum. reflexivity.
  - intros url path s0.
    pose proof (download_attachment_returns url path s0) as H.
    destruct (attempt_body url path s0) as [[e | r] s1] eqn:Hbody.
    + exists (failed url path (download_error_msg e)).
      split; [exact H|]. repeat split. apply download_error_msg_nonempty.
    + split; [exact H|].
      now destruct (download_try_record _ _ _ _ _ Hbody).
  - intros url path w tr w1 Hmk.
    exact (download_first_request url path w tr w1 Hmk).
  - intros served Hmk Hwr Hsrv.
    destruct (in_turn_served served Hmk Hwr Hsrv plan s)
      as (ms' & s'' & Hrun' & Hreq & Hout).
    rewrite Hrun in Hrun'. injection Hrun' as <- <-.
    split; [exact Hreq | exact Hout].
Qed.

End Downloads.

Lemma download_phase_one_record_each_witness :
  let issue_attachments :=
    [ sample_attachment "https://user-attachments.githubusercontent.com/files/1/a1b2.png?jwt=x";
      sample_attachment "https://user-attachments.githubusercontent.com/forbidden/c3d4.pdf" ] in
  let comments :=
    [ mkComment 11 "octocat" "2024-01-01T00:00:00Z" "see file" "<p>see file</p>"
        [ sample_attachment "https://user-attachments.githubusercontent.com/files/2/e5f6.zip" ] ] in
  let plan := discovered sample_div 7 "out" issue_attachments comments in
  let served := fun url => (sample_get_bytes url tt).1 in
  exists stats records s',
    download_attachments sample_get_bytes sample_mkdir sample_write sample_div
      sample_name sample_suffix sample_parent sample_absolute (fun _ _ => "0.0")
      7 "out" issue_attachments comments (start tt)
    = (inr (stats, records), s')
    /\ download_in_turn sample_get_bytes sample_mkdir sample_write
         sample_name sample_suffix sample_parent sample_absolute (fun _ _ => "0.0")
         plan (start tt) = (inr records, s')
    /\ length records = length plan
    /\ Forall2 (record_of sample_name sample_absolute) plan records
    /\ Forall (fun m => failure_filled (metadata m)) records
    /\ stats_total_attachments stats = Z.of_nat (length plan)
    /\ stats_downloaded stats + stats_failed stats = stats_total_attachments stats
    /\ (forall url path s0,
          match download_attachment_try sample_get_bytes sample_mkdir sample_write
                  sample_name sample_suffix sample_parent sample_absolute
                  (fun _ _ => "0.0") url path s0 with
          | (inl e, s1) =>
              exists r,
                download_attachment sample_get_bytes sample_mkdir sample_write
                  sample_name sample_suffix sample_parent sample_absolute
                  (fun _ _ => "0.0") url path s0 = (inr r, s1)
                /\ success r = false
                /\ file_size_bytes r = 0
                /\ file_size r = "0 B"
                /\ file_location r = sample_absolute path
                /\ error r = Some (download_error_msg e)
                /\ download_error_msg e <> EmptyString
          | (inr r, s1) =>
              download_attachment sample_get_bytes sample_mkdir sample_write
                sample_name sample_suffix sample_parent sample_absolute
                (fun _ _ => "0.0") url path s0 = (inr r, s1)
              /\ success r = true
          end)
    /\ download_attachment sample_get_bytes sample_mkdir sample_write
         sample_name sample_suffix sample_parent sample_absolute
         (fun _ _ => "0.0")
         "https://user-attachments.githubusercontent.com/forbidden/c3d4.pdf"
         "out/attachments/issue/c3d4.pdf" (start tt)
       = (inr (failed_download sample_name sample_absolute
                 "https://user-attachments.githubusercontent.com/forbidden/c3d4.pdf"
                 "out/attachments/issue/c3d4.pdf" "HTTP 403: Forbidden"),
          mkState tt
            [Call;
             HttpGet "https://user-attachments.githubusercontent.com/forbidden/c3d4.pdf"])
    /\ requests (trace s')
       = [ "https://user-attachments.githubusercontent.com/files/1/a1b2.png?jwt=x";
           "https://user-attachments.githubusercontent.com/forbidden/c3d4.pdf";
           "https://user-attachments.githubusercontent.com/files/2/e5f6.zip" ]
    /\ Forall2 (fun d m =>
                  match served (plan_url d) with
                  | inr data =>
                      success (metadata m) = true
                      /\ file_size_bytes (metadata m) = Z.of_nat (length data)
                      /\ error (metadata m) = None
                  | inl e =>
                      success (metadata m) = false
                      /\ error (metadata m) = Some (download_error_msg e)
                  end) plan records
    /\ map (fun m => (success (metadata m), file_size_bytes (metadata m),
                      error (metadata m))) records
       = [ (true, 3, None); (false, 0, Some "HTTP 403: Forbidden");
           (true, 3, None) ].
Proof.
  intros issue_attachments comments plan served.
  destruct (download_phase_one_record_each sample_get_bytes sample_mkdir
              sample_write sample_div sample_name sample_suffix sample_parent
              sample_absolute (fun _ _ => "0.0") 7 "out" issue_attachments
              comments (start tt))
    as (stats & records & s' & Hrun & Hturn & Hlen & Hrec & Hfill & Htot
        & Hsum & Htry & Hfirst & Hserved).
  destruct (Hserved served) as [Hreq Hout].
  { intros p []. now exists tt. }
  { intros p data []. now exists tt. }
  { intros url []. exists tt. unfold served, sample_get_bytes.
    now destruct (Py.str_in "forbidden" url). }
  exists stats, records, s'.
  split; [exact Hrun|]. split; [exact Hturn|]. split; [exact Hlen|].
  split; [exact Hrec|]. split; [exact Hfill|]. split; [exact Htot|].
  split; [exact Hsum|]. split; [exact Htry|].
  split; [|split; [exact Hreq|split; [exact Hout|]]].
  - exact (Hfirst
             "https://user-attachments.githubusercontent.com/forbidden/c3d4.pdf"
             "out/attachments/issue/c3d4.pdf" tt [] tt eq_refl eq_refl).
  - change plan with (discovered sample_div 7 "out" issue_attachments comments)
      in Hout, Hrec.
    vm_compute discovered in Hout, Hrec.
    destruct records as [|m1 [|m2 [|m3 [|m4 records]]]]; try discriminate Hlen.
    apply Forall2_cons_1 in Hout as [H1 Hout].
    apply Forall2_cons_1 in Hout as [H2 Hout].
    apply Forall2_cons_1 in Hout as [H3 _].
    apply Forall_cons_1 in Hfill as [_ Hfill].
    apply Forall_cons_1 in Hfill as [F2 _].
    cbn in H1, H2, H3. cbn [map].
    destruct H1 as (-> & -> & ->), H2 as (S2 & ->), H3 as (-> & -> & ->).
    rewrite S2. destruct (F2 S2) as (-> & _). reflexivity.
Defined.

(** The sample batch: the second of three downloads is refused with a
    403; its record is a failure record and the third download is still
    made and succeeds. *)
Example download_batch_with_403 :
  let issue_attachments :=
    [ sample_attachment "https://user-attachments.githubusercontent.com/files/1/a1b2.png?jwt=x";
      sample_attachment "https://user-attachments.githubusercontent.com/forbidden/c3d4.pdf" ] in
  let comments :=
    [ mkComment 11 "octocat" "2024-01-01T00:00:00Z" "see file" "<p>see file</p>"
        [ sample_attachment "https://user-attachments.githubusercontent.com/files/2/e5f6.zip" ] ] in
  let out := download_attachments sample_get_bytes sample_mkdir sample_write sample_div
               sample_name sample_suffix sample_parent sample_absolute (fun _ _ => "0.0")
               7 "out" issue_attachments comments (start tt) in
  match out.1 with
  | inr (stats, records) =>
      map metadata records
      = [ mkDownloadRecord
            "https://user-attachments.githubusercontent.com/files/1/a1b2.png"
            "png" "3 B" 3 "/work/out/attachments/issue/a1b2.png" "a1b2.png"
            true None;
          mkDownloadRecord
            "https://user-attachments.githubusercontent.com/forbidden/c3d4.pdf"
            "unknown" "0 B" 0 "/work/out/attachments/issue/c3d4.pdf" "c3d4.pdf"
            false (Some "HTTP 403: Forbidden");
          mkDownloadRecord
            "https://user-attachments.githubusercontent.com/files/2/e5f6.zip"
            "zip" "3 B" 3 "/work/out/attachments/comments/11/e5f6.zip" "e5f6.zip"
            true None ]
      /\ map (fun m => (source m, source_id m)) records
         = [("issue", 7); ("issue", 7); ("comment", 11)]
      /\ stats_failed stats = 1
      /\ requests (trace out.2)
         = [ "https://user-attachments.githubusercontent.com/files/1/a1b2.png?jwt=x";
             "https://user-attachments.githubusercontent.com/forbidden/c3d4.pdf";
             "https://user-attachments.githubusercontent.com/files/2/e5f6.zip" ]
  | inl _ => False
  end.
Proof. vm_compute. repeat split. Qed.

(* ===================================================================== *)
(** * Properties of the attachment extractor                              *)
(* ===================================================================== *)

Import AttachmentExtractor.

Lemma is_attachment_url_iff u :
  _is_attachment_url u = true
  <-> exists domain, In domain attachment_domains /\ Py.str_in domain u = true.
Proof.
  unfold _is_attachment_url. split.
  - destruct u as [|c u]; [discriminate|]. cbn [Py.truthy negb].
    intros H. apply existsb_exists in H. exact H.
  - intros (domain & Hin & Hsub).
    destruct u as [|c u].
    + simpl in Hin. destruct Hin as [<- | [<- | [<- | []]]]; discriminate.
    + cbn [Py.truthy negb]. apply existsb_exists. eauto.
Qed.

(** What [handle_starttag] appends: nothing, or one attachment whose
    address passed [_is_attachment_url]. *)
Lemma handle_starttag_appends tag attrs atts :
  handle_starttag tag attrs atts = atts
  \/ exists a, handle_starttag tag attrs atts = atts ++ [a]
               /\ _is_attachment_url (url a) = true
               /\ (tag_type a = "img" \/ tag_type a = "a" /\ dimensions a = None).
Proof.
  unfold handle_starttag.
  destruct (String.eqb tag "img").
  - destruct (default (Some EmptyString) (dict attrs !! "src")) as [src|]; [|now left].
    destruct (_is_attachment_url src) eqn:Hu; [|now left].
    right. eexists. split; [reflexivity|]. simpl. auto.
  - destruct (String.eqb tag "a"); [|now left].
    destruct (default (Some EmptyString) (dict attrs !! "href")) as [href|]; [|now left].
    destruct (_is_attachment_url href) eqn:Hu; [|now left].
    right. eexists. split; [reflexivity|]. simpl. auto.
Qed.

Lemma feed_from_only_attachment_urls events : forall atts,
  Forall (fun a => _is_attachment_url (url a) = true) atts ->
  Forall (fun a => _is_attachment_url (url a) = true)
         (foldl (fun atts ev => handle_starttag ev.1 ev.2 atts) atts events).
Proof.
  induction events as [|ev events IH]; intros atts Hatts; [exact Hatts|].
  simpl. apply IH.
  destruct (handle_starttag_appends ev.1 ev.2 atts) as [-> | (a & -> & Ha & _)];
    [exact Hatts|].
  apply Forall_app. split; [exact Hatts|]. now constructor.
Qed.

(** C2 (as the code has it).  A URL is classified as an attachment
    exactly when the URL text as a whole contains one of the three
    allow-listed strings: an img tag whose src, or an a tag whose href,
    contains one yields an attachment with that URL, and every
    attachment in the output of the extraction, whatever its tag, has
    such a URL. *)
Theorem attachment_iff_url_contains_allow_listed
    (start_tags : string -> option (list (string * attr_list))) :
  (forall u,
      _is_attachment_url u = true
      <-> exists domain, In domain attachment_domains /\ Py.str_in domain u = true)
  /\
  (forall attrs atts u,
      _is_attachment_url u = true ->
      (dict attrs !! "src" = Some (Some u) ->
       map url (handle_starttag "img" attrs atts) = map url atts ++ [u])
      /\ (dict attrs !! "href" = Some (Some u) ->
          map url (handle_starttag "a" attrs atts) = map url atts ++ [u]))
  /\
  (forall html a,
      In a (extract_attachments_from_html start_tags html) ->
      exists domain,
        In domain attachment_domains /\ Py.str_in domain (url a) = true).
Proof.
  split; [exact is_attachment_url_iff|]. split.
  - intros attrs atts u Hu. split; intros Hget.
    + unfold handle_starttag. simpl String.eqb. cbv iota.
      rewrite Hget. simpl. rewrite Hu. now rewrite map_app.
    + unfold handle_starttag. simpl String.eqb. cbv iota.
      rewrite Hget. simpl. rewrite Hu. now rewrite map_app.
  - intros html a Hin. apply is_attachment_url_iff.
    unfold extract_attachments_from_html in Hin.
    destruct (negb (Py.truthy html)); [destruct Hin|].
    destruct (start_tags html) as [events|]; [|destruct Hin].
    pose proof (feed_from_only_attachment_urls events [] (Forall_nil_2 _)) as Hall.
    rewrite Forall_forall in Hall. apply Hall. now apply list_elem_of_In.
Qed.

Lemma attachment_iff_url_contains_allow_listed_witness :
  let u := "https://user-attachments.githubusercontent.com/assets/ab12.png" in
  let tags := fun _ : string => Some [("img", [("src", Some u)])] in
  let a := mkAttachment u "ab12.png" "png" None "img" in
  (exists domain, In domain attachment_domains /\ Py.str_in domain u = true)
  /\ map url (handle_starttag "img" [("src", Some u)] []) = [u]
  /\ (exists domain, In domain attachment_domains /\ Py.str_in domain (url a) = true).
Proof.
  intros u tags a.
  pose proof (attachment_iff_url_contains_allow_listed tags) as (H1 & H2 & H3).
  split; [|split].
  - apply H1. reflexivity.
  - apply (proj1 (H2 [("src", Some u)] [] u eq_refl)). reflexivity.
  - apply (H3 "<img src=https://user-attachments.githubusercontent.com/assets/ab12.png>" a).
    vm_compute. left. reflexivity.
Defined.

(** C2 fails in the code: the src below has the host example.com, which
    matches no allow-listed domain, and yet the img tag, and likewise
    the a tag, yields an attachment with that URL, although the
    docstring of [_is_attachment_url] and its comment speak of GitHub
    attachment domains. *)
Lemma host_not_in_allow_list_still_extracted :
  let u := "https://example.com/github-production-user-asset/x.png" in
  Spec.url_host u = "example.com"
  /\ Spec.host_allow_listed u = false
  /\ _is_attachment_url u = true
  /\ map url (handle_starttag "img" [("src", Some u)] []) = [u]
  /\ map url (handle_starttag "a" [("href", Some u)] []) = [u]
  /\ ~ (forall v, _is_attachment_url v = true <-> Spec.host_allow_listed v = true).
Proof.
  repeat split; try reflexivity.
  intros H.
  specialize (H "https://example.com/github-production-user-asset/x.png").
  destruct H as [H _]. specialize (H eq_refl). vm_compute in H. discriminate.
Qed.

Lemma int_of_empty : PyInt.int EmptyString = None.
Proof. reflexivity. Qed.

(** [_extract_dimensions] keeps exactly the attributes that parse. *)
Lemma extract_dimensions_parsed (attrs : gmap string (option string)) :
  _extract_dimensions attrs
  = dims_of (attr_get attrs "width" ≫= PyInt.int)
            (attr_get attrs "height" ≫= PyInt.int).
Proof.
  unfold _extract_dimensions, given, set_int.
  destruct (attr_get attrs "width") as [[|c w]|];
    destruct (attr_get attrs "height") as [[|d h]|];
    cbn [Py.truthy orb mbind option_bind]; rewrite ?int_of_empty;
    try reflexivity;
    repeat match goal with
           | |- context [PyInt.int ?v] => destruct (PyInt.int v)
           end;
    cbn [dims_of];
    try (destruct (decide _) as [Heq | Hne];
         [ try (exfalso; revert Heq; apply insert_non_empty); try reflexivity
         | try reflexivity; try (exfalso; apply Hne; reflexivity) ]).
Qed.

(** C9.  For an img tag whose src is allow-listed the attachment carries
    the dimensions computed from the tag's attributes.  Width 800 and
    height 600 give both entries; width 800 alone gives the width entry
    only; neither gives no dimensions; in general an attribute that is
    missing, empty or not an integer is left out without any error (and
    no dimensions at all remain when both are left out).  An attachment
    from an a tag has no dimensions. *)
Theorem dimensions_from_width_and_height :
  (forall attrs atts src,
      dict attrs !! "src" = Some (Some src) ->
      _is_attachment_url src = true ->
      exists a,
        handle_starttag "img" attrs atts = atts ++ [a]
        /\ url a = src
        /\ dimensions a = _extract_dimensions (dict attrs))
  /\
  (forall d : gmap string (option string),
      attr_get d "width" = Some "800" -> attr_get d "height" = Some "600" ->
      _extract_dimensions d = Some (<["height" := 600]> (<["width" := 800]> ∅)))
  /\
  (forall d : gmap string (option string),
      attr_get d "width" = Some "800" -> attr_get d "height" = None ->
      _extract_dimensions d = Some (<["width" := 800]> ∅))
  /\
  (forall d : gmap string (option string),
      attr_get d "width" = None -> attr_get d "height" = None ->
      _extract_dimensions d = None)
  /\
  (forall d : gmap string (option string),
      _extract_dimensions d
      = dims_of (attr_get d "width" ≫= PyInt.int)
                (attr_get d "height" ≫= PyInt.int))
  /\
  (forall attrs atts a,
      In a (handle_starttag "a" attrs atts) -> In a atts \/ dimensions a = None).
Proof.
  split; [|split; [|split; [|split; [|split]]]].
  - intros attrs atts src Hsrc Hu. eexists.
    unfold handle_starttag. simpl String.eqb. cbv iota.
    rewrite Hsrc. simpl default. cbv iota. rewrite Hu.
    split; [reflexivity|]. split; reflexivity.
  - intros d Hw Hh. rewrite extract_dimensions_parsed, Hw, Hh. reflexivity.
  - intros d Hw Hh. rewrite extract_dimensions_parsed, Hw, Hh. reflexivity.
  - intros d Hw Hh. rewrite extract_dimensions_parsed, Hw, Hh. reflexivity.
  - exact extract_dimensions_parsed.
  - intros attrs atts a Hin.
    unfold handle_starttag in Hin. simpl String.eqb in Hin. cbv iota in Hin.
    destruct (default (Some EmptyString) (dict attrs !! "href")) as [href|];
      [|now left].
    destruct (_is_attachment_url href); [|now left].
    apply in_app_or in Hin. destruct Hin as [Hin | [<- | []]]; [now left|now right].
Qed.

Lemma dimensions_from_width_and_height_witness :
  let src := "https://user-attachments.githubusercontent.com/assets/ab12.png" in
  (exists a,
      handle_starttag "img"
        [("src", Some src); ("width", Some "800"); ("height", Some "600")] []
      = [] ++ [a]
      /\ url a = src
      /\ dimensions a
         = _extract_dimensions
             (dict [("src", Some src); ("width", Some "800"); ("height", Some "600")]))
  /\ _extract_dimensions (dict [("width", Some "800"); ("height", Some "600")])
     = Some (<["height" := 600]> (<["width" := 800]> ∅))
  /\ _extract_dimensions (dict [("src", Some src); ("width", Some "800")])
     = Some (<["width" := 800]> ∅)
  /\ _extract_dimensions (dict [("src", Some src)]) = None
  /\ _extract_dimensions (dict [("width", Some "wide"); ("height", Some "600")])
     = dims_of None (Some 600)
  /\ (In (mkAttachment src "ab12.png" "png" None "a") []
      \/ dimensions (mkAttachment src "ab12.png" "png" None "a") = None).
Proof.
  intros src.
  pose proof dimensions_from_width_and_height as (H1 & H2 & H3 & H4 & H5 & H6).
  split; [|split; [|split; [|split; [|split]]]].
  - apply H1; reflexivity.
  - apply H2; reflexivity.
  - apply H3; reflexivity.
  - apply H4; reflexivity.
  - apply (H5 (dict [("width", Some "wide"); ("height", Some "600")])).
  - apply (H6 [("href", Some src)] []). vm_compute. left. reflexivity.
Defined.

(** C7.  The two addresses below are the same up to the question mark
    and differ in the query string only, yet the derived file names
    differ, and each is a piece of the query string rather than the
    last path segment [report.pdf]: the search for the first pattern
    goes on past the question mark and finds a match inside the query
    string.  On the addresses of the specification's example the two
    names agree. *)
Theorem filename_can_come_from_query_string :
  let u1 := "https://user-attachments.githubusercontent.com/files/report.pdf?sig=Zm9v/ab.cd" in
  let u2 := "https://user-attachments.githubusercontent.com/files/report.pdf?sig=Zm9v/ef.01" in
  IssueDataFetcher.strip_query u1 = IssueDataFetcher.strip_query u2
  /\ _extract_filename (IssueDataFetcher.strip_query u1) = "report.pdf"
  /\ _extract_filename u1 = "ab.cd"
  /\ _extract_filename u2 = "ef.01"
  /\ _extract_filename u1 <> _extract_filename u2
  /\ _extract_filename "https://user-attachments.githubusercontent.com/assets/abc123-def.png?token=X"
     = _extract_filename "https://user-attachments.githubusercontent.com/assets/abc123-def.png?token=Y".
Proof. vm_compute. repeat split; discriminate. Qed.

(** The three tiers of the derivation, on sample addresses: the
    hex-and-extension pattern, the last path segment, the placeholder. *)
Example filename_tiers :
  _extract_filename "https://user-attachments.githubusercontent.com/assets/0a1b-2c3d.png?jwt=e30"
  = "0a1b-2c3d.png"
  /\ _extract_filename "https://user-attachments.githubusercontent.com/files/12/Report_Final.PDF?jwt=e30"
     = "Report_Final.PDF"
  /\ _extract_file_type "https://user-attachments.githubusercontent.com/files/12/Report_Final.PDF?jwt=e30"
     = "pdf"
  /\ _extract_filename "github-production-user-asset" = "unknown_file"
  /\ _extract_file_type "github-production-user-asset" = "unknown".
Proof. vm_compute. repeat split. Qed.

(** ** File names and query strings without a slash *)

Section QueryIndependence.
Variables q1 q2 : list ascii.

Let tail_k : list ascii -> option (list ascii) -> option (option (list ascii)) :=
  fun s g => Re.run (Re.Alt (Re.Lit "?") Re.Eos) s g (fun _ g' => Some g').

Lemma is_char_true c d : Py.is_char c d = true -> c = d.
Proof. unfold Py.is_char. now destruct (ascii_dec c d). Qed.

Lemma at_end_before_query (d : ascii) (a q : list ascii) :
  Re.at_end (d :: a ++ "?"%char :: q) = false.
Proof. simpl. now destruct a. Qed.

Lemma plus_loop_query_indep {X} cls (k1 k2 : list ascii -> option X) a :
  cls "?"%char = false ->
  has_char "?" a = false ->
  (forall b, has_char "?" b = false ->
             k1 (b ++ "?"%char :: q1) = k2 (b ++ "?"%char :: q2)) ->
  Re.plus_loop cls k1 (a ++ "?"%char :: q1)
  = Re.plus_loop cls k2 (a ++ "?"%char :: q2).
Proof.
  intros Hcls Ha Hk. induction a as [|c a IH].
  - simpl. now rewrite Hcls.
  - simpl in Ha. apply orb_false_iff in Ha. destruct Ha as [_ Ha].
    simpl. destruct (cls c); [|reflexivity].
    rewrite (IH Ha), (Hk a Ha). reflexivity.
Qed.

Lemma run_query_indep {X} r : forall a g (k1 k2 : list ascii -> option (list ascii) -> option X),
  avoids_query r = true ->
  has_char "?" a = false ->
  (forall b g', has_char "?" b = false ->
                k1 (b ++ "?"%char :: q1) g' = k2 (b ++ "?"%char :: q2) g') ->
  Re.run r (a ++ "?"%char :: q1) g k1 = Re.run r (a ++ "?"%char :: q2) g k2.
Proof.
  induction r as [c | cls | | r1 IH1 r2 IH2 | r1 IH1 r2 IH2 | r1 IH1];
    intros a g k1 k2 Hr Ha Hk; simpl in Hr.
  - destruct a as [|d a]; simpl.
    + apply negb_true_iff in Hr. now rewrite Hr.
    + simpl in Ha. apply orb_false_iff in Ha. destruct Ha as [_ Ha].
      destruct (Py.is_char c d); [now apply Hk | reflexivity].
  - simpl. apply plus_loop_query_indep; [now apply negb_true_iff | exact Ha |].
    intros b Hb. now apply Hk.
  - destruct a as [|d a].
    + simpl. destruct q1, q2; reflexivity.
    + cbn [Re.run app]. rewrite !at_end_before_query. reflexivity.
  - apply andb_true_iff in Hr. destruct Hr as [Hr1 Hr2]. simpl.
    rewrite (IH1 a g k1 k2 Hr1 Ha Hk), (IH2 a g k1 k2 Hr2 Ha Hk). reflexivity.
  - apply andb_true_iff in Hr. destruct Hr as [Hr1 Hr2]. simpl.
    apply IH1; [exact Hr1 | exact Ha |].
    intros b g' Hb. now apply IH2.
  - simpl. apply IH1; [exact Hr | exact Ha |].
    intros b g' Hb. rewrite Hk by exact Hb.
    f_equal. f_equal. rewrite !length_app. simpl.
    replace (length a + S (length q1) - (length b + S (length q1)))%nat
      with (length a - length b)%nat by lia.
    replace (length a + S (length q2) - (length b + S (length q2)))%nat
      with (length a - length b)%nat by lia.
    rewrite !take_app_le by lia. reflexivity.
Qed.

Lemma tail_query_indep b g :
  has_char "?" b = false ->
  tail_k (b ++ "?"%char :: q1) g = tail_k (b ++ "?"%char :: q2) g.
Proof.
  intros Hb. unfold tail_k. destruct b as [|d b].
  - reflexivity.
  - simpl in Hb. apply orb_false_iff in Hb. destruct Hb as [Hd _].
    cbn [Re.run app]. rewrite Hd, !at_end_before_query. reflexivity.
Qed.

Lemma run_lit_seq {X} c r d s g (k : list ascii -> option (list ascii) -> option X) :
  Re.run (Re.Seq (Re.Lit c) r) (d :: s) g k
  = if Py.is_char c d then Re.run r s g k else None.
Proof. reflexivity. Qed.

Lemma run_seq {X} r1 r2 s g (k : list ascii -> option (list ascii) -> option X) :
  Re.run (Re.Seq r1 r2) s g k
  = Re.run r1 s g (fun s' g' => Re.run r2 s' g' k).
Proof. reflexivity. Qed.

Lemma segment_run_query_indep body a :
  avoids_query body = true ->
  has_char "?" a = false ->
  Re.run (segment_pattern body) (a ++ "?"%char :: q1) None (fun _ g => Some g)
  = Re.run (segment_pattern body) (a ++ "?"%char :: q2) None (fun _ g => Some g).
Proof.
  intros Hbody Ha. unfold segment_pattern.
  destruct a as [|d a]; [reflexivity|].
  simpl in Ha. apply orb_false_iff in Ha. destruct Ha as [_ Ha].
  cbn [app]. rewrite !run_lit_seq.
  destruct (Py.is_char "/" d); [|reflexivity].
  rewrite !run_seq.
  apply (run_query_indep (Re.Group body)); [exact Hbody | exact Ha |].
  intros b g' Hb. apply (tail_query_indep b g' Hb).
Qed.

Lemma segment_search_no_slash body q :
  has_char "/" q = false ->
  Re.search_from (segment_pattern body) q = None.
Proof.
  induction q as [|c q IH]; intros Hq; [reflexivity|].
  simpl in Hq. apply orb_false_iff in Hq. destruct Hq as [Hc Hq].
  cbn [Re.search_from]. unfold segment_pattern at 1. rewrite run_lit_seq, Hc.
  now apply IH.
Qed.

Lemma segment_search_query_indep body a :
  avoids_query body = true ->
  has_char "?" a = false ->
  has_char "/" q1 = false -> has_char "/" q2 = false ->
  Re.search_from (segment_pattern body) (a ++ "?"%char :: q1)
  = Re.search_from (segment_pattern body) (a ++ "?"%char :: q2).
Proof.
  intros Hbody Ha Hq1 Hq2. induction a as [|d a IH].
  - rewrite !segment_search_no_slash; [reflexivity | |]; simpl; assumption.
  - pose proof (segment_run_query_indep body (d :: a) Hbody Ha) as Hrun.
    simpl in Ha. apply orb_false_iff in Ha. destruct Ha as [_ Ha].
    change ((d :: a) ++ "?"%char :: q1) with (d :: (a ++ "?"%char :: q1)) in *.
    change ((d :: a) ++ "?"%char :: q2) with (d :: (a ++ "?"%char :: q2)) in *.
    cbn [Re.search_from]. rewrite Hrun, (IH Ha). reflexivity.
Qed.

End QueryIndependence.

Lemma chars_append s t : Py.chars (s +:+ t) = Py.chars s ++ Py.chars t.
Proof. induction s as [|c s IH]; simpl; [reflexivity|]. now rewrite IH. Qed.

(** Where neither query string contains a slash, the derived file name
    does not depend on the query string. *)
Lemma filename_same_for_slash_free_queries (p q1 q2 : string) :
  has_char "?" (Py.chars p) = false ->
  has_char "/" (Py.chars q1) = false ->
  has_char "/" (Py.chars q2) = false ->
  _extract_filename (p +:+ String "?" q1) = _extract_filename (p +:+ String "?" q2).
Proof.
  intros Hp Hq1 Hq2. unfold _extract_filename, Re.search.
  rewrite !chars_append.
  change (Py.chars (String "?" q1)) with ("?"%char :: Py.chars q1).
  change (Py.chars (String "?" q2)) with ("?"%char :: Py.chars q2).
  change UUID_FILENAME
    with (segment_pattern (Re.Seq (Re.Plus Re.hex_or_dash)
                             (Re.Seq (Re.Lit ".") (Re.Plus Re.word)))).
  change LAST_SEGMENT with (segment_pattern (Re.Plus Re.not_slash_or_query)).
  rewrite (segment_search_query_indep (Py.chars q1) (Py.chars q2)
             (Re.Seq (Re.Plus Re.hex_or_dash) (Re.Seq (Re.Lit ".") (Re.Plus Re.word)))
             (Py.chars p))
    by (try reflexivity; assumption).
  rewrite (segment_search_query_indep (Py.chars q1) (Py.chars q2)
             (Re.Plus Re.not_slash_or_query) (Py.chars p))
    by (try reflexivity; assumption).
  reflexivity.
Qed.

(* ===================================================================== *)
(** * Properties of the priority classification                           *)
(* ===================================================================== *)

Import Stats.

(** The loop started with any priority: [critical] anywhere wins, else
    [high] anywhere, else a priority already set stays, else the first
    label naming medium or low decides. *)
Lemma priority_loop_rule labels : forall priority,
  priority_loop labels priority
  = if existsb (has_word "critical") labels then "critical"
    else if existsb (has_word "high") labels then "high"
    else if String.eqb priority "unprioritized" then
           match List.find (fun l => has_word "medium" l
                                     || has_word "low" l) labels with
           | Some l => if has_word "medium" l then "medium" else "low"
           | None => "unprioritized"
           end
    else priority.
Proof.
  induction labels as [|l labels IH]; intros priority.
  - simpl. destruct (String.eqb priority "unprioritized") eqn:E; [|reflexivity].
    now apply String.eqb_eq in E.
  - cbn [priority_loop existsb List.find].
    change (Py.str_in "critical" (Py.lower (name l))) with (has_word "critical" l).
    change (Py.str_in "high" (Py.lower (name l))) with (has_word "high" l).
    change (Py.str_in "medium" (Py.lower (name l))) with (has_word "medium" l).
    change (Py.str_in "low" (Py.lower (name l))) with (has_word "low" l).
    destruct (has_word "critical" l); [reflexivity|].
    destruct (has_word "high" l).
    { rewrite IH. cbn [orb].
      destruct (existsb (has_word "critical") labels); [reflexivity|].
      destruct (existsb (has_word "high") labels); reflexivity. }
    cbn [orb].
    destruct (String.eqb priority "unprioritized") eqn:E.
    + destruct (has_word "medium" l) eqn:Hm.
      { cbn [andb orb]. rewrite IH, Hm.
        destruct (existsb (has_word "critical") labels); [reflexivity|].
        destruct (existsb (has_word "high") labels); reflexivity. }
      destruct (has_word "low" l) eqn:Hl.
      { cbn [andb orb]. rewrite IH, Hm.
        destruct (existsb (has_word "critical") labels); [reflexivity|].
        destruct (existsb (has_word "high") labels); reflexivity. }
      cbn [andb orb]. rewrite IH, E. reflexivity.
    + rewrite !andb_false_r. rewrite IH, E. reflexivity.
Qed.

Lemma prefix_lower a b :
  String.prefix a b = true -> String.prefix (Py.lower a) (Py.lower b) = true.
Proof.
  revert b. induction a as [|c a IH]; intros b H; [now destruct b|].
  destruct b as [|d b]; [discriminate|]. simpl in *.
  destruct (ascii_dec c d) as [-> | ]; [|discriminate].
  destruct (ascii_dec (Py.lower_char d) (Py.lower_char d)); [|congruence].
  now apply IH.
Qed.

Lemma str_in_lower a b :
  Py.str_in a b = true -> Py.str_in (Py.lower a) (Py.lower b) = true.
Proof.
  induction b as [|d b IH]; intros H.
  - simpl in *. now apply (prefix_lower a EmptyString).
  - cbn [Py.str_in] in H. apply orb_true_iff in H.
    change (Py.lower (String d b)) with (String (Py.lower_char d) (Py.lower b)).
    cbn [Py.str_in]. apply orb_true_iff. destruct H as [H | H].
    + left. now apply (prefix_lower a (String d b)).
    + right. now apply IH.
Qed.

(** C8 (as the code has it).  The priority is critical when some label
    names critical, in any position; otherwise high when some label
    names high, in any position; otherwise it is decided by the first
    label that names medium or low (medium if that label names medium,
    low if not); otherwise unprioritized.  In particular a label whose
    name contains [critical] gives critical whatever comes before or
    after it, a label naming high included. *)
Theorem priority_first_of_medium_low :
  (forall labels,
      issue_priority labels
      = if existsb (has_word "critical") labels then "critical"
        else if existsb (has_word "high") labels then "high"
        else match List.find (fun l => has_word "medium" l
                                       || has_word "low" l) labels with
             | Some l => if has_word "medium" l then "medium" else "low"
             | None => "unprioritized"
             end)
  /\
  (forall before l after,
      Py.str_in "critical" (name l) = true ->
      issue_priority (before ++ l :: after) = "critical")
  /\
  (forall before l after,
      Py.str_in "high" (name l) = true ->
      existsb (has_word "critical") (before ++ l :: after) = false ->
      issue_priority (before ++ l :: after) = "high").
Proof.
  split; [|split].
  - intros labels. unfold issue_priority. now rewrite priority_loop_rule.
  - intros before l after Hl. unfold issue_priority. rewrite priority_loop_rule.
    pose proof (str_in_lower "critical" (name l) Hl) as Hc.
    change (has_word "critical" l = true) in Hc.
    rewrite existsb_app. cbn [existsb]. rewrite Hc.
    now rewrite orb_true_r.
  - intros before l after Hl Hnc. unfold issue_priority. rewrite priority_loop_rule.
    pose proof (str_in_lower "high" (name l) Hl) as Hh.
    change (has_word "high" l = true) in Hh.
    rewrite Hnc. rewrite existsb_app. cbn [existsb]. rewrite Hh.
    now rewrite orb_true_r.
Qed.

Lemma priority_first_of_medium_low_witness :
  issue_priority [mkLabel "bug"; mkLabel "priority: high"; mkLabel "Critical path"]
  = "critical"
  /\ issue_priority ([mkLabel "priority: high"] ++ mkLabel "critical" :: [mkLabel "low"])
     = "critical"
  /\ issue_priority ([mkLabel "low"] ++ mkLabel "high" :: [mkLabel "medium"])
     = "high".
Proof.
  pose proof priority_first_of_medium_low as (H1 & H2 & H3).
  split; [|split].
  - rewrite H1. reflexivity.
  - apply H2. reflexivity.
  - apply H3; reflexivity.
Defined.

(** C8 (as stated) fails: with a low label before a medium label the
    code answers low, where the precedence medium > low asks for
    medium. *)
Lemma low_before_medium_gives_low :
  let labels := [mkLabel "priority: low"; mkLabel "priority: medium"] in
  issue_priority labels = "low"
  /\ Spec.precedence_priority labels = "medium"
  /\ ~ (forall ls, issue_priority ls = Spec.precedence_priority ls).
Proof.
  repeat split; try reflexivity.
  intros H.
  specialize (H [mkLabel "priority: low"; mkLabel "priority: medium"]).
  vm_compute in H. discriminate.
Qed.

(* ===================================================================== *)
(** * Further properties of the retry decorator                           *)
(* ===================================================================== *)

(** One attempt of the loop, by the outcome of the call. *)
Ltac retry_attempt op w :=
  let e := fresh "e" in
  let v := fresh "v" in
  let w' := fresh "w" in
  let Hop := fresh "Hop" in
  let Ht := fresh "Ht" in
  destruct (op w) as [[e | v] w'] eqn:Hop;
  [ destruct (transient e) eqn:Ht;
    [ first [ rewrite (wrapper_loop_retry op _ _ _ _ _ _ _ _ Hop Ht) by reflexivity
            | rewrite (wrapper_loop_giveup op _ _ _ _ _ _ _ _ Hop Ht)
                by (unfold MAX_RETRIES; lia) ]
    | rewrite (wrapper_loop_fatal op _ _ _ _ _ _ _ _ Hop Ht) ]
  | rewrite (wrapper_loop_success op _ _ _ _ _ _ _ _ Hop) ].

(** X1.  Whatever the wrapped operation does, the decorated function
    calls it at least once and at most five times, sleeps exactly once
    between two consecutive calls, and the sleeps are the first ones of
    1, 2, 4, 8 seconds: 15 seconds of waiting at most. *)
Theorem retry_calls_and_sleeps_bounded {World A}
    (op : World -> (exception + A) * World) (w : World) :
  let out := retry_on_transient_errors (perform op) (start w) in
  (1 <= calls (trace out.2) <= 5)%nat
  /\ calls (trace out.2) = S (length (sleeps (trace out.2)))
  /\ sleeps (trace out.2) = take (length (sleeps (trace out.2))) [1; 2; 4; 8]
  /\ foldr Z.add 0 (sleeps (trace out.2)) <= 15.
Proof.
  intros out. subst out.
  unfold retry_on_transient_errors, start. rewrite attempts_range_eq.
  retry_attempt op w; [| vm_compute; repeat split; lia || congruence ..].
  retry_attempt op w0; [| vm_compute; repeat split; lia || congruence ..].
  retry_attempt op w1; [| vm_compute; repeat split; lia || congruence ..].
  retry_attempt op w2; [| vm_compute; repeat split; lia || congruence ..].
  retry_attempt op w3; rewrite ?(wrapper_loop_done op _ _ _ _ eq_refl);
    vm_compute; repeat split; lia || congruence.
Qed.

(** X2.  After [j] transient failures in a row ([j] at most 4, HTTP
    502/503/504 or network errors in any mix), the outcome of the next
    call, if it is a success or a failure that is not transient, is the
    outcome of the decorated function: [j + 1] calls, and the waits are
    the first [j] of 1, 2, 4, 8 seconds. *)
Theorem retry_ends_at_first_settled_call {World A}
    (op : World -> (exception + A) * World) (w : World) (j : nat) :
  (j <= 4)%nat ->
  (forall i, (i < j)%nat ->
     exists e, (op (world_after op i w)).1 = inl e /\ transient e = true) ->
  match (op (world_after op j w)).1 with
  | inl e => transient e = false
  | inr _ => True
  end ->
  let out := retry_on_transient_errors (perform op) (start w) in
  out.1 = (op (world_after op j w)).1
  /\ world out.2 = world_after op (S j) w
  /\ calls (trace out.2) = S j
  /\ sleeps (trace out.2) = take j [1; 2; 4; 8].
Proof.
  intros Hj Htrans Hlast out. subst out.
  unfold retry_on_transient_errors, start. rewrite attempts_range_eq.
  assert (Hstep : forall i, (i < j)%nat ->
            exists e, op (world_after op i w) = (inl e, world_after op (S i) w)
                      /\ transient e = true).
  { intros i Hi. destruct (Htrans i Hi) as (e & He & Ht). exists e. split; [|exact Ht].
    rewrite (outcome_eq op _ _ He). f_equal.
    clear. revert w. induction i as [|i IH]; intros w; [reflexivity|]. simpl. apply IH. }
  assert (Hend : op (world_after op j w)
                 = ((op (world_after op j w)).1, world_after op (S j) w)).
  { rewrite (pair_eta (op (world_after op j w))) at 1. f_equal.
    clear. revert w. induction j as [|j IH]; intros w; [reflexivity|]. simpl. apply IH. }
  assert (Hsettle : forall attempt rest last delay tr,
            wrapper_loop (perform op) (attempt :: rest) last delay
              (mkState (world_after op j w) tr)
            = ((op (world_after op j w)).1,
               mkState (world_after op (S j) w) (tr ++ [Call]))).
  { intros attempt rest last delay tr.
    destruct (op (world_after op j w)).1 as [e | v] eqn:Hout.
    - apply wrapper_loop_fatal; [exact Hend | exact Hlast].
    - apply wrapper_loop_success; exact Hend. }
  destruct j as [|[|[|[|[|j]]]]]; [..|lia].
  - rewrite Hsettle. repeat split.
  - destruct (Hstep 0%nat ltac:(lia)) as (e0 & H0 & T0).
    rewrite (wrapper_loop_retry op _ _ _ _ _ _ _ _ H0 T0) by reflexivity.
    rewrite Hsettle. repeat split.
  - destruct (Hstep 0%nat ltac:(lia)) as (e0 & H0 & T0).
    destruct (Hstep 1%nat ltac:(lia)) as (e1 & H1 & T1).
    rewrite (wrapper_loop_retry op _ _ _ _ _ _ _ _ H0 T0) by reflexivity.
    rewrite (wrapper_loop_retry op _ _ _ _ _ _ _ _ H1 T1) by reflexivity.
    rewrite Hsettle. repeat split.
  - destruct (Hstep 0%nat ltac:(lia)) as (e0 & H0 & T0).
    destruct (Hstep 1%nat ltac:(lia)) as (e1 & H1 & T1).
    destruct (Hstep 2%nat ltac:(lia)) as (e2 & H2 & T2).
    rewrite (wrapper_loop_retry op _ _ _ _ _ _ _ _ H0 T0) by reflexivity.
    rewrite (wrapper_loop_retry op _ _ _ _ _ _ _ _ H1 T1) by reflexivity.
    rewrite (wrapper_loop_retry op _ _ _ _ _ _ _ _ H2 T2) by reflexivity.
    rewrite Hsettle. repeat split.
  - destruct (Hstep 0%nat ltac:(lia)) as (e0 & H0 & T0).
    destruct (Hstep 1%nat ltac:(lia)) as (e1 & H1 & T1).
    destruct (Hstep 2%nat ltac:(lia)) as (e2 & H2 & T2).
    destruct (Hstep 3%nat ltac:(lia)) as (e3 & H3 & T3).
    rewrite (wrapper_loop_retry op _ _ _ _ _ _ _ _ H0 T0) by reflexivity.
    rewrite (wrapper_loop_retry op _ _ _ _ _ _ _ _ H1 T1) by reflexivity.
    rewrite (wrapper_loop_retry op _ _ _ _ _ _ _ _ H2 T2) by reflexivity.
    rewrite (wrapper_loop_retry op _ _ _ _ _ _ _ _ H3 T3) by reflexivity.
    rewrite Hsettle. repeat split.
Qed.

Lemma retry_ends_at_first_settled_call_witness :
  let script := [inl (HTTPError 503 "Service Unavailable" None);
                 inl (URLError "Connection refused");
                 inl (HTTPError 404 "Not Found" None);
                 inr 7] in
  let out := retry_on_transient_errors
               (perform (scripted (A := Z) (inr 0))) (start script) in
  out.1 = inl (HTTPError 404 "Not Found" None)
  /\ world out.2 = [inr 7]
  /\ calls (trace out.2) = 3%nat
  /\ sleeps (trace out.2) = [1; 2].
Proof.
  intros script.
  apply (retry_ends_at_first_settled_call (scripted (A := Z) (inr 0)) script 2).
  - lia.
  - intros i Hi. assert (i = 0 \/ i = 1)%nat as [-> | ->] by lia;
      eexists; split; reflexivity.
  - reflexivity.
Defined.

(* ===================================================================== *)
(** * Further properties of the attachment extractor                      *)
(* ===================================================================== *)

Lemma handle_starttag_qualifying tag attrs atts :
  match qualifying_url (tag, attrs) with
  | Some u =>
      exists a, handle_starttag tag attrs atts = atts ++ [a]
                /\ url a = u
                /\ filename a = _extract_filename u
                /\ file_type a = _extract_file_type u
                /\ tag_type a = tag
  | None => handle_starttag tag attrs atts = atts
  end.
Proof.
  unfold qualifying_url, handle_starttag. cbn [fst snd].
  destruct (String.eqb tag "img") eqn:Eimg.
  - apply String.eqb_eq in Eimg. subst tag.
    destruct (dict attrs !! "src") as [[u|]|]; cbv [from_option Datatypes.id].
    + destruct (_is_attachment_url u); [|reflexivity].
      eexists. split; [reflexivity|]. cbn. auto.
    + reflexivity.
    + reflexivity.
  - destruct (String.eqb tag "a") eqn:Ea; [|reflexivity].
    apply String.eqb_eq in Ea. subst tag.
    destruct (dict attrs !! "href") as [[u|]|]; cbv [from_option Datatypes.id].
    + destruct (_is_attachment_url u); [|reflexivity].
      eexists. split; [reflexivity|]. cbn. auto.
    + reflexivity.
    + reflexivity.
Qed.

Lemma feed_from_qualifying events : forall atts,
  let out := foldl (fun atts ev => handle_starttag ev.1 ev.2 atts) atts events in
  map url out = map url atts ++ omap qualifying_url events
  /\ (Forall (fun a => filename a = _extract_filename (url a)
                       /\ file_type a = _extract_file_type (url a)) atts ->
      Forall (fun a => filename a = _extract_filename (url a)
                       /\ file_type a = _extract_file_type (url a)) out).
Proof.
  induction events as [|[tag attrs] events IH]; intros atts out; subst out.
  - simpl. rewrite app_nil_r. auto.
  - cbn [foldl fst snd].
    pose proof (handle_starttag_qualifying tag attrs atts) as H.
    destruct (IH (handle_starttag tag attrs atts)) as [IHu IHf].
    change (omap qualifying_url ((tag, attrs) :: events))
      with (match qualifying_url (tag, attrs) with
            | Some u => u :: omap qualifying_url events
            | None => omap qualifying_url events
            end).
    destruct (qualifying_url (tag, attrs)) as [u|].
    + destruct H as (a & Ha & Hu & Hn & Ht & _). rewrite Ha in *.
      split.
      * rewrite IHu, map_app. simpl. rewrite Hu, <- app_assoc. reflexivity.
      * intros Hatts. apply IHf. apply Forall_app. split; [exact Hatts|].
        constructor; [|constructor]. rewrite Hu. auto.
    + rewrite H in *. split; [exact IHu | exact IHf].
Qed.

(** X3.  The extraction yields, in document order, exactly one
    attachment for each img start tag whose src, and each a start tag
    whose href, passes the allow-list test, and nothing for any other
    tag; each attachment's file name and type are derived from its own
    URL.  An empty document and a document on which the parser raises
    yield no attachment. *)
Theorem extraction_one_attachment_per_qualifying_tag
    (start_tags : string -> option (list (string * attr_list))) :
  (forall events,
      map url (feed events) = omap qualifying_url events
      /\ length (feed events) = length (omap qualifying_url events)
      /\ Forall (fun a => filename a = _extract_filename (url a)
                          /\ file_type a = _extract_file_type (url a))
                (feed events))
  /\
  (forall html events,
      html <> EmptyString -> start_tags html = Some events ->
      map url (extract_attachments_from_html start_tags html)
      = omap qualifying_url events)
  /\
  (forall html,
      html = EmptyString \/ start_tags html = None ->
      extract_attachments_from_html start_tags html = []).
Proof.
  split; [|split].
  - intros events. destruct (feed_from_qualifying events []) as [Hu Hf].
    fold (feed events) in Hu, Hf. simpl in Hu.
    split; [exact Hu|]. split.
    + rewrite <- Hu. now rewrite length_map.
    + apply Hf. constructor.
  - intros html events Hne Htags. unfold extract_attachments_from_html.
    destruct html as [|c html]; [congruence|]. cbn [Py.truthy negb].
    rewrite Htags. destruct (feed_from_qualifying events []) as [Hu _].
    exact Hu.
  - intros html [-> | Hnone]; unfold extract_attachments_from_html.
    + reflexivity.
    + rewrite Hnone. now destruct (negb (Py.truthy html)).
Qed.

Lemma extraction_one_attachment_per_qualifying_tag_witness :
  let good := "https://user-attachments.githubusercontent.com/assets/ab12.png" in
  let events :=
    [ ("p", []); ("img", [("src", Some good); ("width", Some "10")]);
      ("img", [("src", Some "https://example.com/logo.png")]);
      ("a", [("href", Some good)]); ("a", [("name", Some "top")]) ] in
  let tags := fun _ : string => Some events in
  map url (extract_attachments_from_html tags "<p>...</p>") = [good; good]
  /\ extract_attachments_from_html (fun _ => None) "<p>...</p>" = [].
Proof.
  intros good events tags.
  pose proof (extraction_one_attachment_per_qualifying_tag tags) as (_ & H2 & _).
  pose proof (extraction_one_attachment_per_qualifying_tag (fun _ => None))
    as (_ & _ & H3).
  split.
  - apply (H2 "<p>...</p>" events); [discriminate | reflexivity].
  - apply H3. right. reflexivity.
Defined.

(** ** What a match can capture *)

Lemma in_all_ascii c : In c all_ascii.
Proof.
  unfold all_ascii. rewrite <- (ascii_nat_embedding c).
  apply in_map. apply in_seq. pose proof (nat_ascii_bounded c). lia.
Qed.

Lemma plus_loop_sound {X} cls (k : list ascii -> option X) s x :
  Re.plus_loop cls k s = Some x ->
  exists pre s', s = pre ++ s' /\ pre <> []
                 /\ Forall (fun c => cls c = true) pre /\ k s' = Some x.
Proof.
  induction s as [|c s IH]; simpl; [discriminate|].
  destruct (cls c) eqn:Hc; [|discriminate].
  destruct (Re.plus_loop cls k s) as [y|] eqn:Hloop.
  - intros [= ->]. destruct (IH eq_refl) as (pre & s' & -> & _ & Hall & Hk).
    exists (c :: pre), s'. repeat split; [discriminate | now constructor | exact Hk].
  - intros Hk. exists [c], s. repeat split; [discriminate | | exact Hk].
    constructor; [exact Hc | constructor].
Qed.

Lemma run_sound {X} (P : ascii -> bool) r :
  group_free r = true -> consumes_only P r = true ->
  forall s g (k : list ascii -> option (list ascii) -> option X) x,
    Re.run r s g k = Some x ->
    exists pre s', s = pre ++ s'
                   /\ Forall (fun c => P c = true) pre
                   /\ (never_empty r = true -> pre <> [])
                   /\ k s' g = Some x.
Proof.
  induction r as [c | cls | | r1 IH1 r2 IH2 | r1 IH1 r2 IH2 | r1 IH1];
    cbn [group_free consumes_only never_empty Re.run];
    intros Hgf Hco s g k x Hrun.
  - destruct s as [|d s]; [discriminate|].
    destruct (Py.is_char c d) eqn:Hcd; [|discriminate].
    apply is_char_true in Hcd. subst d.
    exists [c], s. repeat split; [ | discriminate | exact Hrun].
    constructor; [exact Hco | constructor].
  - apply plus_loop_sound in Hrun. destruct Hrun as (pre & s' & -> & Hne & Hall & Hk).
    exists pre, s'. repeat split; [ | auto | exact Hk].
    rewrite forallb_forall in Hco.
    eapply Forall_impl; [exact Hall|]. intros c Hc. cbv beta in *.
    specialize (Hco c (in_all_ascii c)). now rewrite Hc in Hco.
  - destruct (Re.at_end s); [|discriminate].
    exists [], s. repeat split; [constructor | discriminate | exact Hrun].
  - apply andb_true_iff in Hgf, Hco. destruct Hgf as [G1 G2], Hco as [C1 C2].
    destruct (Re.run r1 s g k) as [y|] eqn:H1.
    + injection Hrun as ->.
      destruct (IH1 G1 C1 _ _ _ _ H1) as (pre & s' & -> & Hall & Hne & Hk).
      exists pre, s'. repeat split; [exact Hall | | exact Hk].
      intros Hn. apply andb_true_iff in Hn. now apply Hne.
    + destruct (IH2 G2 C2 _ _ _ _ Hrun) as (pre & s' & -> & Hall & Hne & Hk).
      exists pre, s'. repeat split; [exact Hall | | exact Hk].
      intros Hn. apply andb_true_iff in Hn. now apply Hne.
  - apply andb_true_iff in Hgf, Hco. destruct Hgf as [G1 G2], Hco as [C1 C2].
    destruct (IH1 G1 C1 _ _ _ _ Hrun) as (pre1 & s1 & -> & Hall1 & Hne1 & Hk1).
    destruct (IH2 G2 C2 _ _ _ _ Hk1) as (pre2 & s2 & -> & Hall2 & Hne2 & Hk2).
    exists (pre1 ++ pre2), s2. repeat split.
    + now rewrite app_assoc.
    + apply Forall_app. now split.
    + intros Hn. apply orb_true_iff in Hn. intros Happ.
      apply app_eq_nil in Happ. destruct Happ as [E1 E2].
      destruct Hn as [Hn | Hn]; [now apply Hne1 | now apply Hne2].
    + exact Hk2.
  - discriminate.
Qed.

Lemma segment_run_capture (P : ascii -> bool) body s x :
  group_free body = true -> consumes_only P body = true ->
  never_empty body = true ->
  Re.run (segment_pattern body) s None (fun _ g => Some g) = Some x ->
  exists cap, x = Some cap /\ cap <> [] /\ Forall (fun c => P c = true) cap.
Proof.
  intros Hgf Hco Hne Hrun. unfold segment_pattern in Hrun.
  destruct s as [|d s]; [discriminate|].
  rewrite run_lit_seq in Hrun. destruct (Py.is_char "/" d); [|discriminate].
  rewrite run_seq in Hrun. cbn [Re.run] in Hrun.
  match type of Hrun with
  | Re.run body s None ?k = _ =>
      destruct (run_sound P body Hgf Hco s None k x Hrun)
        as (pre & s' & -> & Hall & Hpre & Hk)
  end.
  cbv beta in Hk.
  rewrite length_app in Hk.
  replace (length pre + length s' - length s')%nat with (length pre) in Hk by lia.
  rewrite take_app_length in Hk.
  exists pre. split; [|split; [now apply Hpre | exact Hall]].
  destruct s' as [|q s']; cbn [Re.run] in Hk.
  - simpl in Hk. congruence.
  - destruct (Py.is_char "?" q); [congruence|].
    destruct (Re.at_end (q :: s')); congruence.
Qed.

Lemma segment_search_capture (P : ascii -> bool) body s x :
  group_free body = true -> consumes_only P body = true ->
  never_empty body = true ->
  Re.search_from (segment_pattern body) s = Some x ->
  exists cap, x = Some cap /\ cap <> [] /\ Forall (fun c => P c = true) cap.
Proof.
  intros Hgf Hco Hne. induction s as [|d s IH]; cbn [Re.search_from].
  - destruct (Re.run (segment_pattern body) [] None (fun _ g => Some g)) eqn:Hrun;
      [|discriminate].
    intros [= ->]. eapply segment_run_capture; eassumption.
  - destruct (Re.run (segment_pattern body) (d :: s) None (fun _ g => Some g)) eqn:Hrun.
    + intros [= ->]. eapply segment_run_capture; eassumption.
    + exact IH.
Qed.

Lemma str_of_nonempty cap : cap <> [] -> Py.str cap <> EmptyString.
Proof. destruct cap; [congruence | discriminate]. Qed.

Lemma has_char_false_of_Forall c (P : ascii -> bool) l :
  P c = false -> Forall (fun d => P d = true) l -> has_char c l = false.
Proof.
  intros Hc Hall. induction Hall as [|d l Hd _ IH]; [reflexivity|].
  simpl. rewrite IH, orb_false_r.
  destruct (Py.is_char c d) eqn:Hcd; [|reflexivity].
  apply is_char_true in Hcd. subst d. congruence.
Qed.

(** X4.  The file name derived from any URL is never empty and contains
    neither a slash nor a question mark: it is a single path component,
    and a query string never follows it. *)
Theorem filename_is_one_path_component (u : string) :
  _extract_filename u <> EmptyString
  /\ has_char "/" (Py.chars (_extract_filename u)) = false
  /\ has_char "?" (Py.chars (_extract_filename u)) = false.
Proof.
  assert (Hcap : forall cap, cap <> [] ->
            Forall (fun c => Re.not_slash_or_query c = true) cap ->
            Py.str cap <> EmptyString
            /\ has_char "/" (Py.chars (Py.str cap)) = false
            /\ has_char "?" (Py.chars (Py.str cap)) = false).
  { intros cap Hne Hall. unfold Py.chars, Py.str.
    rewrite list_ascii_of_string_of_list_ascii.
    split; [now apply str_of_nonempty|].
    split; eapply has_char_false_of_Forall; try exact Hall; reflexivity. }
  unfold _extract_filename, Re.search.
  change UUID_FILENAME
    with (segment_pattern (Re.Seq (Re.Plus Re.hex_or_dash)
                             (Re.Seq (Re.Lit ".") (Re.Plus Re.word)))).
  change LAST_SEGMENT with (segment_pattern (Re.Plus Re.not_slash_or_query)).
  destruct (Re.search_from (segment_pattern (Re.Seq _ _)) (Py.chars u))
    as [x|] eqn:H1.
  - apply (segment_search_capture Re.not_slash_or_query) in H1;
      [|reflexivity|vm_compute; reflexivity|reflexivity].
    destruct H1 as (cap & -> & Hne & Hall). cbn [option_map]. now apply Hcap.
  - destruct (Re.search_from (segment_pattern (Re.Plus _)) (Py.chars u))
      as [x|] eqn:H2.
    + apply (segment_search_capture Re.not_slash_or_query) in H2;
        [|reflexivity|vm_compute; reflexivity|reflexivity].
      destruct H2 as (cap & -> & Hne & Hall). cbn [option_map]. now apply Hcap.
    + repeat split. discriminate.
Qed.
(* ===================================================================== *)
(** * Further properties of the derived file type                         *)
(* ===================================================================== *)

Lemma str_chars s : Py.str (Py.chars s) = s.
Proof. apply string_of_list_ascii_of_string. Qed.

Lemma chars_str l : Py.chars (Py.str l) = l.
Proof. apply list_ascii_of_string_of_list_ascii. Qed.

(** A match of the extension pattern at the head of [s]: a dot, then
    the word characters captured, then the end of the text. *)
Lemma extension_run_shape s x :
  Re.run EXTENSION s None (fun _ g => Some g) = Some x ->
  exists cap tail,
    s = "."%char :: cap ++ tail /\ x = Some cap /\ cap <> []
    /\ Forall (fun c => Re.word c = true) cap /\ Re.at_end tail = true.
Proof.
  unfold EXTENSION. intros Hrun.
  destruct s as [|d s]; [discriminate|].
  rewrite run_lit_seq in Hrun. destruct (Py.is_char "." d) eqn:Hd; [|discriminate].
  apply is_char_true in Hd. subst d.
  rewrite run_seq in Hrun. cbn [Re.run] in Hrun.
  apply plus_loop_sound in Hrun as (pre & s' & -> & Hne & Hall & Hk).
  rewrite length_app in Hk.
  replace (length pre + length s' - length s')%nat with (length pre) in Hk by lia.
  rewrite take_app_length in Hk.
  exists pre, s'. destruct (Re.at_end s'); [|discriminate].
  injection Hk as <-. auto.
Qed.

Lemma extension_search_shape s x :
  Re.search_from EXTENSION s = Some x ->
  exists stem cap tail,
    s = stem ++ "."%char :: cap ++ tail /\ x = Some cap /\ cap <> []
    /\ Forall (fun c => Re.word c = true) cap /\ Re.at_end tail = true.
Proof.
  induction s as [|d s IH]; cbn [Re.search_from].
  - destruct (Re.run EXTENSION [] None (fun _ g => Some g)) eqn:Hrun; [|discriminate].
    intros [= ->]. apply extension_run_shape in Hrun as (cap & tail & H & _).
    discriminate.
  - destruct (Re.run EXTENSION (d :: s) None (fun _ g => Some g)) eqn:Hrun.
    + intros [= ->].
      apply extension_run_shape in Hrun as (cap & tail & Hs & Hx & Hne & Hall & Hend).
      exists [], cap, tail. auto.
    + intros Hs. apply IH in Hs as (stem & cap & tail & -> & Hx & Hne & Hall & Hend).
      exists (d :: stem), cap, tail. auto.
Qed.

(** What may follow the extension: nothing, or the newline that ends
    the text; neither is a word character or a dot. *)
Lemma at_end_tail tail :
  Re.at_end tail = true ->
  Re.plus_loop Re.word (fun _ : list ascii => @None (option (list ascii))) tail = None
  /\ match tail with c :: _ => Re.word c = false | [] => True end
  /\ ~ In "."%char tail.
Proof.
  destruct tail as [|c [|d tail]]; cbn [Re.at_end]; try discriminate.
  - intros _. cbn. auto.
  - intros Hc. apply Z.eqb_eq in Hc. unfold Py.ord in Hc.
    assert (c = ascii_of_nat 10) as ->.
    { rewrite <- (ascii_nat_embedding c). f_equal. lia. }
    split; [reflexivity|]. split; [reflexivity|].
    intros [H | []]. discriminate.
Qed.

(** The loop takes as many characters as it can when the rest of the
    pattern then matches. *)
Lemma plus_loop_greedy {X} cls (k : list ascii -> option X) ext tail x :
  ext <> [] ->
  Forall (fun c => cls c = true) ext ->
  match tail with c :: _ => cls c = false | [] => True end ->
  k tail = Some x ->
  Re.plus_loop cls k (ext ++ tail) = Some x.
Proof.
  intros Hne Hall Htail Hk. induction Hall as [|c ext Hc Hall IH]; [congruence|].
  cbn [app Re.plus_loop]. rewrite Hc.
  destruct ext as [|d ext].
  - cbn [app]. assert (Hnone : Re.plus_loop cls k tail = None).
    { destruct tail as [|t tail]; [reflexivity|]. cbn. now rewrite Htail. }
    now rewrite Hnone.
  - rewrite IH by discriminate. reflexivity.
Qed.

Lemma extension_run_complete ext tail :
  ext <> [] ->
  Forall (fun c => Re.word c = true) ext ->
  Re.at_end tail = true ->
  Re.run EXTENSION ("."%char :: ext ++ tail) None (fun _ g => Some g)
  = Some (Some ext).
Proof.
  intros Hne Hall Hend. unfold EXTENSION.
  rewrite run_lit_seq. change (Py.is_char "." ".") with true. cbv iota.
  rewrite run_seq. cbn [Re.run].
  destruct (at_end_tail tail Hend) as (_ & Htail & _).
  apply plus_loop_greedy; try assumption.
  rewrite Hend, length_app.
  replace (length ext + length tail - length tail)%nat with (length ext) by lia.
  now rewrite take_app_length.
Qed.

Lemma word_not_dot cap tail :
  Forall (fun c => Re.word c = true) cap ->
  Re.at_end tail = true ->
  ~ In "."%char (cap ++ tail).
Proof.
  intros Hall Hend Hin. apply in_app_or in Hin as [Hin | Hin].
  - rewrite Forall_forall in Hall. apply list_elem_of_In in Hin.
    apply Hall in Hin. discriminate.
  - now apply (at_end_tail tail Hend).
Qed.

Lemma extension_search_complete ext tail :
  ext <> [] ->
  Forall (fun c => Re.word c = true) ext ->
  Re.at_end tail = true ->
  forall stem,
    Re.search_from EXTENSION (stem ++ "."%char :: ext ++ tail) = Some (Some ext).
Proof.
  intros Hne Hall Hend. induction stem as [|d stem IH].
  - cbn [app Re.search_from].
    now rewrite (extension_run_complete ext tail Hne Hall Hend).
  - cbn [app Re.search_from].
    destruct (Re.run EXTENSION (d :: stem ++ "."%char :: ext ++ tail) None
                (fun _ g => Some g)) as [x|] eqn:Hrun; [|exact IH].
    exfalso.
    apply extension_run_shape in Hrun as (cap & tail' & Hs & _ & _ & Hall' & Hend').
    injection Hs as _ Hs.
    apply (word_not_dot cap tail' Hall' Hend').
    rewrite <- Hs. apply in_or_app. right. now left.
Qed.

Lemma lower_str l : Py.lower (Py.str l) = Py.str (map Py.lower_char l).
Proof.
  unfold Py.str. induction l as [|c l IH]; simpl; [reflexivity | now rewrite IH].
Qed.

Lemma lower_char_facts c :
  Py.lower_char (Py.lower_char c) = Py.lower_char c
  /\ (Re.word c = true ->
      Py.is_char "." (Py.lower_char c) = false
      /\ Py.is_char "/" (Py.lower_char c) = false
      /\ Py.is_char "?" (Py.lower_char c) = false).
Proof.
  assert (Hall : forallb (fun c =>
             (if ascii_dec (Py.lower_char (Py.lower_char c)) (Py.lower_char c)
              then true else false)
             && implb (Re.word c)
                  (negb (Py.is_char "." (Py.lower_char c))
                   && negb (Py.is_char "/" (Py.lower_char c))
                   && negb (Py.is_char "?" (Py.lower_char c)))) all_ascii = true)
    by (vm_compute; reflexivity).
  rewrite forallb_forall in Hall. specialize (Hall c (in_all_ascii c)).
  apply andb_true_iff in Hall as [H1 H2].
  destruct (ascii_dec _ _) as [E|]; [|discriminate]. split; [exact E|].
  intros Hw. rewrite Hw in H2. cbn in H2.
  apply andb_true_iff in H2 as [H2 H3]. apply andb_true_iff in H2 as [H2 H4].
  now rewrite negb_true_iff in *.
Qed.

(** X5.  The file type derived from a URL is the extension of the
    derived file name in lower case: when the name ends with a dot
    followed by word characters (a newline may still end the name), the
    type is those characters lower-cased; when the name has no such
    ending, the type is the word unknown.  It is never empty, is in
    lower case, and contains no dot, slash or question mark. *)
Theorem file_type_is_lowercase_extension (u : string) :
  let name := Py.chars (_extract_filename u) in
  let t := _extract_file_type u in
  (forall stem ext tail,
      name = stem ++ "."%char :: ext ++ tail ->
      ext <> [] ->
      Forall (fun c => Re.word c = true) ext ->
      Re.at_end tail = true ->
      t = Py.lower (Py.str ext))
  /\ (~ (exists stem ext tail,
           name = stem ++ "."%char :: ext ++ tail
           /\ ext <> []
           /\ Forall (fun c => Re.word c = true) ext
           /\ Re.at_end tail = true) ->
      t = "unknown")
  /\ t <> EmptyString
  /\ Py.lower t = t
  /\ has_char "." (Py.chars t) = false
  /\ has_char "/" (Py.chars t) = false
  /\ has_char "?" (Py.chars t) = false.
Proof.
  intros name t. subst name t. unfold _extract_file_type, Re.search. cbv zeta.
  split; [|split].
  - intros stem ext tail Hname Hne Hall Hend.
    rewrite Hname, (extension_search_complete ext tail Hne Hall Hend stem).
    reflexivity.
  - intros Hnone.
    destruct (Re.search_from EXTENSION (Py.chars (_extract_filename u)))
      as [x|] eqn:Hs; [|reflexivity].
    exfalso. apply Hnone.
    apply extension_search_shape in Hs as (stem & cap & tail & Hs & _ & Hne & Hall & Hend).
    exists stem, cap, tail. auto.
  - destruct (Re.search_from EXTENSION (Py.chars (_extract_filename u)))
      as [x|] eqn:Hs; [|vm_compute; repeat split; discriminate].
    apply extension_search_shape in Hs as (stem & cap & tail & _ & -> & Hne & Hall & _).
    cbn [option_map]. rewrite lower_str.
    assert (Hmap : forall ch, (forall c, Re.word c = true ->
                                 Py.is_char ch (Py.lower_char c) = false) ->
                   has_char ch (map Py.lower_char cap) = false).
    { intros ch Hch. clear Hne. induction Hall as [|c l Hc _ IH]; [reflexivity|].
      cbn [map]. unfold has_char in *. cbn [existsb].
      now rewrite (Hch c Hc), IH. }
    split; [|split; [|rewrite chars_str; repeat split; apply Hmap; intros c Hc;
                      apply (lower_char_facts c); exact Hc]].
    + apply str_of_nonempty. destruct cap; [congruence | discriminate].
    + rewrite lower_str. f_equal. rewrite map_map. apply map_ext.
      intros c. apply lower_char_facts.
Qed.
(* ===================================================================== *)
(** * Dimensions in the manifest                                          *)
(* ===================================================================== *)

Lemma format_dimensions_none d :
  Pipeline.has_dimensions d = false -> Pipeline.format_dimensions d = "N/A".
Proof.
  unfold Pipeline.has_dimensions, Pipeline.format_dimensions.
  destruct d as [d|]; [|reflexivity]. now destruct (decide (d = ∅)).
Qed.

(** X6.  What the manifest shows for the dimensions of an img tag is
    decided by the width and height attributes that parse as integers:
    both give WxH, one alone gives Wx? or ?xH, none gives N/A.  The
    extractor never returns an empty dict. *)
Theorem dimensions_shown_from_parsed_attributes
    (attrs : gmap string (option string)) :
  let width := attr_get attrs "width" ≫= PyInt.int in
  let height := attr_get attrs "height" ≫= PyInt.int in
  Pipeline.format_dimensions (_extract_dimensions attrs)
  = match width, height with
    | None, None => "N/A"
    | Some w, None => pretty w +:+ "x?"
    | None, Some h => "?x" +:+ pretty h
    | Some w, Some h => pretty w +:+ "x" +:+ pretty h
    end
  /\ Pipeline.has_dimensions (_extract_dimensions attrs)
     = (bool_decide (is_Some width) || bool_decide (is_Some height))
  /\ _extract_dimensions attrs <> Some ∅.
Proof.
  intros width height. subst width height.
  rewrite extract_dimensions_parsed.
  destruct (attr_get attrs "width" ≫= PyInt.int) as [w|];
    destruct (attr_get attrs "height" ≫= PyInt.int) as [h|];
    unfold dims_of, Pipeline.format_dimensions, Pipeline.has_dimensions.
  all: try (destruct (decide _) as [E|_]; [now apply insert_non_empty in E|]).
  all: split; [|split]; try reflexivity;
    try (intros [=E]; now apply insert_non_empty in E); try discriminate.
  all: rewrite !lookup_insert, ?lookup_empty; reflexivity.
Qed.

(** X7.  The dimensions a manifest row shows for a file are those of
    the first attachment of that file name that has dimensions, wherever
    attachments of the same name without dimensions stand in the list;
    N/A when no attachment of that name has any. *)
Theorem manifest_dimensions_prefer_sized_occurrence
    (filename : string) (atts : list Attachment) :
  Pipeline.lookup_dimensions filename atts "N/A"
  = match List.find (fun a => String.eqb (AttachmentExtractor.filename a) filename
                              && Pipeline.has_dimensions (dimensions a)) atts with
    | Some a => Pipeline.format_dimensions (dimensions a)
    | None => "N/A"
    end.
Proof.
  induction atts as [|a atts IH]; [reflexivity|].
  cbn [Pipeline.lookup_dimensions List.find].
  destruct (String.eqb (AttachmentExtractor.filename a) filename); cbn [andb];
    [|exact IH].
  destruct (Pipeline.has_dimensions (dimensions a)) eqn:Hd; [reflexivity|].
  rewrite (format_dimensions_none _ Hd). exact IH.
Qed.
(* ===================================================================== *)
(** * Validation of the arguments                                         *)
(* ===================================================================== *)

Lemma split_chars_cons sep l : exists piece pieces,
  PyText.split_chars sep l = piece :: pieces.
Proof.
  induction l as [|c l (piece & pieces & IH)]; simpl; [eauto|].
  destruct (Py.is_char sep c); [eauto|]. rewrite IH. eauto.
Qed.

(** One piece: no separator at all. *)
Lemma split_chars_one sep l b :
  PyText.split_chars sep l = [b] -> l = b /\ has_char sep b = false.
Proof.
  revert b. induction l as [|c l IH]; intros b; simpl.
  - intros [= <-]. auto.
  - destruct (Py.is_char sep c) eqn:Hc.
    + intros [= _ H]. destruct (split_chars_cons sep l) as (p & ps & Hp).
      rewrite Hp in H. discriminate.
    + destruct (PyText.split_chars sep l) as [|piece pieces] eqn:Hs.
      * destruct (split_chars_cons sep l) as (p & ps & Hp). congruence.
      * intros [= <- ->]. destruct (IH piece eq_refl) as [-> Hn].
        split; [reflexivity|]. simpl. now rewrite Hc.
Qed.

Lemma split_chars_none sep l :
  has_char sep l = false -> PyText.split_chars sep l = [l].
Proof.
  induction l as [|c l IH]; simpl; [reflexivity|].
  destruct (Py.is_char sep c); [discriminate|]. simpl.
  intros H. now rewrite IH.
Qed.

(** Two pieces: exactly one separator, between them. *)
Lemma split_chars_two sep l a b :
  PyText.split_chars sep l = [a; b]
  <-> l = a ++ sep :: b /\ has_char sep a = false /\ has_char sep b = false.
Proof.
  split.
  - revert a. induction l as [|c l IH]; intros a; simpl; [discriminate|].
    destruct (Py.is_char sep c) eqn:Hc.
    + intros [= <- H]. apply split_chars_one in H as [-> Hb].
      unfold Py.is_char in Hc. destruct (ascii_dec sep c) as [->|]; [|discriminate].
      auto.
    + destruct (PyText.split_chars sep l) as [|piece pieces] eqn:Hs; [discriminate|].
      intros [= <- ->]. destruct (IH piece eq_refl) as (-> & Ha & Hb).
      repeat split; [|exact Hb]. simpl. now rewrite Hc.
  - intros (-> & Ha & Hb). induction a as [|c a IH]; simpl.
    + unfold Py.is_char. destruct (ascii_dec sep sep); [|congruence].
      now rewrite split_chars_none.
    + simpl in Ha. destruct (Py.is_char sep c); [discriminate|].
      simpl in Ha. now rewrite (IH Ha).
Qed.

Lemma split_two repo owner name :
  PyText.split "/" repo = [owner; name]
  <-> repo = owner +:+ "/" +:+ name
      /\ has_char "/" (Py.chars owner) = false
      /\ has_char "/" (Py.chars name) = false.
Proof.
  unfold PyText.split. split.
  - intros H.
    destruct (PyText.split_chars "/" (Py.chars repo)) as [|a [|b [|c l]]] eqn:Hs;
      try discriminate.
    injection H as <- <-. apply split_chars_two in Hs as (Hr & Ha & Hb).
    rewrite !chars_str. repeat split; try assumption.
    rewrite <- (str_chars repo), Hr.
    unfold Py.str. clear. induction a as [|c a IH]; simpl; [reflexivity|].
    now rewrite IH.
  - intros (-> & Ha & Hb).
    assert (Hs : PyText.split_chars "/" (Py.chars (owner +:+ "/" +:+ name))
                 = [Py.chars owner; Py.chars name]).
    { apply split_chars_two. repeat split; try assumption.
      rewrite chars_append. reflexivity. }
    rewrite Hs. simpl. now rewrite !str_chars.
Qed.

(** Lists that do not begin with white space. *)
Lemma lstrip_ws_fixed l :
  match l with c :: _ => PyText.isspace c = false | [] => True end ->
  PyText.lstrip_ws l = l.
Proof. destruct l as [|c l]; simpl; [reflexivity|]. now intros ->. Qed.

Lemma lstrip_ws_head l :
  match PyText.lstrip_ws l with
  | c :: _ => PyText.isspace c = false
  | [] => True
  end.
Proof.
  induction l as [|c l IH]; simpl; [exact I|].
  destruct (PyText.isspace c) eqn:Hc; [exact IH | exact Hc].
Qed.

Lemma lstrip_ws_suffix l : exists ws, l = ws ++ PyText.lstrip_ws l.
Proof.
  induction l as [|c l [ws IH]]; simpl; [now exists []|].
  destruct (PyText.isspace c).
  - exists (c :: ws). simpl. now rewrite <- IH.
  - now exists [].
Qed.

Lemma strip_idempotent s : PyText.strip (PyText.strip s) = PyText.strip s.
Proof.
  unfold PyText.strip. rewrite chars_str. f_equal.
  set (t := PyText.lstrip_ws (Py.chars s)).
  set (u := PyText.lstrip_ws (rev t)).
  assert (Hu : match rev u with
               | c :: _ => PyText.isspace c = false
               | [] => True
               end).
  { destruct (lstrip_ws_suffix (rev t)) as [ws Hws]. fold u in Hws.
    assert (Ht : t = rev u ++ rev ws).
    { rewrite <- (rev_involutive t), Hws, rev_app_distr. reflexivity. }
    pose proof (lstrip_ws_head (Py.chars s)) as Hhead. fold t in Hhead.
    destruct (rev u) as [|c ru]; [exact I|].
    rewrite Ht in Hhead. exact Hhead. }
  rewrite (lstrip_ws_fixed (rev u) Hu), rev_involutive.
  rewrite (lstrip_ws_fixed u (lstrip_ws_head (rev t))). reflexivity.
Qed.

Lemma len_zero s : Py.truthy s = false -> PyText.len s = 0.
Proof. now destruct s. Qed.

Section Validation.
Context {Path : Type}.
Variable path_of : string -> Path.

Lemma init_accepts repo n dir token self :
  Pipeline.init path_of repo n dir token = inr self
  <-> exists owner name,
        PyText.split "/" repo = [owner; name]
        /\ self = Pipeline.mkSelf repo n (path_of dir) (PyText.strip token) owner name.
Proof.
  unfold Pipeline.init.
  destruct (PyText.split "/" repo) as [|a [|b [|c l]]]; split;
    try discriminate; try (intros (? & ? & [=] & _); fail).
  - intros [= <-]. eauto.
  - intros (o & nm & [= <- <-] & ->). reflexivity.
Qed.

Lemma validate_accepts (self : Pipeline.Self Path) :
  Pipeline.validate_inputs self = inr tt
  <-> Pipeline.owner self <> EmptyString
      /\ Pipeline.repo_name self <> EmptyString
      /\ 0 < Pipeline.issue_number self
      /\ 10 <= PyText.len (PyText.strip (Pipeline.github_token self)).
Proof.
  unfold Pipeline.validate_inputs.
  destruct (Pipeline.owner self) as [|c o] eqn:Ho; simpl.
  { split; [discriminate | intros (H & _); congruence]. }
  destruct (Pipeline.repo_name self) as [|d r] eqn:Hr; simpl.
  { split; [discriminate | intros (_ & H & _); congruence]. }
  destruct (Z.leb_spec (Pipeline.issue_number self) 0) as [Hn | Hn].
  { split; [discriminate | intros (_ & _ & H & _); lia]. }
  destruct (Py.truthy (Pipeline.github_token self)) eqn:Ht; simpl.
  - destruct (Z.ltb_spec (PyText.len (PyText.strip (Pipeline.github_token self))) 10).
    + split; [discriminate | intros (_ & _ & _ & H'); lia].
    + split; [|reflexivity]. intros _. repeat split; try discriminate; lia.
  - split; [discriminate|]. intros (_ & _ & _ & H).
    destruct (Pipeline.github_token self); [|discriminate].
    vm_compute in H. congruence.
Qed.

(** X8.  The constructor and [validate_inputs] together accept the
    arguments exactly when the repository is OWNER/NAME with one slash
    and both parts non-empty, the issue number is positive, and the
    token has at least ten characters once surrounding white space is
    stripped. *)
Theorem arguments_accepted_iff repo n dir token :
  (exists self, Pipeline.init path_of repo n dir token = inr self
                /\ Pipeline.validate_inputs self = inr tt)
  <-> ((exists owner name,
          repo = owner +:+ "/" +:+ name
          /\ owner <> EmptyString /\ name <> EmptyString
          /\ has_char "/" (Py.chars owner) = false
          /\ has_char "/" (Py.chars name) = false)
       /\ 0 < n
       /\ 10 <= PyText.len (PyText.strip token)).
Proof.
  split.
  - intros (self & Hi & Hv). apply init_accepts in Hi as (o & nm & Hs & ->).
    apply validate_accepts in Hv as (Ho & Hn & Hpos & Hlen). simpl in *.
    rewrite strip_idempotent in Hlen.
    apply split_two in Hs as (-> & Ha & Hb).
    split; [|auto]. exists o, nm. auto.
  - intros ((o & nm & -> & Ho & Hn & Ha & Hb) & Hpos & Hlen).
    eexists. split.
    + apply init_accepts. exists o, nm. split; [|reflexivity].
      apply split_two. auto.
    + apply validate_accepts. simpl. rewrite strip_idempotent. auto.
Qed.

End Validation.
(* ===================================================================== *)
(** * Further properties of the downloads                                 *)
(* ===================================================================== *)




Lemma successful_app ms1 ms2 :
  Pipeline.successful (ms1 ++ ms2)
  = Pipeline.successful ms1 ++ Pipeline.successful ms2.
Proof. apply List.filter_app. Qed.

Lemma unsuccessful_app ms1 ms2 :
  Pipeline.unsuccessful (ms1 ++ ms2)
  = Pipeline.unsuccessful ms1 ++ Pipeline.unsuccessful ms2.
Proof. apply List.filter_app. Qed.

Lemma successful_bytes_app ms1 ms2 :
  Pipeline.successful_bytes (ms1 ++ ms2)
  = Pipeline.successful_bytes ms1 + Pipeline.successful_bytes ms2.
Proof.
  unfold Pipeline.successful_bytes. rewrite successful_app, map_app.
  induction (map _ (Pipeline.successful ms1)) as [|x l IH]; simpl; lia.
Qed.

(** The counters agree with the records gathered so far. *)
Lemma count_all_exact ms : forall c,
  downloaded_count (count_all ms c)
  = downloaded_count c + Z.of_nat (length (Pipeline.successful ms))
  /\ failed_count (count_all ms c)
     = failed_count c + Z.of_nat (length (Pipeline.unsuccessful ms))
  /\ total_size_bytes (count_all ms c)
     = total_size_bytes c + Pipeline.successful_bytes ms.
Proof.
  induction ms as [|m ms IH]; intros c.
  - cbn. lia.
  - change (count_all (m :: ms) c)
      with (count_all ms (count_download (source m) (source_id m) (metadata m) c)).
    destruct (IH (count_download (source m) (source_id m) (metadata m) c))
      as (Hd & Hf & Hs).
    rewrite Hd, Hf, Hs.
    change (m :: ms) with ([m] ++ ms).
    rewrite successful_app, unsuccessful_app, successful_bytes_app, !length_app.
    unfold Pipeline.successful, Pipeline.unsuccessful, Pipeline.successful_bytes.
    cbn [count_download downloaded_count failed_count total_size_bytes
         List.filter Pipeline.successful].
    destruct (success (metadata m)); cbn; lia.
Qed.

Section DownloadFacts.
Context {World Path : Type}.
Variable http_get_bytes :
  string -> World -> (exception + list Byte.byte) * World.
Variable mkdir_parents : Path -> World -> (exception + unit) * World.
Variable write_file :
  Path -> list Byte.byte -> World -> (exception + unit) * World.
Variable path_div : Path -> string -> Path.
Variable path_name : Path -> string.
Variable path_suffix : Path -> string.
Variable path_parent : Path -> Path.
Variable path_absolute : Path -> string.
Variable format_1f : Z -> Z -> string.

(** [download_attachments] returns, and its statistics are those of the
    records it stores. *)
Lemma download_attachments_counts self_issue_number self_output_dir
    issue_attachments comments s :
  exists stats ms s',
    download_attachments http_get_bytes mkdir_parents write_file path_div
      path_name path_suffix path_parent path_absolute format_1f
      self_issue_number self_output_dir issue_attachments comments s
    = (inr (stats, ms), s')
    /\ stats_total_attachments stats = Z.of_nat (length ms)
    /\ stats_downloaded stats = Z.of_nat (length (Pipeline.successful ms))
    /\ stats_failed stats = Z.of_nat (length (Pipeline.unsuccessful ms))
    /\ stats_total_size_bytes stats = Pipeline.successful_bytes ms
    /\ stats_total_size stats
       = format_file_size format_1f (Pipeline.successful_bytes ms).
Proof.
  unfold download_attachments. unfold bind at 1.
  rewrite download_each_in_turn.
  match goal with
  | |- context [download_in_turn ?a ?b ?c ?d ?e ?f ?g ?h ?plan s] =>
      destruct (download_in_turn_records a b c d e f g h plan s)
        as (ms1 & s1 & -> & _ & _)
  end.
  unfold bind at 1. rewrite download_comments_in_turn.
  match goal with
  | |- context [download_in_turn ?a ?b ?c ?d ?e ?f ?g ?h ?plan s1] =>
      destruct (download_in_turn_records a b c d e f g h plan s1)
        as (ms2 & s2 & -> & _ & _)
  end.
  unfold ret. rewrite <- count_all_app.
  set (c0 := mkCounters 0 0 0 0 []).
  destruct (count_all_metadata (ms1 ++ ms2) c0) as (Hm & Ht & _).
  destruct (count_all_exact (ms1 ++ ms2) c0) as (Hd & Hf & Hs).
  eexists _, _, _. split; [reflexivity|].
  cbn [stats_total_attachments stats_downloaded stats_failed
       stats_total_size_bytes stats_total_size].
  rewrite Hm, Ht, Hd, Hf, Hs. subst c0. cbn [download_metadata total_attachments
    downloaded_count failed_count total_size_bytes app].
  repeat split; try lia; try (f_equal; lia).
Qed.


(** X10.  The download phase always returns, and the statistics it
    returns are those of the records it stores: as many attachments as
    records, as many downloaded and failed as successful and failed
    records, the bytes of the successful ones.  The summary of the
    manifest, computed again from the stored records, therefore shows
    the numbers and the total size of the returned statistics. *)
Theorem download_statistics_match_manifest_summary
    (self_issue_number : Z) (self_output_dir : Path)
    (json : Pipeline.IssueJson) (attachments : option (list Attachment))
    (comments : option (list Comment)) (s : State World) :
  exists stats ms s',
    download_attachments http_get_bytes mkdir_parents write_file path_div
      path_name path_suffix path_parent path_absolute format_1f
      self_issue_number self_output_dir (default [] attachments)
      (default [] comments) s
    = (inr (stats, ms), s')
    /\ stats_total_attachments stats = Z.of_nat (length ms)
    /\ stats_downloaded stats = Z.of_nat (length (Pipeline.successful ms))
    /\ stats_failed stats = Z.of_nat (length (Pipeline.unsuccessful ms))
    /\ stats_downloaded stats + stats_failed stats = stats_total_attachments stats
    /\ stats_total_size_bytes stats = Pipeline.successful_bytes ms
    /\ Pipeline.summary_lines format_1f
         (Pipeline.mkIssueData json attachments comments (Some ms))
       = [ "## Summary";
           EmptyString;
           "- **Total Comments:** "
             +:+ pretty (Z.of_nat (length (default [] comments)));
           "- **Total Attachments:** " +:+ pretty (stats_total_attachments stats);
           "- **Successfully Downloaded:** " +:+ pretty (stats_downloaded stats) ]
         ++ (if stats_failed stats >? 0
             then ["- **Failed Downloads:** " +:+ pretty (stats_failed stats)]
             else [])
         ++ (if decide (Pipeline.count_file_types ms = ∅) then []
             else [ "- **File Types:** "
                      +:+ PyText.join ", "
                            (map (fun item => pretty item.2 +:+ " " +:+ item.1)
                                 (PyText.sorted_items
                                    (Pipeline.count_file_types ms))) ])
         ++ [ "- **Total Size:** " +:+ stats_total_size stats;
              EmptyString ].
Proof.
  destruct (download_attachments_counts self_issue_number self_output_dir
              (default [] attachments) (default [] comments) s)
    as (stats & ms & s' & Hrun & Ht & Hd & Hf & Hb & Hs).
  exists stats, ms, s'. split; [exact Hrun|].
  split; [exact Ht|]. split; [exact Hd|]. split; [exact Hf|].
  split.
  { rewrite Ht, Hd, Hf. unfold Pipeline.successful, Pipeline.unsuccessful.
    clear. induction ms as [|m ms IH]; [reflexivity|].
    cbn [List.filter length].
    destruct (success (metadata m)); cbn [negb length]; lia. }
  split; [exact Hb|].
  unfold Pipeline.summary_lines.
  cbn [Pipeline._download_metadata Pipeline._comments default from_option].
  unfold Datatypes.id.
  rewrite Ht, Hd, Hf, Hs. reflexivity.
Qed.

End DownloadFacts.

Section FileTypes.

Let of_type (t : string) (m : Metadata) : bool :=
  success (metadata m) && String.eqb (IssueDataFetcher.file_type (metadata m)) t.
Let tally (t : string) (ms : list Metadata) : Z :=
  Z.of_nat (length (List.filter (of_type t) ms)).
Let step (file_types : gmap string Z) (meta : Metadata) : gmap string Z :=
  if success (metadata meta) then
    <[IssueDataFetcher.file_type (metadata meta) :=
        default 0 (file_types !! IssueDataFetcher.file_type (metadata meta)) + 1]> file_types
  else file_types.

Lemma file_types_from ms : forall acc,
  (forall t n, acc !! t = Some n -> 0 < n) ->
  (forall t, default 0 (foldl step acc ms !! t)
             = default 0 (acc !! t) + tally t ms)
  /\ (forall t n, foldl step acc ms !! t = Some n -> 0 < n).
Proof.
  induction ms as [|m ms IH]; intros acc Hpos.
  - unfold tally. cbn. split; [intros; lia | exact Hpos].
  - cbn [foldl].
    assert (Hpos' : forall t n, step acc m !! t = Some n -> 0 < n).
    { intros t n. unfold step. destruct (success (metadata m)); [|apply Hpos].
      rewrite lookup_insert. destruct (decide _); [|apply Hpos].
      intros [= <-]. destruct (acc !! _) as [k|] eqn:Hk; cbn; [|lia].
      apply Hpos in Hk. lia. }
    destruct (IH (step acc m) Hpos') as (Hcount & Hp). split; [|exact Hp].
    intros t. rewrite Hcount. unfold tally. cbn [List.filter].
    unfold of_type at 2. unfold step.
    destruct (success (metadata m)); cbn [andb]; [|lia].
    rewrite lookup_insert. destruct (decide _) as [E | E].
    + rewrite E, String.eqb_refl. cbn [default length from_option].
      unfold Datatypes.id. lia.
    + apply String.eqb_neq in E. rewrite E. lia.
Qed.

Lemma in_insert_item x y l :
  In x (PyText.insert_item y l) <-> x = y \/ In x l.
Proof.
  induction l as [|z l IH]; cbn; [intuition|].
  destruct (PyText.item_le y z); cbn; [intuition|]. rewrite IH. intuition.
Qed.

Lemma length_insert_item y l :
  length (PyText.insert_item y l) = S (length l).
Proof.
  induction l as [|z l IH]; cbn; [reflexivity|].
  destruct (PyText.item_le y z); cbn; [reflexivity | now rewrite IH].
Qed.

(** X11.  The file types of the summary count the successful downloads:
    a type is a key of the count exactly when some successful record
    has it, with the number of those records; no type is counted when
    nothing was downloaded; and the sorted listing holds each counted
    type once. *)
Theorem file_types_count_successful_downloads (ms : list Metadata) :
  let file_types := Pipeline.count_file_types ms in
  (forall t, file_types !! t
             = let n := Z.of_nat (length (List.filter
                          (fun m => success (metadata m)
                                    && String.eqb (IssueDataFetcher.file_type (metadata m)) t) ms)) in
               if n =? 0 then None else Some n)
  /\ (file_types = ∅ <-> Pipeline.successful ms = [])
  /\ (forall t n, In (t, n) (PyText.sorted_items file_types)
                  <-> file_types !! t = Some n)
  /\ length (PyText.sorted_items file_types) = size file_types.
Proof.
  intros file_types.
  destruct (file_types_from ms ∅) as (Hcount & Hpos).
  { intros t n. rewrite lookup_empty. discriminate. }
  change (foldl step ∅ ms) with file_types in Hcount, Hpos.
  assert (Hlook : forall t, file_types !! t
                            = if tally t ms =? 0 then None else Some (tally t ms)).
  { intros t. specialize (Hcount t). rewrite lookup_empty in Hcount.
    cbn [default] in Hcount.
    destruct (file_types !! t) as [n|] eqn:Hn; cbn in Hcount.
    - apply Hpos in Hn. destruct (Z.eqb_spec (tally t ms) 0); [lia|]. f_equal. lia.
    - destruct (Z.eqb_spec (tally t ms) 0); [reflexivity | lia]. }
  split; [exact Hlook|]. split; [|split].
  - split.
    + intros Hempty. unfold Pipeline.successful.
      destruct (List.filter _ ms) as [|m l] eqn:Hf; [reflexivity|].
      exfalso.
      assert (Hin : In m (List.filter (fun m => success (metadata m)) ms))
        by (rewrite Hf; now left).
      apply List.filter_In in Hin as [Hin Hs].
      specialize (Hlook (IssueDataFetcher.file_type (metadata m))).
      rewrite Hempty, lookup_empty in Hlook.
      destruct (Z.eqb_spec (tally (IssueDataFetcher.file_type (metadata m)) ms) 0) as [E|];
        [|discriminate].
      unfold tally in E.
      assert (Hin' : In m (List.filter (of_type (IssueDataFetcher.file_type (metadata m))) ms)).
      { apply List.filter_In. split; [exact Hin|]. unfold of_type.
        now rewrite Hs, String.eqb_refl. }
      destruct (List.filter (of_type _) ms); [destruct Hin' | cbn in E; lia].
    + intros Hnone. apply map_eq. intros t. rewrite Hlook, lookup_empty.
      assert (Hz : tally t ms = 0); [|now rewrite Hz].
      unfold tally.
      assert (Hnil : List.filter (of_type t) ms = []); [|now rewrite Hnil].
      unfold Pipeline.successful in Hnone.
      destruct (List.filter (of_type t) ms) as [|m l] eqn:Hf; [reflexivity|].
      exfalso.
      assert (Hin : In m (List.filter (of_type t) ms)) by (rewrite Hf; now left).
      apply List.filter_In in Hin as [Hin Hs]. unfold of_type in Hs.
      apply andb_true_iff in Hs as [Hs _].
      assert (Hin' : In m (List.filter (fun m => success (metadata m)) ms))
        by (apply List.filter_In; auto).
      rewrite Hnone in Hin'. destruct Hin'.
  - intros t n. unfold PyText.sorted_items.
    rewrite <- elem_of_map_to_list, list_elem_of_In.
    induction (map_to_list file_types) as [|x l IH]; cbn; [reflexivity|].
    rewrite in_insert_item, IH. intuition.
  - unfold PyText.sorted_items. rewrite <- length_map_to_list.
    induction (map_to_list file_types) as [|x l IH]; cbn; [reflexivity|].
    now rewrite length_insert_item, IH.
Qed.

End FileTypes.
(* ===================================================================== *)
(** * Order of the comment pages                                          *)
(* ===================================================================== *)

(** A wrapped function that makes one request per call makes one request
    per attempt of the decorator. *)
Lemma wrapper_loop_requests {World A} (func : M World A) (u : string) :
  (forall s, exists r w', func s = (r, mkState w' (trace s ++ [HttpGet u]))) ->
  forall attempts last delay s,
    exists k,
      requests (trace (wrapper_loop func attempts last delay s).2)
      = requests (trace s) ++ replicate k u
      /\ (k <= length attempts)%nat
      /\ (attempts <> [] -> (1 <= k)%nat).
Proof.
  intros Hfunc. induction attempts as [|attempt rest IH]; intros last delay s.
  - exists 0%nat. cbn [wrapper_loop]. destruct last; cbn; rewrite app_nil_r;
      (split; [reflexivity | split; [lia | congruence]]).
  - cbn [wrapper_loop]. unfold bind at 1. unfold try_. unfold bind at 1.
    unfold emit at 1.
    destruct (Hfunc (mkState (world s) (trace s ++ [Call]))) as (r & w' & ->).
    cbn [trace].
    assert (Hreq : forall evs,
              requests (((trace s ++ [Call]) ++ [HttpGet u]) ++ evs)
              = requests (trace s) ++ [u] ++ requests evs).
    { intros evs. rewrite !requests_app. cbn. now rewrite app_nil_r, <- app_assoc. }
    assert (Hdone : forall (x : exception + A),
              exists k,
                requests (trace (x, mkState w' ((trace s ++ [Call]) ++ [HttpGet u])).2)
                = requests (trace s) ++ replicate k u
                /\ (k <= length (attempt :: rest))%nat
                /\ (attempt :: rest <> [] -> (1 <= k)%nat)).
    { intros x. exists 1%nat. cbn [snd trace].
      rewrite <- (app_nil_r (_ ++ [HttpGet u])), Hreq. cbn. repeat split; lia. }
    assert (Hmore : forall last' delay' evs,
              requests evs = [] ->
              exists k,
                requests
                  (trace (wrapper_loop func rest last' delay'
                            (mkState w' (((trace s ++ [Call]) ++ [HttpGet u]) ++ evs))).2)
                = requests (trace s) ++ replicate k u
                /\ (k <= length (attempt :: rest))%nat
                /\ (attempt :: rest <> [] -> (1 <= k)%nat)).
    { intros last' delay' evs Hevs.
      destruct (IH last' delay'
                  (mkState w' (((trace s ++ [Call]) ++ [HttpGet u]) ++ evs)))
        as (k & Hk & Hle & _).
      exists (S k). rewrite Hk. cbn [trace]. rewrite Hreq, Hevs. cbn.
      rewrite <- app_assoc. cbn. repeat split; lia. }
    destruct r as [e | v]; [|apply Hdone].
    destruct e as [code reason body | reason | | | | | | |]; try apply Hdone.
    + destruct (transient_code code); [|apply Hdone].
      destruct (attempt <? MAX_RETRIES).
      * unfold bind, emit. cbn [world trace].
        rewrite <- (app_assoc _ [Log _ _] [Sleep _]). apply Hmore. reflexivity.
      * unfold bind, emit. cbn [world trace]. apply Hmore. reflexivity.
    + destruct (attempt <? MAX_RETRIES).
      * unfold bind, emit. cbn [world trace].
        rewrite <- (app_assoc _ [Log _ _] [Sleep _]). apply Hmore. reflexivity.
      * unfold bind, emit. cbn [world trace]. apply Hmore. reflexivity.
Qed.

Section PageOrder.
Context {World : Type}.
Variable http_get_comments :
  Request -> World -> (exception + (list RawComment * string)) * World.
Variable start_tags :
  string -> option (list (string * AttachmentExtractor.attr_list)).
Variables (repo : string) (issue_number : Z) (github_token : string).

Lemma fetch_page_requests api_url s :
  exists k,
    requests (trace (_fetch_comments_page http_get_comments api_url github_token s).2)
    = requests (trace s) ++ replicate k api_url
    /\ (1 <= k <= 5)%nat.
Proof.
  unfold _fetch_comments_page, retry_on_transient_errors.
  destruct (wrapper_loop_requests
              (_fetch_comments_page_wrapped http_get_comments api_url github_token)
              api_url) with (attempts := attempts_range)
                            (last := @None exception) (delay := INITIAL_RETRY_DELAY)
                            (s := s) as (k & Hk & Hle & Hpos).
  - intros s0. unfold _fetch_comments_page_wrapped. run_monad.
    destruct (http_get_comments _ (world s0)) as [[e | [items link]] w']; eauto.
  - exists k. split; [exact Hk|]. rewrite attempts_range_eq in *. cbn in Hle.
    split; [apply Hpos; discriminate | exact Hle].
Qed.

(** X12.  Whatever the backend answers, a fetch of the comments that
    ends has requested the pages in order from the first one on, none
    skipped: the addresses requested are those of pages 1, 2, 3, ...,
    each one at least once and at most five times in a row (the retries
    of the decorator). *)
Theorem comment_pages_requested_in_order fuel : forall page acc s r s',
  comments_loop http_get_comments start_tags fuel repo issue_number github_token
    page acc s = Some (r, s') ->
  exists counts : list nat,
    requests (trace s')
    = requests (trace s)
      ++ concat (imap (fun i k =>
                         replicate k (comments_url repo issue_number
                                        (page + Z.of_nat i))) counts)
    /\ Forall (fun k => (1 <= k <= 5)%nat) counts
    /\ (1 <= length counts <= fuel)%nat.
Proof.
  induction fuel as [|fuel IH]; intros page acc s r s'; [discriminate|].
  cbn [comments_loop].
  destruct (fetch_page_requests (comments_url repo issue_number page) s)
    as (k & Hk & Hk15).
  destruct (_fetch_comments_page http_get_comments
              (comments_url repo issue_number page) github_token s)
    as [[e | [items next]] s1]; cbn [snd] in Hk.
  - intros [= <- <-]. exists [k]. cbn. rewrite Z.add_0_r, !app_nil_r.
    split; [exact Hk|].
      split; [apply Forall_cons_2; [lia | apply Forall_nil_2] | cbn; lia].
  - destruct items as [|c items].
    { intros [= <- <-]. exists [k]. cbn. rewrite Z.add_0_r, !app_nil_r.
      split; [exact Hk|].
      split; [apply Forall_cons_2; [lia | apply Forall_nil_2] | cbn; lia]. }
    destruct next; cbn [negb].
    + intros Hrun. apply IH in Hrun as (counts & Hreq & Hall & Hlen).
      exists (k :: counts). rewrite Hreq, Hk. cbn [imap concat length].
      rewrite Z.add_0_r, <- app_assoc.
      split; [|split; [apply Forall_cons_2; [lia|exact Hall] | lia]].
      do 3 f_equal. apply imap_ext. intros i x _. cbn. do 2 f_equal. lia.
    + intros [= <- <-]. exists [k]. cbn. rewrite Z.add_0_r, !app_nil_r.
      split; [exact Hk|].
      split; [apply Forall_cons_2; [lia | apply Forall_nil_2] | cbn; lia].
Qed.

End PageOrder.

Lemma comment_pages_requested_in_order_witness :
  let backend := fun _ : Request =>
                   scripted (A := list RawComment * string)
                     (inl (OSError "script used up")) in
  let s := start [ inl (HTTPError 503 "Service Unavailable" None);
                   inr (sample_comments 1 2, link_to_next "octo/repo" 7 1);
                   inr (sample_comments 3 1, EmptyString) ] in
  exists r s',
    comments_loop backend (fun _ => None) 5 "octo/repo" 7 "ghp_0123456789" 1 [] s
    = Some (r, s')
    /\ exists counts : list nat,
         requests (trace s')
         = requests (trace s)
           ++ concat (imap (fun i k =>
                              replicate k (comments_url "octo/repo" 7
                                             (1 + Z.of_nat i))) counts)
         /\ Forall (fun k => (1 <= k <= 5)%nat) counts
         /\ (1 <= length counts <= 5)%nat.
Proof.
  intros backend s. eexists _, _. split.
  - vm_compute. reflexivity.
  - eapply (comment_pages_requested_in_order backend (fun _ => None)
              "octo/repo" 7 "ghp_0123456789" 5 1 [] s).
    vm_compute. reflexivity.
Defined.
(* ===================================================================== *)
(** * The run as a whole and its exit code                                *)
(* ===================================================================== *)

Lemma validate_raises_ValueError {Path} (self : Pipeline.Self Path) e :
  Pipeline.validate_inputs self = inl e -> exists msg, e = ValueError msg.
Proof.
  unfold Pipeline.validate_inputs.
  repeat match goal with
         | |- context [if ?b then _ else _] => destruct b
         end; intros [= <-]; eauto.
Qed.

Section Orchestration.
Context {World Path : Type}.
Variable http_get_issue :
  Request -> World -> (exception + Pipeline.IssueJson) * World.
Variable http_get_comments :
  Request -> World -> (exception + (list RawComment * string)) * World.
Variable http_get_bytes :
  string -> World -> (exception + list Byte.byte) * World.
Variable mkdir_parents : Path -> World -> (exception + unit) * World.
Variable mkdir : Path -> World -> (exception + unit) * World.
Variable write_file :
  Path -> list Byte.byte -> World -> (exception + unit) * World.
Variable write_text : Path -> string -> World -> (exception + unit) * World.
Variable dump_json :
  Path -> Pipeline.IssueData -> World -> (exception + unit) * World.
Variable path_div : Path -> string -> Path.
Variable path_name : Path -> string.
Variable path_suffix : Path -> string.
Variable path_parent : Path -> Path.
Variable path_absolute : Path -> string.
Variable path_of : string -> Path.
Variable format_1f : Z -> Z -> string.
Variable start_tags :
  string -> option (list (string * AttachmentExtractor.attr_list)).
Variable strftime_iso : string -> option string.

Let directories := Pipeline.create_output_directories mkdir_parents mkdir path_div.
Let issue_data_of :=
  Pipeline.fetch_issue_data (Path := Path) http_get_issue start_tags.
Let finish :=
  Pipeline.after_comments http_get_bytes mkdir_parents write_file write_text
    dump_json path_div path_name path_suffix path_parent path_absolute
    format_1f strftime_iso.
Let run :=
  Pipeline.run http_get_issue http_get_comments http_get_bytes mkdir_parents
    mkdir write_file write_text dump_json path_div path_name path_suffix
    path_parent path_absolute format_1f start_tags strftime_iso.
Let main :=
  Pipeline.main http_get_issue http_get_comments http_get_bytes mkdir_parents
    mkdir write_file write_text dump_json path_div path_name path_suffix
    path_parent path_absolute path_of format_1f start_tags strftime_iso.

(** Creating the directories leaves no event. *)
Lemma directories_trace self s :
  trace (directories self s).2 = trace s.
Proof.
  unfold directories, Pipeline.create_output_directories. run_monad.
  repeat match goal with
         | |- context [match ?x with pair _ _ => _ end] =>
             lazymatch x with
             | context [match _ with pair _ _ => _ end] => fail
             | _ => destruct x as [[? | []] ?]; simpl
             end
         end; reflexivity.
Qed.

(** The request for the issue, failing or not, is made once. *)
Lemma fetch_issue_html_raises repo n token w tr e w' :
  http_get_issue (mkRequest (issue_url repo n) (api_headers token)) w = (inl e, w') ->
  exists msg,
    fetch_issue_html http_get_issue repo n token (mkState w tr)
    = (inl (RuntimeError msg (Some e)),
       mkState w' (tr ++ [Call; HttpGet (issue_url repo n)])).
Proof.
  intros Hget.
  unfold fetch_issue_html, retry_on_transient_errors.
  rewrite attempts_range_eq.
  unfold fetch_issue_html_wrapped. simpl. run_monad. rewrite Hget.
  rewrite <- !app_assoc. simpl.
  destruct e as [code reason fp| | | | | | | |]; simpl;
    try (eexists; reflexivity).
  destruct (code =? 401); [|destruct (code =? 403); [|destruct (code =? 404)]];
    simpl; eexists; reflexivity.
Qed.

Lemma fetch_issue_html_gets repo n token w tr j w' :
  http_get_issue (mkRequest (issue_url repo n) (api_headers token)) w = (inr j, w') ->
  fetch_issue_html http_get_issue repo n token (mkState w tr)
  = (inr j, mkState w' (tr ++ [Call; HttpGet (issue_url repo n)])).
Proof.
  intros Hget.
  unfold fetch_issue_html, retry_on_transient_errors.
  rewrite attempts_range_eq.
  unfold fetch_issue_html_wrapped. simpl. run_monad. rewrite Hget.
  now rewrite <- !app_assoc.
Qed.

Lemma main_of_run fuel repo n dir token self s :
  Pipeline.init path_of repo n dir token = inr self ->
  main fuel (Pipeline.mkArgs repo n dir token) s
  = match run fuel self s with
    | None => None
    | Some (inl e, s') => Some (Pipeline.exit_code e, s')
    | Some (inr _, s') => Some (0, s')
    end.
Proof. intros Hi. unfold main, Pipeline.main. simpl. now rewrite Hi. Qed.

Lemma run_of_directories fuel self s :
  Pipeline.validate_inputs self = inr tt ->
  run fuel self s
  = match directories self s with
    | (inl e, s1) => Some (inl e, s1)
    | (inr _, s1) =>
        match issue_data_of self s1 with
        | (inl e, s2) => Some (inl e, s2)
        | (inr issue_data, s2) =>
            match fetch_comments_html http_get_comments start_tags fuel
                    (Pipeline.repo self) (Pipeline.issue_number self)
                    (Pipeline.github_token self) s2 with
            | None => None
            | Some (inl e, s3) => Some (inl e, s3)
            | Some (inr comments, s3) => Some (finish self issue_data comments s3)
            end
        end
    end.
Proof.
  intros Hv. unfold run, Pipeline.run. rewrite Hv.
  unfold bind. fold directories.
  destruct (directories self s) as [[e | []] s1]; [reflexivity|].
  fold issue_data_of. reflexivity.
Qed.


(** ** [fetch_issue_data] *)

Lemma issue_data_raises self w tr e w' :
  http_get_issue
    (mkRequest (issue_url (Pipeline.repo self) (Pipeline.issue_number self))
       (api_headers (Pipeline.github_token self))) w = (inl e, w') ->
  exists msg,
    issue_data_of self (mkState w tr)
    = (inl (RuntimeError msg (Some e)),
       mkState w' (tr ++ [Call; HttpGet (issue_url (Pipeline.repo self)
                                           (Pipeline.issue_number self))])).
Proof.
  intros Hget.
  destruct (fetch_issue_html_raises _ _ _ _ tr _ _ Hget) as [msg Hmsg].
  exists msg. unfold issue_data_of, Pipeline.fetch_issue_data.
  unfold bind at 1. unfold try_. unfold bind at 1. rewrite Hmsg. reflexivity.
Qed.

Lemma issue_data_null_user self w tr j w' :
  http_get_issue
    (mkRequest (issue_url (Pipeline.repo self) (Pipeline.issue_number self))
       (api_headers (Pipeline.github_token self))) w = (inr j, w') ->
  Pipeline.user j = Pipeline.Null ->
  exists msg cause,
    issue_data_of self (mkState w tr)
    = (inl (RuntimeError msg (Some (OtherException "AttributeError" cause))),
       mkState w' (tr ++ [Call; HttpGet (issue_url (Pipeline.repo self)
                                           (Pipeline.issue_number self))])).
Proof.
  intros Hget Hnull.
  pose proof (fetch_issue_html_gets _ _ _ _ tr _ _ Hget) as Hj.
  unfold issue_data_of, Pipeline.fetch_issue_data.
  unfold bind at 1. unfold try_. unfold bind at 1. rewrite Hj.
  rewrite Hnull. eexists _, _. reflexivity.
Qed.

Lemma issue_data_gets self w tr j w' :
  http_get_issue
    (mkRequest (issue_url (Pipeline.repo self) (Pipeline.issue_number self))
       (api_headers (Pipeline.github_token self))) w = (inr j, w') ->
  Pipeline.user j <> Pipeline.Null ->
  exists attachments,
    issue_data_of self (mkState w tr)
    = (inr (Pipeline.mkIssueData j attachments None None),
       mkState w' (tr ++ [Call; HttpGet (issue_url (Pipeline.repo self)
                                           (Pipeline.issue_number self))])).
Proof.
  intros Hget Huser.
  pose proof (fetch_issue_html_gets _ _ _ _ tr _ _ Hget) as Hj.
  unfold issue_data_of, Pipeline.fetch_issue_data.
  unfold bind at 1. unfold try_. unfold bind at 1. rewrite Hj.
  destruct (Pipeline.user j) as [| |login]; [|congruence|];
    destruct (Pipeline.body_html j); eexists; reflexivity.
Qed.

(** ** The first page of comments *)

Lemma comments_first_page_raises fuel repo n token w tr e w' :
  http_get_comments (mkRequest (comments_url repo n 1) (api_headers token)) w
  = (inl e, w') ->
  transient e = false ->
  fetch_comments_html http_get_comments start_tags (S fuel) repo n token
    (mkState w tr)
  = Some (inl (comments_failure e),
          mkState w' (tr ++ [Call; HttpGet (comments_url repo n 1)])).
Proof.
  intros Hget Ht.
  unfold fetch_comments_html. cbn [comments_loop].
  assert (Hpage : _fetch_comments_page http_get_comments (comments_url repo n 1)
                    token (mkState w tr)
                  = (inl e, mkState w' (tr ++ [Call; HttpGet (comments_url repo n 1)]))).
  { unfold _fetch_comments_page, retry_on_transient_errors.
    rewrite attempts_range_eq.
    unfold _fetch_comments_page_wrapped. simpl. run_monad. rewrite Hget.
    rewrite <- !app_assoc. simpl.
    destruct e; simpl in *; try reflexivity; try discriminate.
    now rewrite Ht. }
  now rewrite Hpage.
Qed.

Lemma comments_single_page fuel repo n token w tr items link w' :
  http_get_comments (mkRequest (comments_url repo n 1) (api_headers token)) w
  = (inr (items, link), w') ->
  items = [] \/ Py.str_in REL_NEXT link = false ->
  fetch_comments_html http_get_comments start_tags (S fuel) repo n token
    (mkState w tr)
  = Some (inr (map (comment_info start_tags) items),
          mkState w' (tr ++ [Call; HttpGet (comments_url repo n 1)])).
Proof.
  intros Hget Hlast.
  unfold fetch_comments_html. cbn [comments_loop].
  assert (Hpage : _fetch_comments_page http_get_comments (comments_url repo n 1)
                    token (mkState w tr)
                  = (inr (items, Py.str_in REL_NEXT link),
                     mkState w' (tr ++ [Call; HttpGet (comments_url repo n 1)]))).
  { unfold _fetch_comments_page, retry_on_transient_errors.
    rewrite attempts_range_eq.
    apply wrapper_loop_returns.
    unfold _fetch_comments_page_wrapped. run_monad. rewrite Hget.
    now rewrite <- !app_assoc. }
  rewrite Hpage. destruct items as [|c items]; [reflexivity|].
  destruct Hlast as [|Hlast]; [discriminate|]. now rewrite Hlast.
Qed.

(** ** The steps after the comments *)

Lemma finish_returns self issue_data comments s :
  (forall p d w, exists w', dump_json p d w = (inr tt, w')) ->
  (forall p t w, exists w', write_text p t w = (inr tt, w')) ->
  exists s', finish self issue_data comments s = (inr tt, s').
Proof.
  intros Hdump Hwrite.
  unfold finish, Pipeline.after_comments.
  set (data := match comments with [] => issue_data | _ :: _ => _ end).
  cbv zeta. unfold bind at 1.
  match goal with
  | |- context [if ?b then _ else _] => destruct b
  end.
  - unfold bind at 1.
    match goal with
    | |- context [download_attachments ?a ?b ?c ?d ?e ?f ?g ?h ?i ?j ?k ?l ?m s] =>
        destruct (download_attachments_counts a b c d e f g h i j k l m s)
          as (stats & ms & s1 & -> & _)
    end.
    unfold ret. unfold bind at 1.
    unfold Pipeline.save_issue_data, perform.
    match goal with
    | |- context [dump_json ?p ?d ?w] => destruct (Hdump p d w) as [w2 ->]
    end.
    unfold Pipeline.save_manifest, perform.
    match goal with
    | |- context [write_text ?p ?d ?w] => destruct (Hwrite p d w) as [w3 ->]
    end.
    eauto.
  - unfold ret. unfold bind at 1.
    unfold Pipeline.save_issue_data, perform.
    match goal with
    | |- context [dump_json ?p ?d ?w] => destruct (Hdump p d w) as [w2 ->]
    end.
    unfold Pipeline.save_manifest, perform.
    match goal with
    | |- context [write_text ?p ?d ?w] => destruct (Hwrite p d w) as [w3 ->]
    end.
    eauto.
Qed.


(** ** [run] and [main] *)

(** X13.  Arguments that the constructor or [validate_inputs] refuse
    make [main] return 1 at once: nothing is requested, created or
    written. *)
Theorem main_rejects_invalid_arguments fuel repo n dir token s :
  ~ ((exists owner name,
        repo = owner +:+ "/" +:+ name
        /\ owner <> EmptyString /\ name <> EmptyString
        /\ has_char "/" (Py.chars owner) = false
        /\ has_char "/" (Py.chars name) = false)
     /\ 0 < n
     /\ 10 <= PyText.len (PyText.strip token)) ->
  main fuel (Pipeline.mkArgs repo n dir token) s = Some (1, s).
Proof.
  intros Hbad.
  destruct (Pipeline.init path_of repo n dir token) as [e | self] eqn:Hi.
  - unfold main, Pipeline.main. simpl. rewrite Hi.
    unfold Pipeline.init in Hi.
    destruct (PyText.split "/" repo) as [|a [|b [|c l]]];
      try discriminate; injection Hi as <-; reflexivity.
  - rewrite (main_of_run _ _ _ _ _ _ _ Hi).
    destruct (Pipeline.validate_inputs self) as [e | []] eqn:Hv.
    + unfold run, Pipeline.run. rewrite Hv.
      apply validate_raises_ValueError in Hv as [msg ->]. reflexivity.
    + exfalso. apply Hbad.
      apply init_accepts in Hi as (o & nm & Hs & ->).
      apply validate_accepts in Hv as (Ho & Hn & Hpos & Hlen). simpl in *.
      rewrite strip_idempotent in Hlen.
      apply split_two in Hs as (-> & Ha & Hb).
      split; [|auto]. exists o, nm. auto.
Qed.

(** X14.  When creating the output directories raises, [main] ends
    with the exit code of that exception, 3 for an OSError, and no
    request has been made. *)
Theorem directory_failure_ends_run_before_any_request
    fuel repo n dir token self s e s' :
  Pipeline.init path_of repo n dir token = inr self ->
  Pipeline.validate_inputs self = inr tt ->
  directories self s = (inl e, s') ->
  main fuel (Pipeline.mkArgs repo n dir token) s = Some (Pipeline.exit_code e, s')
  /\ trace s' = trace s
  /\ (Pipeline.isinstance_OSError e = true -> Pipeline.exit_code e = 3).
Proof.
  intros Hi Hv Hd.
  rewrite (main_of_run _ _ _ _ _ _ _ Hi), (run_of_directories _ _ _ Hv), Hd.
  split; [reflexivity|]. split.
  - pose proof (directories_trace self s) as Ht. now rewrite Hd in Ht.
  - destruct e; cbv; intros; congruence.
Qed.

(** X15.  Whatever exception the request for the issue raises, a
    timeout or another OSError included, [main] returns 1 after that
    single request: the RuntimeError that replaces the exception is not
    an OSError. *)
Theorem issue_request_failure_exits_1
    fuel repo n dir token self s s1 e w' :
  Pipeline.init path_of repo n dir token = inr self ->
  Pipeline.validate_inputs self = inr tt ->
  directories self s = (inr tt, s1) ->
  http_get_issue
    (mkRequest (issue_url repo n) (api_headers (PyText.strip token))) (world s1)
  = (inl e, w') ->
  main fuel (Pipeline.mkArgs repo n dir token) s
  = Some (1, mkState w' (trace s ++ [Call; HttpGet (issue_url repo n)])).
Proof.
  intros Hi Hv Hd Hget.
  rewrite (main_of_run _ _ _ _ _ _ _ Hi), (run_of_directories _ _ _ Hv), Hd.
  pose proof (directories_trace self s) as Ht. rewrite Hd in Ht. simpl in Ht.
  apply init_accepts in Hi as (o & nm & _ & ->).
  destruct s1 as [w1 tr1]. simpl in *. subst tr1.
  destruct (issue_data_raises (Pipeline.mkSelf repo n (path_of dir) (PyText.strip token) o nm) _ (trace s) _ _ Hget) as [msg ->].
  reflexivity.
Qed.

(** X16.  An issue whose [user] is null makes the run fail although the
    request succeeded: the line that logs the author raises, and [main]
    returns 1 after the one request, before any comment is fetched. *)
Theorem issue_without_user_fails_run
    fuel repo n dir token self s s1 j w' :
  Pipeline.init path_of repo n dir token = inr self ->
  Pipeline.validate_inputs self = inr tt ->
  directories self s = (inr tt, s1) ->
  http_get_issue
    (mkRequest (issue_url repo n) (api_headers (PyText.strip token))) (world s1)
  = (inr j, w') ->
  Pipeline.user j = Pipeline.Null ->
  main fuel (Pipeline.mkArgs repo n dir token) s
  = Some (1, mkState w' (trace s ++ [Call; HttpGet (issue_url repo n)])).
Proof.
  intros Hi Hv Hd Hget Hnull.
  rewrite (main_of_run _ _ _ _ _ _ _ Hi), (run_of_directories _ _ _ Hv), Hd.
  pose proof (directories_trace self s) as Ht. rewrite Hd in Ht. simpl in Ht.
  apply init_accepts in Hi as (o & nm & _ & ->).
  destruct s1 as [w1 tr1]. simpl in *. subst tr1.
  destruct (issue_data_null_user (Pipeline.mkSelf repo n (path_of dir) (PyText.strip token) o nm) _ (trace s) _ _ Hget Hnull)
    as (msg & cause & ->).
  reflexivity.
Qed.

(** X17.  When the first request for the comments raises an exception
    that is not retried, [main] ends after the two requests made so far,
    with nothing saved; the exit code is 3 if the exception is a
    TimeoutError or a plain OSError, which pass through unchanged, and 1
    otherwise. *)
Theorem comments_failure_exit_code
    fuel repo n dir token self s s1 j w2 e w3 :
  Pipeline.init path_of repo n dir token = inr self ->
  Pipeline.validate_inputs self = inr tt ->
  directories self s = (inr tt, s1) ->
  http_get_issue
    (mkRequest (issue_url repo n) (api_headers (PyText.strip token))) (world s1)
  = (inr j, w2) ->
  Pipeline.user j <> Pipeline.Null ->
  http_get_comments
    (mkRequest (comments_url repo n 1) (api_headers (PyText.strip token))) w2
  = (inl e, w3) ->
  transient e = false ->
  main (S fuel) (Pipeline.mkArgs repo n dir token) s
  = Some (match e with TimeoutError _ | OSError _ => 3 | _ => 1 end,
          mkState w3 (trace s ++ [Call; HttpGet (issue_url repo n);
                                  Call; HttpGet (comments_url repo n 1)])).
Proof.
  intros Hi Hv Hd Hget Huser Hcom Ht.
  rewrite (main_of_run _ _ _ _ _ _ _ Hi), (run_of_directories _ _ _ Hv), Hd.
  pose proof (directories_trace self s) as Htr. rewrite Hd in Htr. simpl in Htr.
  apply init_accepts in Hi as (o & nm & _ & ->).
  destruct s1 as [w1 tr1]. simpl in *. subst tr1.
  destruct (issue_data_gets (Pipeline.mkSelf repo n (path_of dir) (PyText.strip token) o nm) _ (trace s) _ _ Hget Huser)
    as (atts & ->).
  cbn [Pipeline.repo Pipeline.issue_number Pipeline.github_token].
  rewrite (comments_first_page_raises fuel _ _ _ _ _ _ _ Hcom Ht).
  rewrite <- !app_assoc. cbn [app].
  destruct e; reflexivity.
Qed.

(** X18.  Failed downloads do not fail the run: once the directories
    are made, the issue and a single page of comments are fetched, and
    the two output files can be written, [main] returns 0 whatever the
    downloads of the attachments do. *)
Theorem download_failures_do_not_fail_run
    fuel repo n dir token self s s1 j w2 items link w3 :
  Pipeline.init path_of repo n dir token = inr self ->
  Pipeline.validate_inputs self = inr tt ->
  directories self s = (inr tt, s1) ->
  http_get_issue
    (mkRequest (issue_url repo n) (api_headers (PyText.strip token))) (world s1)
  = (inr j, w2) ->
  Pipeline.user j <> Pipeline.Null ->
  http_get_comments
    (mkRequest (comments_url repo n 1) (api_headers (PyText.strip token))) w2
  = (inr (items, link), w3) ->
  items = [] \/ Py.str_in REL_NEXT link = false ->
  (forall p d w, exists w', dump_json p d w = (inr tt, w')) ->
  (forall p t w, exists w', write_text p t w = (inr tt, w')) ->
  exists s', main (S fuel) (Pipeline.mkArgs repo n dir token) s = Some (0, s').
Proof.
  intros Hi Hv Hd Hget Huser Hcom Hlast Hdump Hwrite.
  rewrite (main_of_run _ _ _ _ _ _ _ Hi), (run_of_directories _ _ _ Hv), Hd.
  apply init_accepts in Hi as (o & nm & _ & ->).
  destruct s1 as [w1 tr1]. simpl in *.
  destruct (issue_data_gets (Pipeline.mkSelf repo n (path_of dir) (PyText.strip token) o nm) _ tr1 _ _ Hget Huser)
    as (atts & ->).
  cbn [Pipeline.repo Pipeline.issue_number Pipeline.github_token].
  rewrite (comments_single_page fuel _ _ _ _ _ _ _ _ Hcom Hlast).
  match goal with
  | |- context [finish ?a ?b ?c ?d] =>
      destruct (finish_returns a b c d Hdump Hwrite) as [s' ->]
  end.
  eauto.
Qed.

End Orchestration.

Lemma main_rejects_invalid_arguments_witness :
  sample_main (fun _ w => (inr (sample_issue Pipeline.Missing EmptyString), w))
    (fun _ w => (inr ([], EmptyString), w)) sample_mkdir
    3 (Pipeline.mkArgs "octo/repo" 0 "out" "ghp_0123456789") (start tt)
  = Some (1, start tt).
Proof.
  unfold sample_main. apply main_rejects_invalid_arguments.
  intros (_ & H & _). lia.
Defined.

Lemma directory_failure_ends_run_before_any_request_witness :
  let get_issue := fun (_ : Request) (w : unit) =>
    (inr (sample_issue Pipeline.Missing EmptyString), w) in
  let get_comments := fun (_ : Request) (w : unit) =>
    (inr (@nil RawComment, EmptyString), w) in
  let refuse := fun (_ : string) (w : unit) =>
    (@inl exception unit (OSError "Permission denied"), w) in
  sample_main get_issue get_comments refuse 3 sample_args (start tt)
  = Some (3, start tt)
  /\ trace (start tt) = trace (start tt)
  /\ (Pipeline.isinstance_OSError (OSError "Permission denied") = true ->
      Pipeline.exit_code (OSError "Permission denied") = 3).
Proof.
  intros get_issue get_comments refuse. unfold sample_main, sample_args.
  eapply directory_failure_ends_run_before_any_request
    with (e := OSError "Permission denied") (s' := start tt).
  - reflexivity.
  - reflexivity.
  - reflexivity.
Defined.

Lemma issue_request_failure_exits_1_witness :
  let get_issue := fun (_ : Request) (w : unit) =>
    (@inl exception Pipeline.IssueJson (TimeoutError "timed out"), w) in
  let get_comments := fun (_ : Request) (w : unit) =>
    (inr (@nil RawComment, EmptyString), w) in
  sample_main get_issue get_comments sample_mkdir 3 sample_args (start tt)
  = Some (1, mkState tt (trace (start tt)
                           ++ [Call; HttpGet (issue_url "octo/repo" 7)])).
Proof.
  intros get_issue get_comments. unfold sample_main, sample_args.
  eapply issue_request_failure_exits_1.
  - reflexivity.
  - reflexivity.
  - reflexivity.
  - reflexivity.
Defined.

Lemma issue_without_user_fails_run_witness :
  let get_issue := fun (_ : Request) (w : unit) =>
    (@inr exception _ (sample_issue Pipeline.Null "<p>It crashes.</p>"), w) in
  let get_comments := fun (_ : Request) (w : unit) =>
    (inr (@nil RawComment, EmptyString), w) in
  sample_main get_issue get_comments sample_mkdir 3 sample_args (start tt)
  = Some (1, mkState tt (trace (start tt)
                           ++ [Call; HttpGet (issue_url "octo/repo" 7)])).
Proof.
  intros get_issue get_comments. unfold sample_main, sample_args.
  eapply issue_without_user_fails_run.
  - reflexivity.
  - reflexivity.
  - reflexivity.
  - reflexivity.
  - reflexivity.
Defined.

Lemma comments_failure_exit_code_witness :
  let get_issue := fun (_ : Request) (w : unit) =>
    (@inr exception _
       (sample_issue (Pipeline.Value (Pipeline.Value "octocat"))
          "<p>It crashes.</p>"), w) in
  let get_comments := fun (_ : Request) (w : unit) =>
    (@inl exception (list RawComment * string) (TimeoutError "timed out"), w) in
  sample_main get_issue get_comments sample_mkdir 3 sample_args (start tt)
  = Some (3, mkState tt (trace (start tt)
                           ++ [Call; HttpGet (issue_url "octo/repo" 7);
                               Call; HttpGet (comments_url "octo/repo" 7 1)])).
Proof.
  intros get_issue get_comments. unfold sample_main, sample_args.
  eapply (comments_failure_exit_code get_issue get_comments _ _ _ _ _ _ _ _ _ _ _
            _ _ _ _ 2 "octo/repo" 7 "out" " ghp_0123456789 " _ (start tt) _ _ tt
            (TimeoutError "timed out")).
  - reflexivity.
  - reflexivity.
  - reflexivity.
  - reflexivity.
  - discriminate.
  - reflexivity.
  - reflexivity.
Defined.

Lemma download_failures_do_not_fail_run_witness :
  let get_issue := fun (_ : Request) (w : unit) =>
    (@inr exception _
       (sample_issue (Pipeline.Value (Pipeline.Value "octocat"))
          "<p>It crashes.</p><img src=...>"), w) in
  let get_comments := fun (_ : Request) (w : unit) =>
    (@inr exception _ (sample_comments 1 2, EmptyString), w) in
  exists s',
    sample_main get_issue get_comments sample_mkdir 3 sample_args (start tt)
    = Some (0, s').
Proof.
  intros get_issue get_comments. unfold sample_main, sample_args.
  eapply (download_failures_do_not_fail_run get_issue get_comments).
  - reflexivity.
  - reflexivity.
  - reflexivity.
  - reflexivity.
  - discriminate.
  - reflexivity.
  - right. reflexivity.
  - intros p d w. exists w. reflexivity.
  - intros p t w. exists w. reflexivity.
Defined.
(* ===================================================================== *)
(** * The statistics collector                                            *)
(* ===================================================================== *)

Lemma runs_app l1 l2 :
  StatsCollector.runs (l1 ++ l2)
  = (StatsCollector.runs l1 + StatsCollector.runs l2)%nat.
Proof. unfold StatsCollector.runs. now rewrite omap_app, length_app. Qed.

Lemma waits_app l1 l2 :
  StatsCollector.waits (l1 ++ l2)
  = StatsCollector.waits l1 ++ StatsCollector.waits l2.
Proof. unfold StatsCollector.waits. now rewrite omap_app. Qed.

Section GhCommandFacts.
Context {World J : Type}.
Variable subprocess_run :
  string -> World -> (exception + StatsCollector.CompletedProcess) * World.
Variable json_loads : string -> exception + option J.
Variable sleep_refuses : Z -> option exception.
Variable str_refuses : Z -> option exception.
Variables (command : string) (max_attempts backoff_base : Z).

Let loop := StatsCollector.run_gh_loop subprocess_run json_loads sleep_refuses
              str_refuses command max_attempts backoff_base.
Let announced (attempt code : Z) : option exception :=
  StatsCollector.first_refusal str_refuses
    [attempt; max_attempts; code; backoff_base ^ attempt].
Let next (w : World) : World := (subprocess_run command w).2.
Let decoded := StatsCollector.decoded json_loads.





(** [j] failures and then a run that exits with 0. *)
Lemma run_gh_loop_settled j : forall k attempt w log result,
  attempt + Z.of_nat k = max_attempts + 1 ->
  (j < k)%nat ->
  (forall i, (i < j)%nat ->
     exists failed,
       (subprocess_run command (Nat.iter i next w)).1 = inr failed
       /\ StatsCollector.returncode failed <> 0
       /\ announced (attempt + Z.of_nat i) (StatsCollector.returncode failed)
          = None) ->
  (forall a, attempt <= a < attempt + Z.of_nat j ->
             sleep_refuses (backoff_base ^ a) = None) ->
  (subprocess_run command (Nat.iter j next w)).1 = inr result ->
  StatsCollector.returncode result = 0 ->
  exists evs,
    loop (seqZ attempt (Z.of_nat k)) w log
    = (decoded (StatsCollector.stdout result), Nat.iter (S j) next w, log ++ evs)
    /\ StatsCollector.runs evs = S j
    /\ StatsCollector.waits evs
       = map (Z.pow backoff_base) (seqZ attempt (Z.of_nat j)).
Proof.
  induction j as [|j IH]; intros k attempt w log result Hk Hj Hfail Hsleep Hres Hzero.
  - destruct k as [|k]; [lia|].
    rewrite seqZ_cons by lia.
    unfold loop. cbn [StatsCollector.run_gh_loop].
    cbn [Nat.iter nat_rect] in *. unfold next.
    destruct (subprocess_run command w) as [r0 w1]. cbn [fst snd] in *. subst r0.
    apply Z.eqb_eq in Hzero. rewrite Hzero.
    exists [StatsCollector.Ran command]. auto.
  - destruct k as [|k]; [lia|].
    rewrite seqZ_cons by lia.
    replace (Z.pred (Z.of_nat (S k))) with (Z.of_nat k) by lia.
    unfold loop. cbn [StatsCollector.run_gh_loop].
    destruct (Hfail 0%nat ltac:(lia)) as (failed & H0 & Hcode & Hstr).
    cbn [Nat.iter nat_rect] in H0. rewrite Z.add_0_r in Hstr.
    rewrite (Nat.iter_succ_r (S j)).
    rewrite Nat.iter_succ_r in Hres.
    change (next w) with ((subprocess_run command w).2) in Hres |- *.
    assert (Hfail' : forall i, (i < j)%nat ->
              exists failed,
                (subprocess_run command
                   (Nat.iter i next (subprocess_run command w).2)).1 = inr failed
                /\ StatsCollector.returncode failed <> 0
                /\ announced (Z.succ attempt + Z.of_nat i)
                     (StatsCollector.returncode failed) = None).
    { intros i Hi. specialize (Hfail (S i) ltac:(lia)).
      rewrite Nat.iter_succ_r in Hfail.
      replace (attempt + Z.of_nat (S i)) with (Z.succ attempt + Z.of_nat i)
        in Hfail by lia.
      exact Hfail. }
    destruct (subprocess_run command w) as [r0 w1]. cbn [fst snd] in *. subst r0.
    apply Z.eqb_neq in Hcode. rewrite Hcode.
    destruct (Z.eqb_spec attempt max_attempts) as [-> | Hne]; [lia|].
    unfold announced in Hstr. rewrite Hstr.
    rewrite (Hsleep attempt) by lia. fold loop.
    match goal with
    | |- context [loop _ w1 ?l] =>
        destruct (IH k (Z.succ attempt) w1 l result ltac:(lia) ltac:(lia) Hfail')
          as (evs & Hrun & Hruns & Hwaits); [| exact Hres | exact Hzero |]
    end.
    { intros a Ha. apply Hsleep. lia. }
    eexists ([_; _; _] ++ evs). split.
    { rewrite Hrun. rewrite <- !app_assoc. reflexivity. }
    rewrite runs_app, waits_app, Hruns, Hwaits.
    change (StatsCollector.runs [_; _; _]) with 1%nat.
    change (StatsCollector.waits [_; _; _]) with [backoff_base ^ attempt].
    split; [lia|].
    rewrite (seqZ_cons attempt (Z.of_nat (S j))) by lia. cbn [map app].
    f_equal. f_equal. f_equal. lia.
Qed.

Lemma seqZ_of_max : seqZ 1 max_attempts = seqZ 1 (Z.of_nat (Z.to_nat max_attempts)).
Proof.
  destruct (Z.le_gt_cases 0 max_attempts) as [H | H].
  - now rewrite Z2Nat.id.
  - unfold seqZ. now replace (Z.to_nat max_attempts) with 0%nat by lia.
Qed.




(** X21.  After [j] runs that complete with a code other than 0 ([j]
    below [max_attempts]), whose messages can be written and whose
    waits [time.sleep] accepts, a run
    that completes with code 0 ends the loop: [j + 1] runs, [j] waits,
    and the outcome is that of [json.loads] on its output, with None in
    place of a JSONDecodeError; an output that is not JSON is not
    retried. *)
Theorem gh_command_stops_at_first_zero_exit (w : World) (j : nat)
    (result : StatsCollector.CompletedProcess) :
  Z.of_nat j < max_attempts ->
  (forall i, (i < j)%nat ->
     exists failed,
       (subprocess_run command
          (Nat.iter i (fun w0 => (subprocess_run command w0).2) w)).1 = inr failed
       /\ StatsCollector.returncode failed <> 0
       /\ StatsCollector.first_refusal str_refuses
            [Z.of_nat (S i); max_attempts; StatsCollector.returncode failed;
             backoff_base ^ Z.of_nat (S i)] = None) ->
  (forall a, 1 <= a <= Z.of_nat j -> sleep_refuses (backoff_base ^ a) = None) ->
  (subprocess_run command
     (Nat.iter j (fun w0 => (subprocess_run command w0).2) w)).1 = inr result ->
  StatsCollector.returncode result = 0 ->
  let out := StatsCollector.run_gh_command subprocess_run json_loads
               sleep_refuses str_refuses command max_attempts backoff_base w in
  out.1 = (match json_loads (StatsCollector.stdout result) with
           | inr value => inr value
           | inl (JSONDecodeError _) => inr None
           | inl e => inl e
           end,
           Nat.iter (S j) (fun w0 => (subprocess_run command w0).2) w)
  /\ StatsCollector.runs out.2 = S j
  /\ StatsCollector.waits out.2
     = map (Z.pow backoff_base) (seqZ 1 (Z.of_nat j)).
Proof.
  intros Hj Hfail Hsleep Hres Hzero out. subst out.
  unfold StatsCollector.run_gh_command. rewrite seqZ_of_max.
  destruct (run_gh_loop_settled j (Z.to_nat max_attempts) 1 w [] result
              ltac:(lia) ltac:(lia)) as (evs & Hrun & Hruns & Hwaits);
    [| | exact Hres | exact Hzero |].
  { intros i Hi. destruct (Hfail i Hi) as (failed & Hrun & Hcode & Hstr).
    exists failed. split; [exact Hrun|]. split; [exact Hcode|].
    unfold announced.
    replace (1 + Z.of_nat i) with (Z.of_nat (S i)) by lia. exact Hstr. }
  { intros a Ha. apply Hsleep. lia. }
  fold loop. rewrite Hrun. cbn [fst snd app]. auto.
Qed.

End GhCommandFacts.


Lemma gh_command_stops_at_first_zero_exit_witness :
  let failed := StatsCollector.mkCompletedProcess 1 EmptyString "HTTP 502" in
  let garbled := StatsCollector.mkCompletedProcess 0 "<html>" EmptyString in
  let out := StatsCollector.run_gh_command scripted_process sample_json_loads
               sample_sleep_refuses sample_str_refuses "gh api repos/octo/repo/issues" 3 2
               [failed; garbled] in
  out.1 = (inr None, [])
  /\ StatsCollector.runs out.2 = 2%nat
  /\ StatsCollector.waits out.2 = [2].
Proof.
  intros failed garbled.
  apply (gh_command_stops_at_first_zero_exit scripted_process sample_json_loads
           sample_sleep_refuses sample_str_refuses
           "gh api repos/octo/repo/issues" 3 2 [failed; garbled] 1 garbled).
  - lia.
  - intros i Hi. assert (i = 0)%nat as -> by lia.
    eexists. split; [reflexivity | split; [vm_compute; lia | reflexivity]].
  - intros a Ha. assert (a = 1) as -> by lia. reflexivity.
  - reflexivity.
  - reflexivity.
Defined.

(** ** The loop over the open issues *)

Lemma issue_priority_known labels :
  In (issue_priority labels)
     ["critical"; "high"; "medium"; "low"; "unprioritized"].
Proof.
  unfold issue_priority. rewrite priority_loop_rule.
  destruct (existsb _ labels); [simpl; auto|].
  destruct (existsb _ labels); [simpl; auto|].
  cbn [String.eqb Ascii.eqb Bool.eqb andb].
  destruct (List.find _ labels) as [l|]; [|simpl; auto 6].
  destruct (has_word "medium" l); simpl; auto 6.
Qed.

Lemma age_bucket_known age_days :
  In (StatsCollector.age_bucket age_days)
     ["new"; "recent"; "active"; "stale"; "ancient"].
Proof.
  unfold StatsCollector.age_bucket.
  repeat match goal with
         | |- context [if ?b then _ else _] => destruct b
         end; simpl; auto 6.
Qed.

Lemma count_labels_keeps labels : forall st,
  StatsCollector.by_priority (StatsCollector.count_labels labels st)
  = StatsCollector.by_priority st
  /\ StatsCollector.by_age (StatsCollector.count_labels labels st)
     = StatsCollector.by_age st
  /\ StatsCollector.issues_open (StatsCollector.count_labels labels st)
     = StatsCollector.issues_open st.
Proof.
  induction labels as [|l labels IH]; intros st; [auto|].
  cbn [StatsCollector.count_labels]. cbv zeta.
  match goal with
  | |- context [StatsCollector.count_labels labels ?st'] =>
      destruct (IH st') as (-> & -> & ->)
  end.
  repeat match goal with
         | |- context [if ?b then _ else _] => destruct b
         end; auto.
Qed.

Lemma increment_present k d n :
  d !! k = Some n ->
  StatsCollector.increment k d = Some (<[k := n + 1]> d).
Proof. intros H. unfold StatsCollector.increment. now rewrite H. Qed.

Lemma initial_stats_keys :
  (forall p, In p ["critical"; "high"; "medium"; "low"; "unprioritized"] ->
             is_Some (StatsCollector.by_priority StatsCollector.initial_stats !! p))
  /\ (forall a, In a ["new"; "recent"; "active"; "stale"; "ancient"] ->
                is_Some (StatsCollector.by_age StatsCollector.initial_stats !! a)).
Proof.
  split; intros k Hin; cbn in Hin;
    destruct Hin as [<-|[<-|[<-|[<-|[<-|[]]]]]]; vm_compute; eauto.
Qed.

Section OpenIssueFacts.
Variable age_days_of : string -> Z.

Let priority_of (issue : StatsCollector.OpenIssue) : string :=
  issue_priority (StatsCollector.labels issue).
Let bucket_of (issue : StatsCollector.OpenIssue) : string :=
  StatsCollector.age_bucket (age_days_of (StatsCollector.created_at issue)).
Let tally (key_of : StatsCollector.OpenIssue -> string) (k : string)
    (issues : list StatsCollector.OpenIssue) : Z :=
  Z.of_nat (length (List.filter (fun i => String.eqb (key_of i) k) issues)).

Lemma tally_cons key_of k i issues :
  tally key_of k (i :: issues)
  = (if String.eqb (key_of i) k then 1 else 0) + tally key_of k issues.
Proof.
  unfold tally. cbn [List.filter].
  destruct (String.eqb (key_of i) k); cbn [length]; lia.
Qed.

Lemma process_open_issues_tallies issues : forall st,
  (forall p, In p ["critical"; "high"; "medium"; "low"; "unprioritized"] ->
             is_Some (StatsCollector.by_priority st !! p)) ->
  (forall a, In a ["new"; "recent"; "active"; "stale"; "ancient"] ->
             is_Some (StatsCollector.by_age st !! a)) ->
  exists st',
    StatsCollector.process_open_issues age_days_of st issues = Some st'
    /\ (forall p, StatsCollector.by_priority st' !! p
                  = (fun n => n + tally priority_of p issues)
                      <$> StatsCollector.by_priority st !! p)
    /\ (forall a, StatsCollector.by_age st' !! a
                  = (fun n => n + tally bucket_of a issues)
                      <$> StatsCollector.by_age st !! a)
    /\ map StatsCollector.entry_number (StatsCollector.issues_open st')
       = map StatsCollector.entry_number (StatsCollector.issues_open st)
         ++ map StatsCollector.number issues
    /\ map StatsCollector.entry_priority (StatsCollector.issues_open st')
       = map StatsCollector.entry_priority (StatsCollector.issues_open st)
         ++ map priority_of issues
    /\ map StatsCollector.entry_age_days (StatsCollector.issues_open st')
       = map StatsCollector.entry_age_days (StatsCollector.issues_open st)
         ++ map (fun i => age_days_of (StatsCollector.created_at i)) issues.
Proof.
  induction issues as [|issue issues IH]; intros st Hp Ha.
  - exists st. split; [reflexivity|]. unfold tally. cbn.
    repeat split; intros; rewrite ?app_nil_r; try reflexivity.
    + destruct (StatsCollector.by_priority st !! p); cbn; f_equal; lia.
    + destruct (StatsCollector.by_age st !! a); cbn; f_equal; lia.
  - cbn [StatsCollector.process_open_issues].
    unfold StatsCollector.process_issue.
    destruct (Hp _ (issue_priority_known (StatsCollector.labels issue))) as [n Hn].
    destruct (Ha _ (age_bucket_known
                      (age_days_of (StatsCollector.created_at issue)))) as [m Hm].
    rewrite (increment_present _ _ _ Hn), (increment_present _ _ _ Hm).
    match goal with
    | |- context [StatsCollector.count_labels ?ls ?s0] =>
        destruct (count_labels_keeps ls s0) as (Hkp & Hka & Hko);
        rewrite Hkp, Hka, Hko
    end.
    cbn [StatsCollector.by_priority StatsCollector.by_age
         StatsCollector.issues_open].
    match goal with
    | |- context [StatsCollector.process_open_issues _ ?s1 issues] =>
        destruct (IH s1) as (st' & Hrun & Hpr & Hag & Hnum & Hprio & Hdays)
    end.
    { intros p Hin. cbn [StatsCollector.by_priority].
      rewrite lookup_insert. destruct (decide _); [eauto | auto]. }
    { intros a Hin. cbn [StatsCollector.by_age].
      rewrite lookup_insert. destruct (decide _); [eauto | auto]. }
    exists st'. split; [exact Hrun|].
    cbn [StatsCollector.by_priority StatsCollector.by_age
         StatsCollector.issues_open] in *.
    repeat split.
    + intros p. rewrite Hpr, lookup_insert, tally_cons.
      destruct (decide _) as [<- | Hne].
      * rewrite Hn. unfold priority_of. rewrite String.eqb_refl.
        cbn. f_equal. lia.
      * apply String.eqb_neq in Hne. unfold priority_of. rewrite Hne.
        destruct (StatsCollector.by_priority st !! p); cbn; f_equal.
    + intros a. rewrite Hag, lookup_insert, tally_cons.
      destruct (decide _) as [<- | Hne].
      * rewrite Hm. unfold bucket_of. rewrite String.eqb_refl.
        cbn. f_equal. lia.
      * apply String.eqb_neq in Hne. unfold bucket_of. rewrite Hne.
        destruct (StatsCollector.by_age st !! a); cbn; f_equal.
    + rewrite Hnum, map_app, <- app_assoc. reflexivity.
    + rewrite Hprio, map_app, <- app_assoc. reflexivity.
    + rewrite Hdays, map_app, <- app_assoc. reflexivity.
Qed.

(** Every issue falls under exactly one of the keys. *)
Lemma tally_partition (key_of : StatsCollector.OpenIssue -> string)
    (k1 k2 k3 k4 k5 : string) issues :
  NoDup [k1; k2; k3; k4; k5] ->
  (forall i, In (key_of i) [k1; k2; k3; k4; k5]) ->
  tally key_of k1 issues + tally key_of k2 issues + tally key_of k3 issues
  + tally key_of k4 issues + tally key_of k5 issues
  = Z.of_nat (length issues).
Proof.
  intros Hnd Hin. induction issues as [|i issues IH]; [reflexivity|].
  rewrite !tally_cons. cbn [length]. rewrite Nat2Z.inj_succ, <- IH.
  assert (Hone : (if String.eqb (key_of i) k1 then 1 else 0)
                 + (if String.eqb (key_of i) k2 then 1 else 0)
                 + (if String.eqb (key_of i) k3 then 1 else 0)
                 + (if String.eqb (key_of i) k4 then 1 else 0)
                 + (if String.eqb (key_of i) k5 then 1 else 0) = 1).
  { specialize (Hin i). cbn in Hin.
    apply NoDup_cons in Hnd as [N1 Hnd]. apply NoDup_cons in Hnd as [N2 Hnd].
    apply NoDup_cons in Hnd as [N3 Hnd]. apply NoDup_cons in Hnd as [N4 _].
    repeat match goal with
           | H : _ ∉ _ :: _ |- _ => apply not_elem_of_cons in H as [? H]
           end.
    destruct Hin as [E|[E|[E|[E|[E|[]]]]]]; rewrite <- E;
      repeat match goal with
             | |- context [String.eqb ?a ?b] =>
                 destruct (String.eqb_spec a b)
             end; try congruence; lia. }
  lia.
Qed.


(** X22.  The loop over the open issues never fails on a missing key,
    and counts every issue exactly once in each table: under its
    priority among the five keys of [by_priority], and under its age
    bucket among the five keys of [by_age], so that each table adds up
    to the number of open issues.  The list of open issues has one entry
    per issue, in order, with that priority and age. *)
Theorem open_issues_counted_once_per_table
    (open_issues : list StatsCollector.OpenIssue) :
  let count := fun (key_of : StatsCollector.OpenIssue -> string) (k : string) =>
    Z.of_nat (length (List.filter (fun i => String.eqb (key_of i) k) open_issues)) in
  let priority_of := fun i => issue_priority (StatsCollector.labels i) in
  let bucket_of := fun i =>
    StatsCollector.age_bucket (age_days_of (StatsCollector.created_at i)) in
  exists st,
    StatsCollector.process_open_issues age_days_of StatsCollector.initial_stats
      open_issues = Some st
    /\ (forall p, StatsCollector.by_priority st !! p
                  = if bool_decide
                         (In p ["critical"; "high"; "medium"; "low"; "unprioritized"])
                    then Some (count priority_of p) else None)
    /\ (forall a, StatsCollector.by_age st !! a
                  = if bool_decide
                         (In a ["new"; "recent"; "active"; "stale"; "ancient"])
                    then Some (count bucket_of a) else None)
    /\ count priority_of "critical" + count priority_of "high"
       + count priority_of "medium" + count priority_of "low"
       + count priority_of "unprioritized" = Z.of_nat (length open_issues)
    /\ count bucket_of "new" + count bucket_of "recent"
       + count bucket_of "active" + count bucket_of "stale"
       + count bucket_of "ancient" = Z.of_nat (length open_issues)
    /\ map StatsCollector.entry_number (StatsCollector.issues_open st)
       = map StatsCollector.number open_issues
    /\ map StatsCollector.entry_priority (StatsCollector.issues_open st)
       = map priority_of open_issues
    /\ map StatsCollector.entry_age_days (StatsCollector.issues_open st)
       = map (fun i => age_days_of (StatsCollector.created_at i)) open_issues.
Proof.
  intros count priority_of0 bucket_of0.
  destruct (process_open_issues_tallies open_issues StatsCollector.initial_stats
              (proj1 initial_stats_keys) (proj2 initial_stats_keys))
    as (st & Hrun & Hpr & Hag & Hnum & Hprio & Hdays).
  exists st. split; [exact Hrun|].
  split; [|split; [|split; [|split; [|split; [exact Hnum|split; [exact Hprio|exact Hdays]]]]]].
  - intros p. rewrite Hpr. fold (tally priority_of p open_issues).
    cbn [StatsCollector.initial_stats StatsCollector.by_priority].
    rewrite !lookup_insert, lookup_empty.
    destruct (bool_decide _) eqn:Hb.
    + apply bool_decide_eq_true in Hb. cbn in Hb.
      destruct Hb as [<-|[<-|[<-|[<-|[<-|[]]]]]]; reflexivity.
    + apply bool_decide_eq_false in Hb. cbn in Hb.
      repeat (destruct (decide _) as [E|_]; [exfalso; apply Hb; rewrite E; tauto|]).
      reflexivity.
  - intros a. rewrite Hag. fold (tally bucket_of a open_issues).
    cbn [StatsCollector.initial_stats StatsCollector.by_age].
    rewrite !lookup_insert, lookup_empty.
    destruct (bool_decide _) eqn:Hb.
    + apply bool_decide_eq_true in Hb. cbn in Hb.
      destruct Hb as [<-|[<-|[<-|[<-|[<-|[]]]]]]; reflexivity.
    + apply bool_decide_eq_false in Hb. cbn in Hb.
      repeat (destruct (decide _) as [E|_]; [exfalso; apply Hb; rewrite E; tauto|]).
      reflexivity.
  - apply (tally_partition priority_of).
    + apply (bool_decide_unpack _). vm_compute. exact I.
    + intros i. apply issue_priority_known.
  - apply (tally_partition bucket_of).
    + apply (bool_decide_unpack _). vm_compute. exact I.
    + intros i. apply age_bucket_known.
Qed.

End OpenIssueFacts.

Section LabelFacts.

Let is_bug (l : Label) : bool := String.eqb (Py.lower (name l)) "bug".
Let is_enhancement (l : Label) : bool :=
  String.eqb (Py.lower (name l)) "enhancement".
Let names_area (a : string) (l : Label) : bool :=
  String.prefix "area:" (Py.lower (name l))
  && String.eqb (PyText.strip (PyText.replace "area:" EmptyString
                                 (Py.lower (name l)))) a.
Let occurrences (test : Label -> bool) (labels : list Label) : Z :=
  Z.of_nat (length (List.filter test labels)).

Lemma occurrences_cons test l labels :
  occurrences test (l :: labels)
  = (if test l then 1 else 0) + occurrences test labels.
Proof.
  unfold occurrences. cbn [List.filter].
  destruct (test l); cbn [length]; lia.
Qed.

Lemma occurrences_app test ls1 ls2 :
  occurrences test (ls1 ++ ls2) = occurrences test ls1 + occurrences test ls2.
Proof. unfold occurrences. rewrite List.filter_app, length_app. lia. Qed.

Lemma count_labels_occurrences labels : forall st,
  StatsCollector.with_bug_label (StatsCollector.count_labels labels st)
  = StatsCollector.with_bug_label st + occurrences is_bug labels
  /\ StatsCollector.with_enhancement_label (StatsCollector.count_labels labels st)
     = StatsCollector.with_enhancement_label st + occurrences is_enhancement labels
  /\ forall a,
       default 0 (StatsCollector.by_area (StatsCollector.count_labels labels st) !! a)
       = default 0 (StatsCollector.by_area st !! a) + occurrences (names_area a) labels.
Proof.
  induction labels as [|l labels IH]; intros st.
  - unfold occurrences. cbn. repeat split; intros; lia.
  - cbn [StatsCollector.count_labels]. cbv zeta.
    match goal with
    | |- context [StatsCollector.count_labels labels ?st'] =>
        destruct (IH st') as (-> & -> & Harea)
    end.
    rewrite !occurrences_cons.
    change (is_bug l) with (String.eqb (Py.lower (name l)) "bug").
    change (is_enhancement l) with (String.eqb (Py.lower (name l)) "enhancement").
    split; [|split].
    + destruct (String.prefix "area:" (Py.lower (name l)));
        destruct (String.eqb (Py.lower (name l)) "bug");
        destruct (String.eqb (Py.lower (name l)) "enhancement"); cbn; lia.
    + destruct (String.prefix "area:" (Py.lower (name l)));
        destruct (String.eqb (Py.lower (name l)) "bug");
        destruct (String.eqb (Py.lower (name l)) "enhancement"); cbn; lia.
    + intros a. rewrite Harea, occurrences_cons.
      change (names_area a l)
        with (String.prefix "area:" (Py.lower (name l))
              && String.eqb (PyText.strip (PyText.replace "area:" EmptyString
                                             (Py.lower (name l)))) a).
      destruct (String.prefix "area:" (Py.lower (name l))); cbn [andb].
      * destruct (String.eqb (Py.lower (name l)) "bug");
          destruct (String.eqb (Py.lower (name l)) "enhancement");
          cbn [StatsCollector.by_area]; rewrite lookup_insert;
          (destruct (decide _) as [E | E];
           [ rewrite E, String.eqb_refl; cbn; lia
           | apply String.eqb_neq in E; rewrite E; lia ]).
      * destruct (String.eqb (Py.lower (name l)) "bug");
          destruct (String.eqb (Py.lower (name l)) "enhancement");
          cbn [StatsCollector.by_area]; lia.
Qed.

Lemma count_labels_area_positive labels : forall st a,
  (forall a n, StatsCollector.by_area st !! a = Some n -> 0 < n) ->
  forall n, StatsCollector.by_area (StatsCollector.count_labels labels st) !! a
            = Some n -> 0 < n.
Proof.
  induction labels as [|l labels IH]; intros st a Hpos n; [apply Hpos|].
  cbn [StatsCollector.count_labels]. cbv zeta. apply IH.
  intros a' n'.
  destruct (String.prefix "area:" (Py.lower (name l)));
    destruct (String.eqb (Py.lower (name l)) "bug");
    destruct (String.eqb (Py.lower (name l)) "enhancement");
    cbn [StatsCollector.by_area]; try apply Hpos;
    rewrite lookup_insert; (destruct (decide _); [|apply Hpos]);
    intros [= <-];
    (destruct (StatsCollector.by_area st !! _) as [m|] eqn:Hm;
     [apply Hpos in Hm; cbn; lia | cbn; lia]).
Qed.

Variable age_days_of : string -> Z.

Lemma process_open_issues_labels issues : forall st st',
  StatsCollector.process_open_issues age_days_of st issues = Some st' ->
  (forall a n, StatsCollector.by_area st !! a = Some n -> 0 < n) ->
  StatsCollector.with_bug_label st'
  = StatsCollector.with_bug_label st
    + occurrences is_bug (flat_map StatsCollector.labels issues)
  /\ StatsCollector.with_enhancement_label st'
     = StatsCollector.with_enhancement_label st
       + occurrences is_enhancement (flat_map StatsCollector.labels issues)
  /\ (forall a,
        default 0 (StatsCollector.by_area st' !! a)
        = default 0 (StatsCollector.by_area st !! a)
          + occurrences (names_area a) (flat_map StatsCollector.labels issues))
  /\ (forall a n, StatsCollector.by_area st' !! a = Some n -> 0 < n).
Proof.
  induction issues as [|issue issues IH]; intros st st'.
  - intros [= <-] Hpos. unfold occurrences. cbn.
    repeat split; intros; try lia. eapply Hpos; eassumption.
  - cbn [StatsCollector.process_open_issues flat_map].
    unfold StatsCollector.process_issue.
    destruct (StatsCollector.increment _ (StatsCollector.by_priority st))
      as [bp|]; [|discriminate].
    destruct (StatsCollector.increment _ (StatsCollector.by_age st))
      as [ba|]; [|discriminate].
    intros Hrun Hpos.
    apply IH in Hrun.
    + destruct Hrun as (Hb & He & Ha & Hp).
      cbn [StatsCollector.with_bug_label StatsCollector.with_enhancement_label
           StatsCollector.by_area] in *.
      match type of Hb with
      | context [StatsCollector.count_labels ?ls ?s0] =>
          destruct (count_labels_occurrences ls s0) as (Hb0 & He0 & Ha0)
      end.
      cbn [StatsCollector.with_bug_label StatsCollector.with_enhancement_label
           StatsCollector.by_area] in *.
      rewrite !occurrences_app.
      split; [lia|]. split; [lia|]. split; [|exact Hp].
      intros a. rewrite occurrences_app, Ha, Ha0. lia.
    + cbn [StatsCollector.by_area]. intros a n.
      apply count_labels_area_positive. exact Hpos.
Qed.


(** X23.  Labels are counted per occurrence, not per issue, and in
    lower case: [with_bug_label] and [with_enhancement_label] are the
    numbers of labels of all open issues named bug and enhancement, and
    [by_area] has a key for an area exactly when some label names it
    after the prefix area:, with the number of such labels. *)
Theorem labels_counted_per_occurrence
    (open_issues : list StatsCollector.OpenIssue) :
  let all_labels := flat_map StatsCollector.labels open_issues in
  let count := fun test : Label -> bool =>
    Z.of_nat (length (List.filter test all_labels)) in
  exists st,
    StatsCollector.process_open_issues age_days_of StatsCollector.initial_stats
      open_issues = Some st
    /\ StatsCollector.with_bug_label st
       = count (fun l => String.eqb (Py.lower (name l)) "bug")
    /\ StatsCollector.with_enhancement_label st
       = count (fun l => String.eqb (Py.lower (name l)) "enhancement")
    /\ forall a,
         StatsCollector.by_area st !! a
         = let n := count (fun l =>
                      String.prefix "area:" (Py.lower (name l))
                      && String.eqb
                           (PyText.strip (PyText.replace "area:" EmptyString
                                            (Py.lower (name l)))) a) in
           if n =? 0 then None else Some n.
Proof.
  intros all_labels count.
  destruct (process_open_issues_tallies age_days_of open_issues
              StatsCollector.initial_stats
              (proj1 initial_stats_keys) (proj2 initial_stats_keys))
    as (st & Hrun & _).
  exists st. split; [exact Hrun|].
  destruct (process_open_issues_labels _ _ _ Hrun) as (Hb & He & Ha & Hp).
  { intros a n. cbn. rewrite lookup_empty. discriminate. }
  cbn [StatsCollector.initial_stats StatsCollector.with_bug_label
       StatsCollector.with_enhancement_label StatsCollector.by_area] in *.
  split; [rewrite Hb; apply Z.add_0_l|].
  split; [rewrite He; apply Z.add_0_l|]. clear Hb He.
  intros a. cbv zeta. specialize (Ha a). rewrite lookup_empty in Ha.
  cbn [default] in Ha.
  change (occurrences (names_area a) (flat_map StatsCollector.labels open_issues))
    with (count (names_area a)) in Ha.
  fold (names_area a).
  destruct (StatsCollector.by_area st !! a) as [n|] eqn:Hn.
  - apply Hp in Hn. cbn in Ha.
    destruct (Z.eqb_spec (count (names_area a)) 0); [lia|].
    f_equal. lia.
  - cbn in Ha.
    destruct (Z.eqb_spec (count (names_area a)) 0); [reflexivity|lia].
Qed.

End LabelFacts.
(* ===================================================================== *)
(** * The batch fetcher                                                   *)
(* ===================================================================== *)

Section BatchFacts.
Context {World Path : Type}.
Variable path_exists : string -> World -> bool.
Variable mkdir_parents : Path -> World -> (exception + unit) * World.
Variable run_command : string -> World -> Z * World.
Variable dump_manifest :
  Path -> Matching.Manifest -> World -> (exception + unit) * World.
Variable path_of : string -> Path.
Variable path_div : Path -> string -> Path.
Variable path_str : Path -> string.

Let fetch_one :=
  Matching.fetch_issue_complete path_exists mkdir_parents run_command
    path_of path_div path_str.
Let fetch_each :=
  Matching.fetch_each path_exists mkdir_parents run_command
    path_of path_div path_str.
Let main_from_issues :=
  Matching.main_from_issues path_exists mkdir_parents run_command dump_manifest
    path_of path_div path_str.

Lemma find_script_none w :
  (forall path, In path Matching.script_paths -> path_exists path w = false) ->
  Matching.find_script path_exists w = None.
Proof.
  intros Hnone. unfold Matching.find_script.
  destruct (List.find _ Matching.script_paths) as [p|] eqn:Hf; [|reflexivity].
  apply List.find_some in Hf as [Hin Hp]. rewrite (Hnone p Hin) in Hp. discriminate.
Qed.

Lemma fetch_each_without_script repo dir listed : forall s f w commands,
  (forall path, In path Matching.script_paths -> path_exists path w = false) ->
  fetch_each repo dir listed s f w commands
  = (inr (s, f + Z.of_nat (length listed)), w, commands).
Proof.
  induction listed as [|issue listed IH]; intros s f w commands Hnone.
  - cbn. now rewrite Z.add_0_r.
  - unfold fetch_each in *. cbn [Matching.fetch_each].
    unfold Matching.fetch_issue_complete. rewrite (find_script_none w Hnone).
    rewrite IH by exact Hnone. cbn [length].
    replace (f + 1 + Z.of_nat (length listed))
      with (f + Z.of_nat (S (length listed))) by lia.
    reflexivity.
Qed.

(** X24.  When none of the three script paths exists, the batch over a
    non-empty list of issues runs no command and creates no issue
    directory, still writes the manifest that lists every issue, and
    exits with 1. *)
Theorem batch_without_script_fails_every_issue repo dir listed w w1 w2 :
  listed <> [] ->
  mkdir_parents (path_of dir) w = (inr tt, w1) ->
  (forall path, In path Matching.script_paths -> path_exists path w1 = false) ->
  dump_manifest (path_div (path_of dir) "manifest.json")
    (Matching.manifest_of listed) w1 = (inr tt, w2) ->
  main_from_issues repo dir listed w = (inr 1, w2, [])
  /\ Matching.total_issues (Matching.manifest_of listed)
     = Z.of_nat (length listed).
Proof.
  intros Hne Hmk Hnone Hdump. split; [|reflexivity].
  unfold main_from_issues, Matching.main_from_issues. rewrite Hmk.
  destruct listed as [|issue listed]; [congruence|].
  fold fetch_each. rewrite (fetch_each_without_script _ _ _ _ _ _ _ Hnone).
  unfold Matching.create_manifest. rewrite Hdump.
  unfold Matching.exit_status. cbn [length].
  destruct (Z.eqb_spec (0 + Z.of_nat (S (length listed))) 0); [lia | reflexivity].
Qed.

Lemma fetch_each_counts repo dir listed : forall s f w commands,
  exists new,
    (fetch_each repo dir listed s f w commands).2 = commands ++ new
    /\ (length new <= length listed)%nat
    /\ match (fetch_each repo dir listed s f w commands).1.1 with
       | inr (s', f') =>
           s' + f' = s + f + Z.of_nat (length listed)
           /\ s <= s' /\ f <= f'
           /\ s' - s <= Z.of_nat (length new)
       | inl _ => (length new < length listed)%nat
       end.
Proof.
  induction listed as [|issue listed IH]; intros s f w commands.
  - exists []. cbn. rewrite app_nil_r. repeat split; lia.
  - unfold fetch_each in *. cbn [Matching.fetch_each].
    unfold Matching.fetch_issue_complete.
    destruct (Matching.find_script path_exists w) as [script|].
    + cbv zeta. destruct (mkdir_parents _ w) as [[e | []] w1].
      * exists []. cbn. rewrite app_nil_r. repeat split; lia.
      * destruct (run_command _ w1) as [rc w2].
        destruct (rc =? 0).
        -- match goal with
           | |- context [Matching.fetch_each _ _ _ _ _ _ _ _ listed ?s1 ?f1 ?w' ?c1] =>
               destruct (IH s1 f1 w' c1) as (new & Hc & Hlen & Hres)
           end.
           eexists (_ :: new). rewrite Hc, <- app_assoc. split; [reflexivity|].
           cbn [length]. split; [lia|].
           destruct (Matching.fetch_each _ _ _ _ _ _ _ _ _ _ _ _ _).1.1
             as [e | [s' f']]; lia.
        -- match goal with
           | |- context [Matching.fetch_each _ _ _ _ _ _ _ _ listed ?s1 ?f1 ?w' ?c1] =>
               destruct (IH s1 f1 w' c1) as (new & Hc & Hlen & Hres)
           end.
           eexists (_ :: new). rewrite Hc, <- app_assoc. split; [reflexivity|].
           cbn [length]. split; [lia|].
           destruct (Matching.fetch_each _ _ _ _ _ _ _ _ _ _ _ _ _).1.1
             as [e | [s' f']]; lia.
    + destruct (IH s (f + 1) w commands) as (new & Hc & Hlen & Hres).
      exists new. split; [exact Hc|]. cbn [length]. split; [lia|].
      destruct (Matching.fetch_each _ _ _ _ _ _ _ _ _ _ _ _ _).1.1
        as [e | [s' f']]; lia.
Qed.

(** X25.  [main] runs at most one command per listed issue, exits with
    0 or 1 when no exception ends it, and exits with 0 only if a command
    was run for every issue. *)
Theorem batch_exit_status_counts_failures repo dir listed w :
  let out := main_from_issues repo dir listed w in
  (length out.2 <= length listed)%nat
  /\ match out.1.1 with
     | inr status =>
         (status = 0 \/ status = 1)
         /\ (status = 0 -> length out.2 = length listed)
     | inl _ => True
     end.
Proof.
  intros out. subst out. unfold main_from_issues, Matching.main_from_issues.
  destruct (mkdir_parents (path_of dir) w) as [[e | []] w1]; [cbn; split; [lia|exact I]|].
  destruct listed as [|issue listed].
  { destruct (Matching.create_manifest _ _ _ _ _ w1) as [[e | []] w2]; cbn; auto. }
  fold fetch_each.
  destruct (fetch_each_counts repo dir (issue :: listed) 0 0 w1 [])
    as (new & Hc & Hlen & Hres).
  destruct (fetch_each repo dir (issue :: listed) 0 0 w1 [])
    as [[[e | [s' f']] w2] commands]; cbn [fst snd app] in *; subst commands.
  - split; [lia | exact I].
  - destruct (Matching.create_manifest _ _ _ _ _ w2) as [[e | []] w3];
      cbn [fst snd]; (split; [lia|]); [exact I|].
    unfold Matching.exit_status. destruct (Z.eqb_spec f' 0); split; auto.
    + intros _. lia.
    + intros [=].
Qed.

(** What a run of the batch does when the script is found and the
    directories can be made. *)
Variable script : string.
Variable returns : string -> Z.
Hypothesis script_found : forall w, Matching.find_script path_exists w = Some script.
Hypothesis mkdir_succeeds : forall p w, exists w', mkdir_parents p w = (inr tt, w').
Hypothesis command_returns : forall cmd w, (run_command cmd w).1 = returns cmd.





End BatchFacts.

Lemma batch_without_script_fails_every_issue_witness :
  Matching.main_from_issues (fun _ _ => false) sample_mkdir sample_run_command
    (fun _ _ w => (inr tt, w)) (fun s => s) sample_div (fun p => p)
    "octo/repo" "issues" [sample_listed 7; sample_listed 8] tt
  = (inr 1, tt, [])
  /\ Matching.total_issues (Matching.manifest_of [sample_listed 7; sample_listed 8])
     = Z.of_nat (length [sample_listed 7; sample_listed 8]).
Proof.
  apply (batch_without_script_fails_every_issue (fun _ _ => false) sample_mkdir
           sample_run_command (fun _ _ w => (inr tt, w)) (fun s => s) sample_div
           (fun p => p) "octo/repo" "issues" [sample_listed 7; sample_listed 8]
           tt tt tt).
  - discriminate.
  - reflexivity.
  - intros path Hin. reflexivity.
  - reflexivity.
Defined.

